(** * Trade ledger, FIFO profit accounting and route selection

    A shallow embedding of the accounting core of [OptimizedTradeManager]
    (the trade manager class of the bot): the persisted trading history, the
    FIFO matching done by [recordSellTrade], the summary it maintains, the
    quote comparison of [getBestRoute] and the slippage bound of the buy flow.
    Further parts follow them: the statistics of [getTradingStats], the list
    of traded tokens, [getDynamicGasPrice], [validateTradingPath],
    [getBestPriceStrategy] and [getTokenHoldings] of the trade manager,
    [splitMessage] of the bot, and [retry] and the daily trade log of the
    utilities.

    Conventions of the embedding.
    - A JavaScript number that holds an amount is read as an exact rational
      ([Q]); equality of amounts is [==], and an equation between amounts is
      one up to the rounding of the doubles the code computes with.  [NaN]
      and the infinities are outside this model, so a quotient is only
      meaningful when its divisor is not zero; the statements that need it
      assume that every buy records a positive token amount.
    - Where the rounding of doubles or [NaN] decides what the code does, the
      ledger is run in binary64 ([B64], over the primitive floats): the
      same functions with the same order of operations, used for the runs
      that show what the code does there.
    - [Date.now()] and [new Date()] are inputs ([Env]); an id is the
      millisecond count whose decimal rendering the source stores, a
      timestamp the millisecond count whose ISO rendering the source stores.
    - The history file is the state; every operation takes the file content
      and returns the new content together with its result.
    - The objects of [history.trades] are shared between the array and the
      filtered, sorted array [buyTrades]; the embedding keeps positions into
      [history.trades] so that the mutation of a lot is seen by the ledger.
    - A call to the chain, to a price source or to the file system is an
      input: the value it gives, or the fact that it throws.
    - A number shown to the user is the number before it is formatted with
      [toFixed]; a message that is split is the list of its UTF-16 code
      units. *)

From Stdlib Require Import ZArith QArith Qabs Qcanon Lqa Lia Bool.
From Stdlib Require Import String Ascii List Permutation Sorted.
From stdpp Require Import base list.
From Corelib Require Import PrimFloat.
Import ListNotations.

Local Open Scope Z_scope.
Local Open Scope Q_scope.

(** * The program *)

(** ** JavaScript helpers *)

Module JS.

(** [Math.min(a, b)] on finite numbers. *)
Definition min (a b : Q) : Q := if Qle_bool a b then a else b.

(** [Math.abs]. *)
Definition abs (a : Q) : Q := Qabs a.

(** [a > b], [a <= b], [a >= b], [a < b]. *)
Definition gt (a b : Q) : bool := negb (Qle_bool a b).
Definition le (a b : Q) : bool := Qle_bool a b.
Definition ge (a b : Q) : bool := Qle_bool b a.
Definition lt (a b : Q) : bool := negb (Qle_bool b a).

(** [String.prototype.toLowerCase] on ASCII text (token addresses are
    hexadecimal strings). *)
Definition lowerAscii (c : ascii) : ascii :=
  let n := nat_of_ascii c in
  if (Nat.leb 65 n && Nat.leb n 90)%bool then ascii_of_nat (n + 32) else c.

Fixpoint toLowerCase (s : string) : string :=
  match s with
  | EmptyString => EmptyString
  | String c r => String (lowerAscii c) (toLowerCase r)
  end.

(** [BigInt(x)] for a number [x]: defined on integers only, a
    [RangeError] otherwise. *)
Definition BigInt (x : Q) : option Z :=
  let r := Qred x in
  if Pos.eqb (Qden r) 1 then Some (Qnum r) else None.

(** Stable sort of positions by an integer key, ascending:
    [Array.prototype.sort] with the comparator [(a, b) => key a - key b]. *)
Fixpoint insertBy (key : nat -> Z) (i : nat) (l : list nat) : list nat :=
  match l with
  | [] => [i]
  | j :: r => if Z.leb (key i) (key j) then i :: l else j :: insertBy key i r
  end.

Fixpoint sortBy (key : nat -> Z) (l : list nat) : list nat :=
  match l with
  | [] => []
  | i :: r => insertBy key i (sortBy key r)
  end.

End JS.

(** ** Data model: the records of [trading-history.json] *)

Inductive Status := HOLDING | SOLD.

Definition Status_eqb (a b : Status) : bool :=
  match a, b with
  | HOLDING, HOLDING | SOLD, SOLD => true
  | _, _ => false
  end.

(** A record of type ['BUY']. *)
Module Buy.
Record t := mk {
  id : Z;
  tokenAddress : string;
  tokenSymbol : string;
  bnbAmount : Q;
  tokenAmount : Q;
  bnbPrice : Q;
  gasUsed : Q;
  timestamp : Z;
  txHash : string;
  status : Status
}.
End Buy.

(** An entry of [buyTradesUsed]: what one sell took from one lot. *)
Module Used.
Record t := mk {
  id : Z;
  tokensUsed : Q;
  costUsed : Q;
  gasUsed : Q
}.
End Used.

(** A record of type ['SELL']. *)
Module Sell.
Record t := mk {
  id : Z;
  tokenAddress : string;
  tokenSymbol : string;
  tokenAmount : Q;
  bnbReceived : Q;
  bnbPrice : Q;
  gasUsed : Q;
  timestamp : Z;
  txHash : string;
  totalCost : Q;
  profit : Q;
  profitPercentage : Q;
  buyTradesUsed : list Used.t
}.
End Sell.

Inductive Trade :=
| BUY (b : Buy.t)
| SELL (s : Sell.t).

Record Summary := mkSummary {
  totalTrades : Z;
  totalProfit : Q;
  totalLoss : Q;
  winRate : Q
}.

Record History := mkHistory {
  trades : list Trade;
  summary : Summary
}.

Definition zeroSummary : Summary := mkSummary 0 0 0 0.

Definition emptyHistory : History := mkHistory [] zeroSummary.

(** ** The history file *)

(** What reading [trading-history.json] can give.  [Document] is a JSON
    object whose [trades] and [summary] members may be missing (or falsy).
    Top-level JSON values other than an object or [null] are not modelled. *)
Inductive FileContent :=
| Unreadable
| Malformed
| JsonNull
| Document (ts : option (list Trade)) (sm : option Summary).

Inductive Exception :=
| ReadError
| SyntaxError
| TypeError.

(** The [try] block of [getTradingHistory]. *)
Definition getTradingHistory_try (f : FileContent) : Exception + History :=
  match f with
  | Unreadable => inl ReadError
  | Malformed => inl SyntaxError
  | JsonNull => inl TypeError
  | Document ts sm =>
      let sm' := match sm with Some s => s | None => zeroSummary end in
      let ts' := match ts with Some l => l | None => [] end in
      inr (mkHistory ts' sm')
  end.

(** [getTradingHistory]: the [try] block with its [catch]. *)
Definition getTradingHistory (f : FileContent) : History :=
  match getTradingHistory_try f with
  | inr history => history
  | inl _ => mkHistory [] (mkSummary 0 0 0 0)
  end.

(** [JSON.stringify(history)] read back: both members are present. *)
Definition stored (h : History) : FileContent :=
  Document (Some (trades h)) (Some (summary h)).

(** What the surroundings supply to one call: the two clock readings and
    whether [fs.writeFileSync] succeeds. *)
Record Env := mkEnv {
  now : Z;
  date : Z;
  writable : bool
}.

(** ** recordBuyTrade *)

Definition recordBuyTrade (f : FileContent) (env : Env)
    (tokenAddress tokenSymbol : string) (bnbAmount tokenAmount bnbPrice gasUsed : Q)
    (txHash : string) : FileContent * option Z :=
  let history := getTradingHistory f in
  let buyTrade :=
    Buy.mk (now env) (JS.toLowerCase tokenAddress) tokenSymbol
           bnbAmount tokenAmount bnbPrice gasUsed (date env) txHash HOLDING in
  let sm := summary history in
  let history' :=
    mkHistory (trades history ++ [BUY buyTrade])
              (mkSummary (totalTrades sm + 1) (totalProfit sm) (totalLoss sm) (winRate sm)) in
  if writable env then (stored history', Some (Buy.id buyTrade))
  else (f, None).

(** ** recordSellTrade *)

(** The predicate of the [filter]: a HOLDING BUY record of the token. *)
Definition isHoldingBuy (addr : string) (t : Trade) : bool :=
  match t with
  | BUY b => String.eqb (Buy.tokenAddress b) addr && Status_eqb (Buy.status b) HOLDING
  | SELL _ => false
  end.

Definition holdingAt (addr : string) (ts : list Trade) (i : nat) : bool :=
  match ts !! i with
  | Some t => isHoldingBuy addr t
  | None => false
  end.

Definition timestampAt (ts : list Trade) (i : nat) : Z :=
  match ts !! i with
  | Some (BUY b) => Buy.timestamp b
  | Some (SELL s) => Sell.timestamp s
  | None => 0%Z
  end.

(** [buyTrades]: the positions of the HOLDING BUY records of the token,
    sorted by ascending timestamp. *)
Definition buyTrades (addr : string) (ts : list Trade) : list nat :=
  JS.sortBy (timestampAt ts)
    (List.filter (holdingAt addr ts) (seq 0 (length ts))).

(** The variables of the loop. *)
Record Loop := mkLoop {
  ledger : list Trade;
  remainingTokensToSell : Q;
  totalCost : Q;
  totalGasUsed : Q;
  processedBuyTrades : list Used.t
}.

(** One iteration of the [for] loop, on the lot [buyTrade] found at
    position [i]. *)
Definition consumeLot (i : nat) (buyTrade : Buy.t) (st : Loop) : Loop :=
  let tokensFromThisBuy := JS.min (remainingTokensToSell st) (Buy.tokenAmount buyTrade) in
  let costRatio := tokensFromThisBuy / Buy.tokenAmount buyTrade in
  let costFromThisBuy := Buy.bnbAmount buyTrade * costRatio in
  let gasFromThisBuy := Buy.gasUsed buyTrade * costRatio in
  let used := Used.mk (Buy.id buyTrade) tokensFromThisBuy costFromThisBuy gasFromThisBuy in
  let buyTrade' :=
    if JS.ge tokensFromThisBuy (Buy.tokenAmount buyTrade) then
      Buy.mk (Buy.id buyTrade) (Buy.tokenAddress buyTrade) (Buy.tokenSymbol buyTrade)
             (Buy.bnbAmount buyTrade) (Buy.tokenAmount buyTrade) (Buy.bnbPrice buyTrade)
             (Buy.gasUsed buyTrade) (Buy.timestamp buyTrade) (Buy.txHash buyTrade) SOLD
    else
      let remainingTokens := Buy.tokenAmount buyTrade - tokensFromThisBuy in
      let remainingCost := Buy.bnbAmount buyTrade - costFromThisBuy in
      let remainingGas := Buy.gasUsed buyTrade - gasFromThisBuy in
      Buy.mk (Buy.id buyTrade) (Buy.tokenAddress buyTrade) (Buy.tokenSymbol buyTrade)
             remainingCost remainingTokens (Buy.bnbPrice buyTrade)
             remainingGas (Buy.timestamp buyTrade) (Buy.txHash buyTrade)
             (Buy.status buyTrade) in
  mkLoop (<[i := BUY buyTrade']> (ledger st))
         (remainingTokensToSell st - tokensFromThisBuy)
         (totalCost st + costFromThisBuy)
         (totalGasUsed st + gasFromThisBuy)
         (processedBuyTrades st ++ [used]).

(** The [for (const buyTrade of buyTrades)] loop, with its [break]. *)
Fixpoint sellLoop (idxs : list nat) (st : Loop) : Loop :=
  match idxs with
  | [] => st
  | i :: rest =>
      if JS.le (remainingTokensToSell st) 0 then st
      else
        match ledger st !! i with
        | Some (BUY buyTrade) => sellLoop rest (consumeLot i buyTrade st)
        | _ => sellLoop rest st
        end
  end.

(** The object returned by a successful [recordSellTrade]. *)
Module SellResult.
Record t := mk {
  sellTradeId : Z;
  profit : Q;
  profitPercentage : Q;
  totalCost : Q;
  revenue : Q
}.
End SellResult.

Definition isSell (t : Trade) : bool :=
  match t with SELL _ => true | BUY _ => false end.

Definition isProfitableSell (t : Trade) : bool :=
  match t with SELL s => JS.gt (Sell.profit s) 0 | BUY _ => false end.

(** The sell record built after the loop. *)
Definition sellTradeOf (env : Env) (tokenAddress tokenSymbol : string)
    (tokenAmount bnbReceived bnbPrice : Q) (txHash : string) (st : Loop) : Sell.t :=
  let revenue := bnbReceived in
  let profit := revenue - totalCost st in
  let profitPercentage := (profit / totalCost st) * 100 in
  Sell.mk (now env) (JS.toLowerCase tokenAddress) tokenSymbol tokenAmount
          revenue bnbPrice (totalGasUsed st) (date env) txHash
          (totalCost st) profit profitPercentage (processedBuyTrades st).

(** The summary after a sell record has been pushed onto [ts]. *)
Definition summaryAfterSell (sm : Summary) (profit : Q) (ts : list Trade) : Summary :=
  let tp := if JS.gt profit 0 then totalProfit sm + profit else totalProfit sm in
  let tl := if JS.gt profit 0 then totalLoss sm else totalLoss sm + JS.abs profit in
  let profitableTrades := length (List.filter isProfitableSell ts) in
  let totalSellTrades := length (List.filter isSell ts) in
  let wr :=
    if Nat.ltb 0 totalSellTrades
    then inject_Z (Z.of_nat profitableTrades) / inject_Z (Z.of_nat totalSellTrades) * 100
    else 0 in
  mkSummary (totalTrades sm + 1) tp tl wr.

Definition recordSellTrade (f : FileContent) (env : Env)
    (tokenAddress tokenSymbol : string) (tokenAmount bnbReceived bnbPrice gasUsed : Q)
    (txHash : string) : FileContent * option SellResult.t :=
  let history := getTradingHistory f in
  let lots := buyTrades (JS.toLowerCase tokenAddress) (trades history) in
  if Nat.eqb (length lots) 0 then (f, None)
  else
    let st := sellLoop lots (mkLoop (trades history) tokenAmount 0 gasUsed []) in
    let sellTrade :=
      sellTradeOf env tokenAddress tokenSymbol tokenAmount bnbReceived bnbPrice txHash st in
    let ts := ledger st ++ [SELL sellTrade] in
    let history' :=
      mkHistory ts (summaryAfterSell (summary history) (Sell.profit sellTrade) ts) in
    if writable env then
      (stored history',
       Some (SellResult.mk (Sell.id sellTrade) (Sell.profit sellTrade)
               (Sell.profitPercentage sellTrade) (Sell.totalCost sellTrade)
               (Sell.bnbReceived sellTrade)))
    else (f, None).

(** ** getTokenPositionInfo *)

(** The object returned by [getTokenPositionInfo]. *)
Module Position.
Record t := mk {
  totalTokens : Q;
  totalCost : Q;
  avgPrice : Q;
  trades : nat
}.
End Position.

Definition lotTokens (t : Trade) : Q :=
  match t with BUY b => Buy.tokenAmount b | SELL _ => 0 end.

Definition lotCost (t : Trade) : Q :=
  match t with BUY b => Buy.bnbAmount b | SELL _ => 0 end.

Definition sumQ {A} (f : A -> Q) (l : list A) : Q :=
  fold_left (fun acc x => acc + f x) l 0.

Definition getTokenPositionInfo (f : FileContent) (tokenAddress : string) : option Position.t :=
  let history := getTradingHistory f in
  let lots := List.filter (isHoldingBuy (JS.toLowerCase tokenAddress)) (trades history) in
  if Nat.eqb (length lots) 0 then None
  else
    let totalTokens := sumQ lotTokens lots in
    let totalCost := sumQ lotCost lots in
    Some (Position.mk totalTokens totalCost (totalCost / totalTokens) (length lots)).

(** ** Sequences of ledger operations *)

Inductive Op :=
| OpBuy (env : Env) (tokenAddress tokenSymbol : string)
        (bnbAmount tokenAmount bnbPrice gasUsed : Q) (txHash : string)
| OpSell (env : Env) (tokenAddress tokenSymbol : string)
         (tokenAmount bnbReceived bnbPrice gasUsed : Q) (txHash : string).

Definition step (f : FileContent) (o : Op) : FileContent :=
  match o with
  | OpBuy env a s bnb tok price gas tx => fst (recordBuyTrade f env a s bnb tok price gas tx)
  | OpSell env a s tok bnb price gas tx => fst (recordSellTrade f env a s tok bnb price gas tx)
  end.

Definition run (ops : list Op) (f : FileContent) : FileContent :=
  fold_left step ops f.

(** The file written by [ensureTradingHistoryFile]. *)
Definition initialFile : FileContent := stored emptyHistory.

(** ** getBestRoute *)

Inductive Version := v2 | v3.

(** The object a successful [getV2Quote] or [getV3Quote] returns;
    [expectedAmount] is the number its decimal string denotes. *)
Record Quote := mkQuote {
  version : Version;
  fee : option Z;
  expectedAmount : Q;
  amountIn : Z;
  amountOut : Z
}.

(** What a quote call returns: [{success: true, ...}] or
    [{success: false, error}]. *)
Inductive QuoteReply :=
| QuoteOk (q : Quote)
| QuoteFailed (error : string).

(** One entry of the result of [Promise.allSettled]. *)
Inductive Settled :=
| Fulfilled (value : QuoteReply)
| RejectedWith (reason : string).

(** An entry of the array [quotes]. *)
Record Candidate := mkCandidate {
  c_version : Version;
  c_expectedAmount : Q;
  quote : Quote
}.

Record Comparison := mkComparison {
  totalQuotes : nat;
  bestPrice : Q;
  improvement : Q
}.

Inductive RouteResult :=
| RouteFound (bestRoute : Quote) (allQuotes : list Candidate) (comparison : Comparison)
| RouteError (error : string).

(** The [if (... .status === 'fulfilled' && ... .value.success)] push. *)
Definition pushIfOk (ver : Version) (s : Settled) : list Candidate :=
  match s with
  | Fulfilled (QuoteOk q) => [mkCandidate ver (expectedAmount q) q]
  | _ => []
  end.

(** [quotes.reduce((best, current) => ...)] on a list whose head is [first]. *)
Definition pickBest (first : Candidate) (others : list Candidate) : Candidate :=
  fold_left
    (fun best current =>
       if JS.gt (c_expectedAmount current) (c_expectedAmount best) then current else best)
    others first.

(** [Math.min(...quotes.map(q => q.expectedAmount))] on a non-empty list. *)
Definition minAmount (first : Candidate) (others : list Candidate) : Q :=
  fold_left (fun m c => JS.min m (c_expectedAmount c)) others (c_expectedAmount first).

(** [getBestRoute].  The two quote functions are the calls to the routers;
    [Promise.allSettled] gives each of the four calls its own outcome.
    [improvement] is the percentage before it is formatted with [toFixed(2)]. *)
Section BestRoute.

Variable getV2Quote : string -> Q -> bool -> Settled.
Variable getV3Quote : string -> Q -> bool -> Z -> Settled.

Definition getBestRoute (tokenAddress : string) (bnbAmount : Q) (isBuy : bool)
    : RouteResult :=
  let v2Quote := getV2Quote tokenAddress bnbAmount isBuy in
  let v3Quote2500 := getV3Quote tokenAddress bnbAmount isBuy 2500 in
  let v3Quote500 := getV3Quote tokenAddress bnbAmount isBuy 500 in
  let v3Quote10000 := getV3Quote tokenAddress bnbAmount isBuy 10000 in
  let quotes :=
    pushIfOk v2 v2Quote ++
    flat_map (pushIfOk v3) [v3Quote2500; v3Quote500; v3Quote10000] in
  match quotes with
  | [] => RouteError "无法获取任何有效报价"
  | first :: others =>
      let bestRoute := pickBest first others in
      let lowest := minAmount first others in
      RouteFound (quote bestRoute) quotes
        (mkComparison (length quotes) (c_expectedAmount bestRoute)
           (if Nat.ltb 1 (length quotes)
            then (c_expectedAmount bestRoute - lowest) / lowest * 100
            else 0))
  end.

End BestRoute.

(** The quotes of the tie-break example: V2 gives 100, V3 gives 95 at fee
    500 and 110 at fee 2500, and the quote at fee 10000 fails. *)
Definition exampleV2 (_ : string) (amount : Q) (_ : bool) : Settled :=
  Fulfilled (QuoteOk (mkQuote v2 None 100 1000 100000)).

Definition exampleV3 (_ : string) (amount : Q) (_ : bool) (fee : Z) : Settled :=
  if Z.eqb fee 500 then Fulfilled (QuoteOk (mkQuote v3 (Some 500%Z) 95 1000 95000))
  else if Z.eqb fee 2500 then Fulfilled (QuoteOk (mkQuote v3 (Some 2500%Z) 110 1000 110000))
  else Fulfilled (QuoteFailed "execution reverted").

(** ** Slippage setting and the minimum-output bound of the buy flow *)

Record Settings := mkSettings {
  slippage : Q
}.

(** [handleSlippageSet] of the bot, on a parsed number: values outside
    0.1 .. 50 are refused and leave the settings as they are. *)
Definition handleSlippageSet (value : Q) (settings : Settings) : Settings :=
  if (JS.lt value (1 # 10) || JS.gt value 50)%bool then settings
  else mkSettings value.

(** [amounts[1] * BigInt(100 - this.settings.slippage) / BigInt(100)] in
    [smartBuy], and the same expression on [quoted] in [smartBuyV3]: BigInt
    division truncates; [None] is the [RangeError] of [BigInt], which the
    [catch] of the buy turns into a failed result before any swap is sent. *)
Definition amountOutMin (expected : Z) (settings : Settings) : option Z :=
  match JS.BigInt (100 - slippage settings) with
  | Some keep => Some (Z.quot (expected * keep) 100)
  | None => None
  end.

(** * Quantities the statements speak about *)

(** ** The loop as a function of the lots *)

(** The lots found at a list of positions. *)
Definition lotsAt (ts : list Trade) (idxs : list nat) : list Buy.t :=
  flat_map (fun i => match ts !! i with Some (BUY b) => [b] | _ => [] end) idxs.

(** The entry of [buyTradesUsed] for [tokens] tokens taken from a lot. *)
Definition usedOf (b : Buy.t) (tokens : Q) : Used.t :=
  Used.mk (Buy.id b) tokens
    (Buy.bnbAmount b * (tokens / Buy.tokenAmount b))
    (Buy.gasUsed b * (tokens / Buy.tokenAmount b)).

(** What the loop takes from a list of lots, as a function of their values. *)
Fixpoint fifo (lots : list Buy.t) (remaining : Q) : list Used.t :=
  match lots with
  | [] => []
  | b :: rest =>
      if JS.le remaining 0 then []
      else
        let tokens := JS.min remaining (Buy.tokenAmount b) in
        usedOf b tokens :: fifo rest (remaining - tokens)
  end.

(** The two ways an iteration leaves a lot: marked SOLD with its amounts as
    they were, or still HOLDING and reduced by what was taken. *)
Definition soldLot (b : Buy.t) : Buy.t :=
  Buy.mk (Buy.id b) (Buy.tokenAddress b) (Buy.tokenSymbol b)
         (Buy.bnbAmount b) (Buy.tokenAmount b) (Buy.bnbPrice b)
         (Buy.gasUsed b) (Buy.timestamp b) (Buy.txHash b) SOLD.

Definition reducedLot (b : Buy.t) (tokens : Q) : Buy.t :=
  Buy.mk (Buy.id b) (Buy.tokenAddress b) (Buy.tokenSymbol b)
         (Buy.bnbAmount b - Buy.bnbAmount b * (tokens / Buy.tokenAmount b))
         (Buy.tokenAmount b - tokens) (Buy.bnbPrice b)
         (Buy.gasUsed b - Buy.gasUsed b * (tokens / Buy.tokenAmount b))
         (Buy.timestamp b) (Buy.txHash b) (Buy.status b).

(** ** The parts of a recorded sell *)

(** The loop of a sell, run on the history read from the file. *)
Definition sellRun (f : FileContent) (tokenAddress : string) (tokenAmount gasUsed : Q) : Loop :=
  let history := getTradingHistory f in
  sellLoop (buyTrades (JS.toLowerCase tokenAddress) (trades history))
           (mkLoop (trades history) tokenAmount 0 gasUsed []).

(** The lots a sell of the token works through, oldest first. *)
Definition fifoLots (f : FileContent) (tokenAddress : string) : list Buy.t :=
  let ts := trades (getTradingHistory f) in
  lotsAt ts (buyTrades (JS.toLowerCase tokenAddress) ts).

(** The sell record and the history a successful sell writes. *)
Definition sellRecord (f : FileContent) (env : Env) (tokenAddress tokenSymbol : string)
    (tokenAmount bnbReceived bnbPrice gasUsed : Q) (txHash : string) : Sell.t :=
  sellTradeOf env tokenAddress tokenSymbol tokenAmount bnbReceived bnbPrice txHash
              (sellRun f tokenAddress tokenAmount gasUsed).

Definition historyAfterSell (f : FileContent) (env : Env) (tokenAddress tokenSymbol : string)
    (tokenAmount bnbReceived bnbPrice gasUsed : Q) (txHash : string) : History :=
  let s := sellRecord f env tokenAddress tokenSymbol tokenAmount bnbReceived bnbPrice gasUsed txHash in
  let ts := ledger (sellRun f tokenAddress tokenAmount gasUsed) ++ [SELL s] in
  mkHistory ts (summaryAfterSell (summary (getTradingHistory f)) (Sell.profit s) ts).

(** The result record of a sell that is known to have been recorded. *)
Definition resultOf (out : FileContent * option SellResult.t) : SellResult.t :=
  match snd out with
  | Some r => r
  | None => SellResult.mk 0 0 0 0 0
  end.

(** ** The summary against the SELL records *)

(** Positive profit, and size of a loss, of one record. *)
Definition gainOf (t : Trade) : Q :=
  match t with
  | SELL s => if JS.gt (Sell.profit s) 0 then Sell.profit s else 0
  | BUY _ => 0
  end.

Definition lossOf (t : Trade) : Q :=
  match t with
  | SELL s => if JS.lt (Sell.profit s) 0 then Qabs (Sell.profit s) else 0
  | BUY _ => 0
  end.

Definition sellCount (ts : list Trade) : nat := length (List.filter isSell ts).
Definition winCount (ts : list Trade) : nat := length (List.filter isProfitableSell ts).

Definition winRateOf (ts : list Trade) : Q :=
  if Nat.eqb (sellCount ts) 0 then 0
  else 100 * inject_Z (Z.of_nat (winCount ts)) / inject_Z (Z.of_nat (sellCount ts)).

Definition summaryConsistent (h : History) : Prop :=
  totalProfit (summary h) == sumQ gainOf (trades h)
  /\ totalLoss (summary h) == sumQ lossOf (trades h)
  /\ winRate (summary h) == winRateOf (trades h).

(** ** Cost and tokens of a position *)

(** Cost taken from lots by one SELL record, whatever its token, and by the
    SELL records of one token. *)
Definition usedCost (t : Trade) : Q :=
  match t with
  | SELL s => sumQ Used.costUsed (Sell.buyTradesUsed s)
  | BUY _ => 0
  end.

Definition usedCostOf (addr : string) (t : Trade) : Q :=
  match t with
  | SELL s => if String.eqb (Sell.tokenAddress s) addr
              then sumQ Used.costUsed (Sell.buyTradesUsed s) else 0
  | BUY _ => 0
  end.

(** Cost and tokens still held for a token. *)
Definition heldCostOf (addr : string) (t : Trade) : Q :=
  if isHoldingBuy addr t then lotCost t else 0.

Definition heldTokensOf (addr : string) (t : Trade) : Q :=
  if isHoldingBuy addr t then lotTokens t else 0.

Definition heldTokens (addr : string) (f : FileContent) : Q :=
  sumQ (heldTokensOf addr) (trades (getTradingHistory f)).

(** Cost still held plus cost taken by sells, for a token. *)
Definition costBalance (addr : string) (ts : list Trade) : Q :=
  sumQ (heldCostOf addr) ts + sumQ (usedCostOf addr) ts.

(** Every HOLDING lot has a positive tokenAmount: every cost ratio of a sell
    is then a quotient by a positive number. *)
Definition holdingPositive (ts : list Trade) : Prop :=
  forall b, In (BUY b) ts -> Buy.status b = HOLDING -> 0 < Buy.tokenAmount b.

(** Every SELL record is of the given token. *)
Definition sellsOf (addr : string) (ts : list Trade) : Prop :=
  forall s, In (SELL s) ts -> Sell.tokenAddress s = addr.

(** ** Kinds of operations *)

Definition opBnb (o : Op) : Q :=
  match o with
  | OpBuy _ _ _ bnb _ _ _ _ => bnb
  | OpSell _ _ _ _ _ _ _ _ => 0
  end.

(** What an operation adds to the cost recorded for a token: the bnbAmount
    of a buy of that token whose write succeeds. *)
Definition buyCostOn (addr : string) (o : Op) : Q :=
  match o with
  | OpBuy env a _ bnb _ _ _ _ =>
      if (writable env && String.eqb (JS.toLowerCase a) addr)%bool then bnb else 0
  | OpSell _ _ _ _ _ _ _ _ => 0
  end.

(** Buys record a positive number of tokens. *)
Definition positiveBuy (o : Op) : Prop :=
  match o with
  | OpBuy _ _ _ _ tok _ _ _ => 0 < tok
  | OpSell _ _ _ _ _ _ _ _ => True
  end.

(** A recorded buy of a given token. *)
Definition isBuyOf (addr : string) (o : Op) : Prop :=
  match o with
  | OpBuy env a _ _ tok _ _ _ =>
      JS.toLowerCase a = JS.toLowerCase addr /\ writable env = true /\ 0 < tok
  | OpSell _ _ _ _ _ _ _ _ => False
  end.

(** A sell of a given token. *)
Definition isSellOf (addr : string) (o : Op) : Prop :=
  match o with
  | OpBuy _ _ _ _ _ _ _ _ => False
  | OpSell _ a _ _ _ _ _ _ => JS.toLowerCase a = JS.toLowerCase addr
  end.

(** The sells of a sequence, if any, are of the given token. *)
Definition sellsOn (addr : string) (o : Op) : Prop :=
  match o with
  | OpBuy _ _ _ _ _ _ _ _ => True
  | OpSell _ a _ _ _ _ _ _ => JS.toLowerCase a = addr
  end.

(** ** Scenarios *)

(** The profit check of the README: two buys of one token, then a sell of 50
    tokens for 0.14, and a sell of the remaining 116.67 tokens. *)
Definition cake : string := "0x0E09FaBB73Bd3Ade0a17ECC321fD13a19e81cE82".

Definition readmeBuys : list Op :=
  [OpBuy (mkEnv 1000 1000 true) cake "CAKE" (1 # 10) 100 (5 # 2) 21000 "0xbuy1";
   OpBuy (mkEnv 2000 2000 true) cake "CAKE" (2 # 10) (6667 # 100) 3 21000 "0xbuy2"].

Definition readmeSells : list Op :=
  [OpSell (mkEnv 3000 3000 true) cake "CAKE" 50 (14 # 100) (7 # 2) 25000 "0xsell1";
   OpSell (mkEnv 4000 4000 true) cake "CAKE" (11667 # 100) (22 # 100) (11 # 5) 25000 "0xsell2"].

Definition afterBuyA : FileContent :=
  fst (recordBuyTrade initialFile (mkEnv 1000 1000 true)
         cake "CAKE" (1 # 10) 100 (5 # 2) 21000 "0xbuy1").

Definition afterBuyB : FileContent :=
  fst (recordBuyTrade afterBuyA (mkEnv 2000 2000 true)
         cake "CAKE" (2 # 10) (6667 # 100) 3 21000 "0xbuy2").

Definition sellOf50 : FileContent * option SellResult.t :=
  recordSellTrade afterBuyB (mkEnv 3000 3000 true)
    cake "CAKE" 50 (14 # 100) (7 # 2) 25000 "0xsell1".

(** One buy of 100 tokens for 0.1, then a sell of all 100 tokens. *)
Definition sellOfAll : FileContent * option SellResult.t :=
  recordSellTrade afterBuyA (mkEnv 2000 2000 true)
    cake "CAKE" 100 (15 # 100) 3 25000 "0xsell1".


(** * Further parts of the program *)

(** ** getTradingStats and the records of the ledger *)

(** The object returned by [getTradingStats]. *)
Module Stats.
Record t := mk {
  totalTrades : Z;
  buyTrades : nat;
  sellTrades : nat;
  totalProfit : Q;
  totalLoss : Q;
  netProfit : Q;
  winRate : Q;
  holdingTokens : nat
}.
End Stats.

(** [t.type === 'BUY'] and, on a BUY record, [t.status === 'HOLDING']. *)
Definition isBuy (t : Trade) : bool :=
  match t with BUY _ => true | SELL _ => false end.

Definition isHolding (t : Trade) : bool :=
  match t with
  | BUY b => Status_eqb (Buy.status b) HOLDING
  | SELL _ => false
  end.

(** [getTradingStats].  On the file contents modelled here no statement of
    its [try] block raises, so the [null] of its [catch] is never returned. *)
Definition getTradingStats (f : FileContent) : Stats.t :=
  let history := getTradingHistory f in
  let summary := summary history in
  let buyTrades := List.filter isBuy (trades history) in
  let sellTrades := List.filter isSell (trades history) in
  Stats.mk (totalTrades summary)
           (length buyTrades)
           (length sellTrades)
           (totalProfit summary)
           (totalLoss summary)
           (totalProfit summary - totalLoss summary)
           (winRate summary)
           (length (List.filter isHolding buyTrades)).

(** The profit of a record: that of a SELL record, nothing for a BUY. *)
Definition profitOf (t : Trade) : Q :=
  match t with SELL s => Sell.profit s | BUY _ => 0 end.

(** The token an operation is about. *)
Definition opAddress (o : Op) : string :=
  match o with
  | OpBuy _ a _ _ _ _ _ _ => a
  | OpSell _ a _ _ _ _ _ _ => a
  end.

(** Two records that are the same entry of the ledger: a SELL record as it
    was; a BUY record with its id, token, price, timestamp and transaction
    hash, whatever its amounts and status have become. *)
Definition sameEntry (t t' : Trade) : Prop :=
  match t, t' with
  | BUY b, BUY b' =>
      Buy.id b' = Buy.id b
      /\ Buy.tokenAddress b' = Buy.tokenAddress b
      /\ Buy.tokenSymbol b' = Buy.tokenSymbol b
      /\ Buy.bnbPrice b' = Buy.bnbPrice b
      /\ Buy.timestamp b' = Buy.timestamp b
      /\ Buy.txHash b' = Buy.txHash b
  | SELL s, SELL s' => s' = s
  | _, _ => False
  end.

(** Cost still held for a token, as [heldTokens] for its tokens. *)
Definition heldCost (addr : string) (f : FileContent) : Q :=
  sumQ (heldCostOf addr) (trades (getTradingHistory f)).


(** ** The list of traded tokens: [traded-tokens.json] *)

(** What reading [traded-tokens.json] can give: as for the history file, with
    a [tokens] member that may be missing. *)
Inductive TokensFile :=
| TokensUnreadable
| TokensMalformed
| TokensJsonNull
| TokensDocument (tokens : option (list string)).

(** [Array.prototype.includes], [indexOf] ([None] is [-1]) and
    [splice(index, 1)] on an array of strings. *)
Fixpoint includes (x : string) (l : list string) : bool :=
  match l with
  | [] => false
  | y :: r => if String.eqb y x then true else includes x r
  end.

Fixpoint indexOf (x : string) (l : list string) : option nat :=
  match l with
  | [] => None
  | y :: r =>
      if String.eqb y x then Some 0%nat
      else match indexOf x r with
           | Some i => Some (S i)
           | None => None
           end
  end.

Fixpoint splice (index : nat) (l : list string) : list string :=
  match l, index with
  | [], _ => []
  | _ :: r, O => r
  | y :: r, S i => y :: splice i r
  end.

(** [getTradedTokens]: [JSON.parse(data).tokens || []], and [[]] from the
    [catch]. *)
Definition getTradedTokens (f : TokensFile) : list string :=
  match f with
  | TokensDocument (Some tokens) => tokens
  | TokensDocument None => []
  | TokensUnreadable | TokensMalformed | TokensJsonNull => []
  end.

(** [addTradedToken] and [removeTradedToken]; [writable] is whether
    [fs.writeFileSync] succeeds, its exception being caught. *)
Definition addTradedToken (f : TokensFile) (writable : bool) (tokenAddress : string)
    : TokensFile :=
  let tokens := getTradedTokens f in
  let normalizedAddress := JS.toLowerCase tokenAddress in
  if negb (includes normalizedAddress tokens) then
    if writable then TokensDocument (Some (tokens ++ [normalizedAddress])) else f
  else f.

Definition removeTradedToken (f : TokensFile) (writable : bool) (tokenAddress : string)
    : TokensFile :=
  let tokens := getTradedTokens f in
  let normalizedAddress := JS.toLowerCase tokenAddress in
  match indexOf normalizedAddress tokens with
  | Some index =>
      if writable then TokensDocument (Some (splice index tokens)) else f
  | None => f
  end.

(** The file written by [ensureTradedTokensFile], and sequences of calls. *)
Definition initialTokens : TokensFile := TokensDocument (Some []).

Inductive TokenOp :=
| OpAdd (writable : bool) (tokenAddress : string)
| OpRemove (writable : bool) (tokenAddress : string).

Definition tokenStep (f : TokensFile) (o : TokenOp) : TokensFile :=
  match o with
  | OpAdd w a => addTradedToken f w a
  | OpRemove w a => removeTradedToken f w a
  end.

Definition tokenRun (ops : list TokenOp) (f : TokensFile) : TokensFile :=
  fold_left tokenStep ops f.


(** ** getDynamicGasPrice *)

(** [Math.max] on finite numbers. *)
Definition Math_max (a b : Q) : Q := if Qle_bool a b then b else a.

(** [x || d] on a number that may be NaN ([None]): [d] replaces NaN and 0. *)
Definition orElse (x : option Q) (d : Q) : Q :=
  match x with
  | Some q => if Qeq_bool q 0 then d else q
  | None => d
  end.

(** [Number(s) / 1e9] on a configured value; [None] is a value that is not
    a number. *)
Definition weiToGwei (s : option Q) : option Q :=
  match s with
  | Some wei => Some (wei / 1000000000)
  | None => None
  end.

Record GasConfig := mkGasConfig {
  MAX_GAS_PRICE : option Q;
  DEFAULT_GAS_PRICE : option Q
}.

(** What [provider.getFeeData()] gives: an exception, or fee data whose
    [gasPrice] is a bigint or [null]. *)
Inductive FeeReply :=
| FeeThrows
| FeeData (gasPrice : option Z).

(** What the gas station gives: an exception (of [fetch] or of
    [response.json()]), or data whose [standard] is a number or is missing. *)
Inductive StationReply :=
| StationThrows
| StationData (standard : option Q).

Definition getDynamicGasPrice (config : GasConfig) (fee : FeeReply) (station : StationReply)
    : Q :=
  let fromNetwork :=
    match fee with
    | FeeData (Some gasPrice) =>
        if Z.eqb gasPrice 0 then None
        else
          let gasPriceGwei := inject_Z gasPrice / 1000000000 in
          let adjustedGasPrice := gasPriceGwei * (11 # 10) in
          let maxGasPrice := orElse (weiToGwei (MAX_GAS_PRICE config)) 1 in
          Some (JS.min (Math_max adjustedGasPrice (1 # 10)) maxGasPrice)
    | FeeData None | FeeThrows => None
    end in
  match fromNetwork with
  | Some finalGasPrice => finalGasPrice
  | None =>
      let fromStation :=
        match station with
        | StationData (Some standard) =>
            if Qeq_bool standard 0 then None
            else
              let gasPrice := standard in
              let maxGasPrice := orElse (weiToGwei (MAX_GAS_PRICE config)) 1 in
              Some (JS.min (Math_max gasPrice (1 # 10)) maxGasPrice)
        | StationData None | StationThrows => None
        end in
      match fromStation with
      | Some finalGasPrice => finalGasPrice
      | None => orElse (weiToGwei (DEFAULT_GAS_PRICE config)) (1 # 10)
      end
  end.

(** ** validateTradingPath *)

(** What looking for a V3 pool gives: [getV3PoolAddress] throws, [slot0]
    reverts (there is no pool), or [slot0] answers. *)
Inductive PoolProbe :=
| AddressFails
| NoPool
| PoolAnswers.

(** The errors of [validateTradingPath], in the order of the source:
    'V3流动性池不存在 (费率..%)', '代币输出为0，可能是诈骗代币',
    '代币流动性极低或可能是蜜罐代币', '代币流动性不足，滑点过大',
    '代币流动性不足，无法支持正常交易', '该代币只在V3上有流动性，请尝试V3交易',
    '该代币在PancakeSwap上没有流动性池，请检查代币地址或选择其他代币',
    '路径验证失败'. *)
Inductive PathError :=
| V3PoolMissing (fee : Z)
| ZeroOutput
| LiquidityTooLow
| SlippageTooLarge
| NoDepth
| OnlyOnV3
| NoPoolAtAll
| ValidationFailed.

Inductive PathCheck :=
| PathValid
| PathInvalid (error : PathError).

(** [ethers.parseEther('0.001')] and [ethers.parseEther('0.01')]. *)
Definition testAmount : Z := 1000000000000000.
Definition largerTestAmount : Z := 10000000000000000.

Section TradingPath.

(** [router.getAmountsOut(amount, path)[1]] for the path from WBNB to the
    token, [None] when the call reverts; and the probe of the V3 pool of a
    fee tier. *)
Variable getAmountsOut : Z -> option Z.
Variable probePool : Z -> PoolProbe.

Definition answers (fee : Z) : bool :=
  match probePool fee with
  | PoolAnswers => true
  | AddressFails | NoPool => false
  end.

Definition validateTradingPath (isV3 : bool) (fee : Z) : PathCheck :=
  if isV3 then
    match probePool fee with
    | AddressFails => PathInvalid ValidationFailed
    | PoolAnswers => PathValid
    | NoPool => PathInvalid (V3PoolMissing fee)
    end
  else
    match getAmountsOut testAmount with
    | Some outputAmount =>
        if Z.leb outputAmount 0 then PathInvalid ZeroOutput
        else
          let ratio := inject_Z outputAmount / inject_Z testAmount in
          if JS.lt ratio (1 # 10000) then PathInvalid LiquidityTooLow
          else
            match getAmountsOut largerTestAmount with
            | Some largerOutput =>
                let largerRatio := inject_Z largerOutput / inject_Z largerTestAmount in
                let slippageRatio := JS.abs (ratio - largerRatio) / ratio in
                if JS.gt slippageRatio (1 # 2) then PathInvalid SlippageTooLarge
                else PathValid
            | None => PathInvalid NoDepth
            end
    | None =>
        let hasV3Pool := existsb answers [500; 2500; 10000]%Z in
        if hasV3Pool then PathInvalid OnlyOnV3 else PathInvalid NoPoolAtAll
    end.

End TradingPath.

(** ** getBestPriceStrategy *)

(** [priceComparison]: which side is better and by what percentage (the
    number before [toFixed(2)]), or which side is the only one. *)
Inductive PriceComparison :=
| V2Better (percent : Q)
| V3Better (percent : Q)
| OnlyV2
| OnlyV3.

Inductive StrategyResult :=
| StrategyFound (v2Quote v3Quote : option Quote) (bestStrategy : Version)
                (bestPrice : Quote) (priceComparison : PriceComparison)
| StrategyError (error : string).

(** The quote kept from a settled call, [null] otherwise. *)
Definition keptQuote (s : Settled) : option Quote :=
  match s with
  | Fulfilled (QuoteOk q) => Some q
  | Fulfilled (QuoteFailed _) | RejectedWith _ => None
  end.

Section BestPrice.

Variable getV2Quote : string -> Q -> bool -> Settled.
Variable getV3Quote : string -> Q -> bool -> Z -> Settled.

Definition getBestPriceStrategy (tokenAddress : string) (bnbAmount : Q) (isBuy : bool)
    : StrategyResult :=
  let v2Quote := getV2Quote tokenAddress bnbAmount isBuy in
  let v3Quote := getV3Quote tokenAddress bnbAmount isBuy 2500 in
  let results_v2 := keptQuote v2Quote in
  let results_v3 := keptQuote v3Quote in
  match results_v2, results_v3 with
  | Some q2, Some q3 =>
      let v2Amount := expectedAmount q2 in
      let v3Amount := expectedAmount q3 in
      if isBuy then
        if JS.gt v2Amount v3Amount then
          StrategyFound results_v2 results_v3 v2 q2
            (V2Better ((v2Amount - v3Amount) / v3Amount * 100))
        else
          StrategyFound results_v2 results_v3 v3 q3
            (V3Better ((v3Amount - v2Amount) / v2Amount * 100))
      else
        if JS.gt v2Amount v3Amount then
          StrategyFound results_v2 results_v3 v2 q2
            (V2Better ((v2Amount - v3Amount) / v3Amount * 100))
        else
          StrategyFound results_v2 results_v3 v3 q3
            (V3Better ((v3Amount - v2Amount) / v2Amount * 100))
  | Some q2, None => StrategyFound results_v2 results_v3 v2 q2 OnlyV2
  | None, Some q3 => StrategyFound results_v2 results_v3 v3 q3 OnlyV3
  | None, None => StrategyError "没有可用的交易路径"
  end.

End BestPrice.


(** ** splitMessage *)

(** A string is the list of its UTF-16 code units, [list N], which is what
    [length] counts. *)

Definition newline : N := 10.

(** The code units [trim] removes: white space and line terminators. *)
Definition isWhiteSpace (c : N) : bool :=
  (existsb (N.eqb c) [9; 10; 11; 12; 13; 32; 160; 5760; 8232; 8233; 8239; 8287; 12288; 65279]
   || (N.leb 8192 c && N.leb c 8202))%N%bool.

Fixpoint trimStart (s : list N) : list N :=
  match s with
  | [] => []
  | c :: r => if isWhiteSpace c then trimStart r else s
  end.

Definition trimEnd (s : list N) : list N := rev (trimStart (rev s)).

Definition trim (s : list N) : list N := trimEnd (trimStart s).

(** [s.split('\n')]. *)
Fixpoint splitLines (s : list N) : list (list N) :=
  match s with
  | [] => [[]]
  | c :: r =>
      if N.eqb c newline then [] :: splitLines r
      else match splitLines r with
           | line :: lines => (c :: line) :: lines
           | [] => [[c]]
           end
  end.

(** The body of the [for] loop, on the pair of [chunks] and [currentChunk]. *)
Definition splitStep (maxLength : nat) (st : list (list N) * list N) (line : list N)
    : list (list N) * list N :=
  let (chunks, currentChunk) := st in
  let (chunks, currentChunk) :=
    if Nat.ltb maxLength (length (currentChunk ++ line ++ [newline])) then
      match currentChunk with
      | [] => (chunks, currentChunk)
      | _ :: _ => (chunks ++ [trim currentChunk], [])
      end
    else (chunks, currentChunk) in
  (chunks, currentChunk ++ line ++ [newline]).

Definition splitMessage (message : list N) (maxLength : nat) : list (list N) :=
  let lines := splitLines message in
  let (chunks, currentChunk) := fold_left (splitStep maxLength) lines ([], []) in
  match trim currentChunk with
  | [] => chunks
  | _ :: _ => chunks ++ [trim currentChunk]
  end.

(** The code units of a text that are not white space, in order. *)
Definition visible (s : list N) : list N :=
  List.filter (fun c => negb (isWhiteSpace c)) s.


(** ** Utilities: retry *)

(** What one call of [fn] does, and what [retry] does: it returns a value,
    throws, or falls out of its loop and returns [undefined]. *)
Inductive Attempt (A E : Type) :=
| Resolves (value : A)
| Rejects (error : E).

Arguments Resolves {A E} value.
Arguments Rejects {A E} error.

Inductive RetryResult (A E : Type) :=
| Returned (value : A)
| Thrown (error : E)
| ReturnedUndefined.

Arguments Returned {A E} value.
Arguments Thrown {A E} error.
Arguments ReturnedUndefined {A E}.

(** The outcome of [retry] with what it did on the way: the number of calls
    of [fn] and the milliseconds slept in total. *)
Record RetryRun (A E : Type) := mkRetryRun {
  outcome : RetryResult A E;
  calls : nat;
  slept : Z
}.

Arguments mkRetryRun {A E} outcome calls slept.
Arguments outcome {A E} r.
Arguments calls {A E} r.
Arguments slept {A E} r.

Section Retry.

Context {A E : Type}.

(** [fn], as the outcome of its call number [i] (from 0); [maxRetries] is a
    whole number and [delay] a whole number of milliseconds. *)
Variable fn : nat -> Attempt A E.
Variable maxRetries : nat.
Variable delay : Z.

(** The [for] loop from [i], with [remaining = maxRetries - i] iterations
    left and [waited] milliseconds slept so far. *)
Fixpoint retryLoop (remaining i : nat) (waited : Z) : RetryRun A E :=
  match remaining with
  | O => mkRetryRun ReturnedUndefined i waited
  | S remaining' =>
      match fn i with
      | Resolves value => mkRetryRun (Returned value) (S i) waited
      | Rejects error =>
          if Nat.eqb i (maxRetries - 1) then mkRetryRun (Thrown error) (S i) waited
          else retryLoop remaining' (S i) (waited + delay * 2 ^ Z.of_nat i)%Z
      end
  end.

Definition retry : RetryRun A E := retryLoop maxRetries 0 0.

End Retry.

(** ** Utilities: the daily trade log *)

Section TradeLog.

(** The JSON values of the fields of a record. *)
Variable Value : Type.

(** A JSON object: its members in order, each key once. *)
Definition Obj := list (string * Value).

(** Setting a member: in place when the key is there, at the end when not. *)
Fixpoint setMember (key : string) (v : Value) (o : Obj) : Obj :=
  match o with
  | [] => [(key, v)]
  | (k, w) :: r => if String.eqb k key then (k, v) :: r else (k, w) :: setMember key v r
  end.

Fixpoint getMember (key : string) (o : Obj) : option Value :=
  match o with
  | [] => None
  | (k, w) :: r => if String.eqb k key then Some w else getMember key r
  end.

(** [{...base, ...extra}]: the members of [extra] set one after the other. *)
Definition spread (base extra : Obj) : Obj :=
  fold_left (fun o member => setMember (fst member) (snd member) o) extra base.

(** What a file of [./logs/trades] holds: text that cannot be read or is
    not JSON, a JSON value that is not an array, or an array of records. *)
Inductive LogFile :=
| LogCorrupt
| LogOther
| LogArray (records : list Obj).

(** The files of [./logs/trades], by the date in their name; [None] where
    there is no file. *)
Definition Logs := string -> option LogFile.

Definition writeLog (logs : Logs) (date : string) (content : LogFile) : Logs :=
  fun d => if String.eqb d date then Some content else logs d.

(** What the surroundings supply to one call: the date and the time of the
    clock (as [toISOString] gives them), whether [ensureDir] succeeds and
    whether [fs.writeFileSync] does. *)
Record LogEnv := mkLogEnv {
  today : string;
  nowISO : Value;
  dirOk : bool;
  logWritable : bool
}.

(** [saveTradeRecord]: the files afterwards and the boolean returned. *)
Definition saveTradeRecord (logs : Logs) (env : LogEnv) (trade : Obj) : Logs * bool :=
  if negb (dirOk env) then (logs, false)
  else
    let date := today env in
    let parsed :=
      match logs date with
      | None => Some []
      | Some (LogArray records) => Some records
      | Some LogCorrupt | Some LogOther => None
      end in
    match parsed with
    | None => (logs, false)
    | Some records =>
        let records' := records ++ [spread [("timestamp"%string, nowISO env)] trade] in
        if logWritable env then (writeLog logs date (LogArray records'), true)
        else (logs, false)
    end.

(** What [loadTradeRecords] returns: the parsed file, which need not be an
    array, or [[]]. *)
Inductive Loaded :=
| LoadedOther
| LoadedArray (records : list Obj).

(** [loadTradeRecords(date)]; [None] is a call without a date. *)
Definition loadTradeRecords (logs : Logs) (env : LogEnv) (date : option string) : Loaded :=
  let targetDate :=
    match date with
    | Some d => if String.eqb d "" then today env else d
    | None => today env
    end in
  match logs targetDate with
  | None => LoadedArray []
  | Some LogCorrupt => LoadedArray []
  | Some LogOther => LoadedOther
  | Some (LogArray records) => LoadedArray records
  end.

End TradeLog.


(** ** getTokenHoldings *)

(** An entry of the list of holdings; [balance], [priceUSD] and [valueUSD]
    are the numbers before they are formatted with [toFixed]. *)
Module Holding.
Record t := mk {
  symbol : string;
  balance : Q;
  priceUSD : Q;
  valueUSD : Q;
  isNative : bool;
  address : option string
}.
End Holding.

Inductive HoldingsResult :=
| HoldingsFound (tokens : list Holding.t) (totalValueUSD : Q)
                (scannedTokens foundTokens : nat)
| HoldingsError.

Section Holdings.

(** The calls to the chain and to the price source; [None] is a call that
    throws.  [getTokenPrice] gives the price in USD of a successful reply,
    and [Some None] for a reply with [success: false]. *)
Variable bnbBalance : option Q.
Variable getBNBPrice : option Q.
Variable getTokenBalance : string -> option Q.
Variable tokenSymbol : string -> option string.
Variable getTokenPrice : string -> option (option Q).

(** The body of the loop over the traded tokens, on [holdings],
    [totalValueUSD] and [foundTokens]. *)
Definition holdingsStep (st : list Holding.t * Q * nat) (tokenAddress : string)
    : list Holding.t * Q * nat :=
  let '(holdings, totalValueUSD, foundTokens) := st in
  match getTokenBalance tokenAddress with
  | Some balanceNum =>
      if JS.gt balanceNum 0 then
        match tokenSymbol tokenAddress with
        | Some symbol =>
            match getTokenPrice tokenAddress with
            | Some (Some price) =>
                let priceUSD := price in
                let valueUSD := balanceNum * priceUSD in
                (holdings ++ [Holding.mk symbol balanceNum priceUSD valueUSD false
                                         (Some tokenAddress)],
                 totalValueUSD + valueUSD, S foundTokens)
            | Some None =>
                (holdings ++ [Holding.mk symbol balanceNum 0 0 false (Some tokenAddress)],
                 totalValueUSD, S foundTokens)
            | None => st
            end
        | None => st
        end
      else st
  | None => st
  end.

Definition getTokenHoldings (f : TokensFile) : HoldingsResult :=
  let tradedTokens := getTradedTokens f in
  match bnbBalance, getBNBPrice with
  | Some bnbAmount, Some bnbPriceUSD =>
      let bnbValueUSD := bnbAmount * bnbPriceUSD in
      let start := ([Holding.mk "BNB" bnbAmount bnbPriceUSD bnbValueUSD true None],
                    0 + bnbValueUSD, 1%nat) in
      let '(holdings, totalValueUSD, foundTokens) :=
        fold_left holdingsStep tradedTokens start in
      HoldingsFound holdings totalValueUSD (length tradedTokens) foundTokens
  | _, _ => HoldingsError
  end.

End Holdings.


(** What the loop of [getTokenHoldings] keeps true of [holdings],
    [totalValueUSD] and [foundTokens], for the tokens [seen] so far. *)
Definition holdingsKept (getTokenBalance : string -> option Q) (seen : list string)
    (st : list Holding.t * Q * nat) : Prop :=
  let '(holdings, totalValueUSD, foundTokens) := st in
  foundTokens = length holdings
  /\ (length holdings <= S (length seen))%nat
  /\ totalValueUSD == sumQ Holding.valueUSD holdings
  /\ (exists bnb rest,
        holdings = bnb :: rest
        /\ Holding.isNative bnb = true
        /\ forall h, In h rest ->
                     Holding.isNative h = false
                     /\ 0 < Holding.balance h
                     /\ exists tokenAddress,
                          Holding.address h = Some tokenAddress
                          /\ In tokenAddress seen
                          /\ getTokenBalance tokenAddress = Some (Holding.balance h)).


(** ** Cash flow of the ledger *)

(** What a record has brought in, what a record is still carried at (the
    bnbAmount of a HOLDING lot, of any token), and what an operation has paid
    out (the bnbAmount of a buy whose write succeeds). *)
Definition receivedOf (t : Trade) : Q :=
  match t with SELL s => Sell.bnbReceived s | BUY _ => 0 end.

Definition bookValue (t : Trade) : Q :=
  if isHolding t then lotCost t else 0.

Definition spentOn (o : Op) : Q :=
  match o with
  | OpBuy env _ _ bnb _ _ _ _ => if writable env then bnb else 0
  | OpSell _ _ _ _ _ _ _ _ => 0
  end.


(** ** What a sell has done to a lot *)


(** Two buys of a token and two sells that take the lots whole, one each. *)
Definition wholeBuys : list Op :=
  [OpBuy (mkEnv 1000 1000 true) cake "CAKE" (1 # 10) 100 (5 # 2) 21000 "0xbuy1";
   OpBuy (mkEnv 2000 2000 true) cake "CAKE" (2 # 10) 50 3 21000 "0xbuy2"].

Definition wholeSells : list Op :=
  [OpSell (mkEnv 3000 3000 true) cake "CAKE" 100 (14 # 100) (7 # 2) 25000 "0xsell1";
   OpSell (mkEnv 4000 4000 true) cake "CAKE" 50 (22 # 100) (11 # 5) 25000 "0xsell2"].



(** * The ledger in binary64 *)

(** The functions of the ledger once more, with every amount the double it is
    in the program.  The rational embedding above gives what they compute up
    to rounding; this one is run on concrete inputs, to see what they compute
    where rounding, or a quotient 0 / 0, decides.  The history is passed as
    the object [getTradingHistory] returns and [JSON.stringify] is handed:
    the file is taken to be readable and writable. *)
Module B64.

Local Open Scope float_scope.

(** [Math.min(a, b)]: NaN when an argument is (the sign of a zero aside). *)
Definition min (a b : float) : float :=
  if (is_nan a || is_nan b)%bool then nan
  else if a <=? b then a else b.

(** The number an array length is. *)
Fixpoint ofNat (n : nat) : float :=
  match n with
  | O => 0
  | S k => ofNat k + 1
  end.

(** A number written by [JSON.stringify] and read back: NaN and the
    infinities are written as [null], which every later computation of the
    ledger reads as 0, and -0 is written as 0. *)
Definition json (x : float) : float :=
  if (is_nan x || is_infinity x)%bool then 0
  else if x =? 0 then 0
  else x.

Record Buy := mkBuy {
  b_id : Z;
  b_tokenAddress : string;
  b_tokenSymbol : string;
  b_bnbAmount : float;
  b_tokenAmount : float;
  b_bnbPrice : float;
  b_gasUsed : float;
  b_timestamp : Z;
  b_txHash : string;
  b_status : Status
}.

Record Used := mkUsed {
  u_id : Z;
  u_tokensUsed : float;
  u_costUsed : float;
  u_gasUsed : float
}.

Record Sell := mkSell {
  s_id : Z;
  s_tokenAddress : string;
  s_tokenSymbol : string;
  s_tokenAmount : float;
  s_bnbReceived : float;
  s_bnbPrice : float;
  s_gasUsed : float;
  s_timestamp : Z;
  s_txHash : string;
  s_totalCost : float;
  s_profit : float;
  s_profitPercentage : float;
  s_buyTradesUsed : list Used
}.

Inductive Trade :=
| BUY (b : Buy)
| SELL (s : Sell).

Record Summary := mkSummary {
  totalTrades : Z;
  totalProfit : float;
  totalLoss : float;
  winRate : float
}.

Record History := mkHistory {
  trades : list Trade;
  summary : Summary
}.

Definition emptyHistory : History := mkHistory [] (mkSummary 0 0 0 0).

(** [JSON.parse(JSON.stringify(history))]. *)
Definition rereadUsed (u : Used) : Used :=
  mkUsed (u_id u) (json (u_tokensUsed u)) (json (u_costUsed u)) (json (u_gasUsed u)).

Definition rereadTrade (t : Trade) : Trade :=
  match t with
  | BUY b =>
      BUY (mkBuy (b_id b) (b_tokenAddress b) (b_tokenSymbol b) (json (b_bnbAmount b))
                 (json (b_tokenAmount b)) (json (b_bnbPrice b)) (json (b_gasUsed b))
                 (b_timestamp b) (b_txHash b) (b_status b))
  | SELL s =>
      SELL (mkSell (s_id s) (s_tokenAddress s) (s_tokenSymbol s) (json (s_tokenAmount s))
                   (json (s_bnbReceived s)) (json (s_bnbPrice s)) (json (s_gasUsed s))
                   (s_timestamp s) (s_txHash s) (json (s_totalCost s)) (json (s_profit s))
                   (json (s_profitPercentage s)) (map rereadUsed (s_buyTradesUsed s)))
  end.

Definition reread (h : History) : History :=
  mkHistory (map rereadTrade (trades h))
            (mkSummary (totalTrades (summary h)) (json (totalProfit (summary h)))
                       (json (totalLoss (summary h))) (json (winRate (summary h)))).

(** [recordBuyTrade]: the history it writes. *)
Definition recordBuyTrade (history : History) (env : Env)
    (tokenAddress tokenSymbol : string) (bnbAmount tokenAmount bnbPrice gasUsed : float)
    (txHash : string) : History :=
  let buyTrade :=
    mkBuy (now env) (JS.toLowerCase tokenAddress) tokenSymbol
          bnbAmount tokenAmount bnbPrice gasUsed (date env) txHash HOLDING in
  let sm := summary history in
  mkHistory (trades history ++ [BUY buyTrade])
            (mkSummary (totalTrades sm + 1)%Z (totalProfit sm) (totalLoss sm) (winRate sm)).

Definition isHoldingBuy (addr : string) (t : Trade) : bool :=
  match t with
  | BUY b => String.eqb (b_tokenAddress b) addr && Status_eqb (b_status b) HOLDING
  | SELL _ => false
  end.

Definition holdingAt (addr : string) (ts : list Trade) (i : nat) : bool :=
  match ts !! i with
  | Some t => isHoldingBuy addr t
  | None => false
  end.

Definition timestampAt (ts : list Trade) (i : nat) : Z :=
  match ts !! i with
  | Some (BUY b) => b_timestamp b
  | Some (SELL s) => s_timestamp s
  | None => 0%Z
  end.

Definition buyTrades (addr : string) (ts : list Trade) : list nat :=
  JS.sortBy (timestampAt ts)
    (List.filter (holdingAt addr ts) (seq 0 (length ts))).

Record Loop := mkLoop {
  ledger : list Trade;
  remainingTokensToSell : float;
  totalCost : float;
  totalGasUsed : float;
  processedBuyTrades : list Used
}.

Definition consumeLot (i : nat) (buyTrade : Buy) (st : Loop) : Loop :=
  let tokensFromThisBuy := min (remainingTokensToSell st) (b_tokenAmount buyTrade) in
  let costRatio := tokensFromThisBuy / b_tokenAmount buyTrade in
  let costFromThisBuy := b_bnbAmount buyTrade * costRatio in
  let gasFromThisBuy := b_gasUsed buyTrade * costRatio in
  let used := mkUsed (b_id buyTrade) tokensFromThisBuy costFromThisBuy gasFromThisBuy in
  let buyTrade' :=
    if b_tokenAmount buyTrade <=? tokensFromThisBuy then
      mkBuy (b_id buyTrade) (b_tokenAddress buyTrade) (b_tokenSymbol buyTrade)
            (b_bnbAmount buyTrade) (b_tokenAmount buyTrade) (b_bnbPrice buyTrade)
            (b_gasUsed buyTrade) (b_timestamp buyTrade) (b_txHash buyTrade) SOLD
    else
      let remainingTokens := b_tokenAmount buyTrade - tokensFromThisBuy in
      let remainingCost := b_bnbAmount buyTrade - costFromThisBuy in
      let remainingGas := b_gasUsed buyTrade - gasFromThisBuy in
      mkBuy (b_id buyTrade) (b_tokenAddress buyTrade) (b_tokenSymbol buyTrade)
            remainingCost remainingTokens (b_bnbPrice buyTrade)
            remainingGas (b_timestamp buyTrade) (b_txHash buyTrade)
            (b_status buyTrade) in
  mkLoop (<[i := BUY buyTrade']> (ledger st))
         (remainingTokensToSell st - tokensFromThisBuy)
         (totalCost st + costFromThisBuy)
         (totalGasUsed st + gasFromThisBuy)
         (processedBuyTrades st ++ [used]).

Fixpoint sellLoop (idxs : list nat) (st : Loop) : Loop :=
  match idxs with
  | [] => st
  | i :: rest =>
      if remainingTokensToSell st <=? 0 then st
      else
        match ledger st !! i with
        | Some (BUY buyTrade) => sellLoop rest (consumeLot i buyTrade st)
        | _ => sellLoop rest st
        end
  end.

Definition isSell (t : Trade) : bool :=
  match t with SELL _ => true | BUY _ => false end.

Definition isProfitableSell (t : Trade) : bool :=
  match t with SELL s => 0 <? s_profit s | BUY _ => false end.

(** [recordSellTrade]: the history it writes and the profit it returns, or
    the history as it was and [None] where it returns [null]. *)
Definition recordSellTrade (history : History) (env : Env)
    (tokenAddress tokenSymbol : string) (tokenAmount bnbReceived bnbPrice gasUsed : float)
    (txHash : string) : History * option float :=
  let lots := buyTrades (JS.toLowerCase tokenAddress) (trades history) in
  if Nat.eqb (length lots) 0 then (history, None)
  else
    let st := sellLoop lots (mkLoop (trades history) tokenAmount 0 gasUsed []) in
    let revenue := bnbReceived in
    let profit := revenue - totalCost st in
    let profitPercentage := (profit / totalCost st) * 100 in
    let sellTrade :=
      mkSell (now env) (JS.toLowerCase tokenAddress) tokenSymbol tokenAmount
             revenue bnbPrice (totalGasUsed st) (date env) txHash
             (totalCost st) profit profitPercentage (processedBuyTrades st) in
    let ts := ledger st ++ [SELL sellTrade] in
    let sm := summary history in
    let tp := if 0 <? profit then totalProfit sm + profit else totalProfit sm in
    let tl := if 0 <? profit then totalLoss sm else totalLoss sm + abs profit in
    let profitableTrades := length (List.filter isProfitableSell ts) in
    let totalSellTrades := length (List.filter isSell ts) in
    let wr :=
      if Nat.ltb 0 totalSellTrades
      then ofNat profitableTrades / ofNat totalSellTrades * 100
      else 0 in
    (mkHistory ts (mkSummary (totalTrades sm + 1)%Z tp tl wr), Some profit).

(** [getTokenPositionInfo]: [totalTokens], [totalCost] and the number of
    lots, or [None]. *)
Definition getTokenPositionInfo (history : History) (tokenAddress : string)
    : option (float * float * nat) :=
  let lots := List.filter (isHoldingBuy (JS.toLowerCase tokenAddress)) (trades history) in
  if Nat.eqb (length lots) 0 then None
  else
    let amountOf t := match t with BUY b => b_tokenAmount b | SELL _ => 0 end in
    let costOf t := match t with BUY b => b_bnbAmount b | SELL _ => 0 end in
    Some (fold_left (fun sum t => sum + amountOf t) lots 0,
          fold_left (fun sum t => sum + costOf t) lots 0,
          length lots).

(** A buy or a sell of a token at a time, then the file read back. *)
Inductive Op :=
| OpBuy (time : Z) (bnbAmount tokenAmount : float)
| OpSell (time : Z) (tokenAmount bnbReceived : float).

Definition step (token : string) (history : History) (o : Op) : History :=
  match o with
  | OpBuy time bnbAmount tokenAmount =>
      reread (recordBuyTrade history (mkEnv time time true) token "T"
                bnbAmount tokenAmount 1 21000 "0x")
  | OpSell time tokenAmount bnbReceived =>
      reread (fst (recordSellTrade history (mkEnv time time true) token "T"
                     tokenAmount bnbReceived 1 25000 "0x"))
  end.

Definition run (token : string) (ops : list Op) : History :=
  fold_left (step token) ops emptyHistory.

(** The sum of the sizes of the losses of the SELL records, and the sum of
    their [costUsed] entries. *)
Definition lossesOf (ts : list Trade) : float :=
  fold_left
    (fun sum t =>
       match t with
       | SELL s => if s_profit s <? 0 then sum + abs (s_profit s) else sum
       | BUY _ => sum
       end)
    ts 0.

Definition costUsedOf (ts : list Trade) : float :=
  fold_left
    (fun sum t =>
       match t with
       | SELL s => fold_left (fun acc u => acc + u_costUsed u) (s_buyTradesUsed s) sum
       | BUY _ => sum
       end)
    ts 0.

End B64.


(** ** Runs in binary64 *)

(** A loss, then a lot of 0 tokens, and the sell that meets it. *)
Definition emptyLotRun : list B64.Op :=
  [B64.OpBuy 1000 (1 / 10)%float 100%float;
   B64.OpSell 2000 100%float (5 / 100)%float;
   B64.OpBuy 3000 (1 / 10)%float 0%float].

Definition sellAfterEmptyLot : B64.History * option float :=
  B64.recordSellTrade (B64.run "0xt" emptyLotRun) (mkEnv 4000 4000 true)
    "0xt" "T" 10%float (2 / 10)%float 1%float 25000%float "0x".


(** Buys of 1e17 tokens and of 1 token, then sells of 1 token and of 1e17
    tokens. *)
Definition absorbedRun : list B64.Op :=
  [B64.OpBuy 1000 (1 / 2)%float 1e17%float;
   B64.OpBuy 2000 (1 / 4)%float 1%float;
   B64.OpSell 3000 1%float 1%float;
   B64.OpSell 4000 1e17%float 1%float].


(** A lot of 0 tokens bought for 0.05 and a lot of 100 tokens bought for
    0.1, then a sell of the 100 tokens. *)
Definition zeroLotBuys : list B64.Op :=
  [B64.OpBuy 1000 (5 / 100)%float 0%float;
   B64.OpBuy 2000 (1 / 10)%float 100%float].

Definition sellOverZeroLot : B64.History * option float :=
  B64.recordSellTrade (B64.run "0xt" zeroLotBuys) (mkEnv 3000 3000 true)
    "0xt" "T" 100%float (2 / 10)%float 1%float 25000%float "0x".


(** The same buys and sell over the rationals. *)
Definition zeroLotOps : list Op :=
  [OpBuy (mkEnv 1000 1000 true) cake "CAKE" (5 # 100) 0 (5 # 2) 21000 "0xbuy1";
   OpBuy (mkEnv 2000 2000 true) cake "CAKE" (1 # 10) 100 3 21000 "0xbuy2";
   OpSell (mkEnv 3000 3000 true) cake "CAKE" 100 (2 # 10) (7 # 2) 25000 "0xsell1"].

(** * Properties *)

(** ** Comparisons and [Math.min] *)

Section Comparisons.

Lemma le_true a b : JS.le a b = true <-> a <= b.
Proof. unfold JS.le. apply Qle_bool_iff. Qed.

Lemma le_false a b : JS.le a b = false <-> b < a.
Proof.
  unfold JS.le. split; intros H.
  - apply Qnot_le_lt. intros Hle. apply Qle_bool_iff in Hle. congruence.
  - destruct (Qle_bool a b) eqn:E; [|reflexivity].
    apply Qle_bool_iff in E. lra.
Qed.

Lemma gt_true a b : JS.gt a b = true <-> b < a.
Proof. unfold JS.gt. rewrite negb_true_iff. apply le_false. Qed.

Lemma gt_false a b : JS.gt a b = false <-> a <= b.
Proof. unfold JS.gt. rewrite negb_false_iff. apply le_true. Qed.

Lemma ge_true a b : JS.ge a b = true <-> b <= a.
Proof. unfold JS.ge. apply Qle_bool_iff. Qed.

Lemma ge_false a b : JS.ge a b = false <-> a < b.
Proof. unfold JS.ge. apply (le_false b a). Qed.

Lemma lt_false a b : JS.lt a b = false <-> b <= a.
Proof. unfold JS.lt. rewrite negb_false_iff. apply (le_true b a). Qed.

Lemma min_left a b : a <= b -> JS.min a b = a.
Proof. intros H. unfold JS.min. apply Qle_bool_iff in H. now rewrite H. Qed.

Lemma min_right a b : b < a -> JS.min a b = b.
Proof. intros H. unfold JS.min. apply le_false in H. unfold JS.le in H. now rewrite H. Qed.

Lemma min_cases a b :
  (a <= b /\ JS.min a b = a) \/ (b < a /\ JS.min a b = b).
Proof.
  destruct (Qlt_le_dec b a) as [H|H].
  - right. split; [exact H | now apply min_right].
  - left. split; [exact H | now apply min_left].
Qed.

#[global] Instance min_compat : Proper (Qeq ==> Qeq ==> Qeq) JS.min.
Proof.
  intros a a' Ha b b' Hb.
  destruct (min_cases a b) as [[H ->]|[H ->]];
    destruct (min_cases a' b') as [[H' ->]|[H' ->]]; lra.
Qed.

End Comparisons.

(** ** Left-to-right sums *)

Section Sums.

Context {A : Type}.
Variable f : A -> Q.

Lemma fold_sum_shift (l : list A) (a : Q) :
  fold_left (fun acc x => acc + f x) l a == a + sumQ f l.
Proof.
  unfold sumQ. revert a.
  induction l as [|x l IH]; intros a; simpl.
  - lra.
  - rewrite IH. rewrite (IH (0 + f x)). lra.
Qed.

Lemma sumQ_nil : sumQ f [] = 0.
Proof. reflexivity. Qed.

Lemma sumQ_cons x l : sumQ f (x :: l) == f x + sumQ f l.
Proof. unfold sumQ at 1. simpl. rewrite fold_sum_shift. lra. Qed.

Lemma sumQ_snoc l x : sumQ f (l ++ [x]) = sumQ f l + f x.
Proof. unfold sumQ. now rewrite fold_left_app. Qed.

Lemma sumQ_app l1 l2 : sumQ f (l1 ++ l2) == sumQ f l1 + sumQ f l2.
Proof.
  unfold sumQ at 1. rewrite fold_left_app. rewrite fold_sum_shift.
  reflexivity.
Qed.

Lemma sumQ_perm l1 l2 : Permutation l1 l2 -> sumQ f l1 == sumQ f l2.
Proof.
  induction 1 as [|x l1 l2 _ IH|x y l|l1 l2 l3 _ IH1 _ IH2].
  - reflexivity.
  - rewrite !sumQ_cons, IH. reflexivity.
  - rewrite !sumQ_cons. lra.
  - now rewrite IH1.
Qed.

Lemma sumQ_insert (l : list A) (i : nat) (x y : A) :
  l !! i = Some x -> sumQ f (<[i := y]> l) == sumQ f l - f x + f y.
Proof.
  revert i. induction l as [|z l IH]; intros [|i] H; simpl in *; try discriminate.
  - injection H as ->. rewrite !sumQ_cons. lra.
  - rewrite !sumQ_cons. rewrite (IH i H). lra.
Qed.

Lemma sumQ_nonneg l : (forall x, In x l -> 0 <= f x) -> 0 <= sumQ f l.
Proof.
  induction l as [|x l IH]; intros H.
  - rewrite sumQ_nil. lra.
  - rewrite sumQ_cons.
    assert (0 <= f x) by (apply H; now left).
    assert (0 <= sumQ f l) by (apply IH; intros; apply H; now right).
    lra.
Qed.

Lemma sumQ_zero l : (forall x, In x l -> f x == 0) -> sumQ f l == 0.
Proof.
  induction l as [|x l IH]; intros H.
  - reflexivity.
  - rewrite sumQ_cons, (H x) by now left.
    rewrite IH by (intros; apply H; now right). lra.
Qed.

End Sums.

Lemma sumQ_ext {A} (f g : A -> Q) (l : list A) :
  (forall x, In x l -> f x == g x) -> sumQ f l == sumQ g l.
Proof.
  induction l as [|x l IH]; intros H.
  - reflexivity.
  - rewrite !sumQ_cons, (H x) by now left.
    rewrite IH by (intros; apply H; now right). reflexivity.
Qed.

Lemma sumQ_map {A B} (g : A -> B) (f : B -> Q) (l : list A) :
  sumQ f (map g l) = sumQ (fun x => f (g x)) l.
Proof.
  unfold sumQ. generalize 0. induction l as [|x l IH]; intros a; simpl.
  - reflexivity.
  - apply IH.
Qed.

Lemma sumQ_filter {A} (p : A -> bool) (f : A -> Q) (l : list A) :
  sumQ f (List.filter p l) == sumQ (fun x => if p x then f x else 0) l.
Proof.
  induction l as [|x l IH]; simpl.
  - reflexivity.
  - destruct (p x) eqn:E; rewrite !sumQ_cons, ?E, IH; lra.
Qed.


(** ** The stable sort *)

Section Sorting.

Variable key : nat -> Z.

Lemma insertBy_perm i l : Permutation (JS.insertBy key i l) (i :: l).
Proof.
  induction l as [|j r IH]; simpl.
  - reflexivity.
  - destruct (Z.leb (key i) (key j)).
    + reflexivity.
    + rewrite IH. apply perm_swap.
Qed.

Lemma sortBy_perm l : Permutation (JS.sortBy key l) l.
Proof.
  induction l as [|i r IH]; simpl.
  - reflexivity.
  - rewrite insertBy_perm. now apply perm_skip.
Qed.

Lemma insertBy_sorted i l :
  StronglySorted (fun a b => (key a <= key b)%Z) l ->
  StronglySorted (fun a b => (key a <= key b)%Z) (JS.insertBy key i l).
Proof.
  induction 1 as [|j r Hr IH Hj]; simpl.
  - repeat constructor.
  - destruct (Z.leb (key i) (key j)) eqn:E.
    + apply Z.leb_le in E. constructor.
      * now constructor.
      * constructor; [exact E|].
        rewrite List.Forall_forall in Hj |- *. intros k Hk.
        specialize (Hj k Hk). simpl in Hj. lia.
    + apply Z.leb_gt in E. constructor; [exact IH|].
      rewrite List.Forall_forall in Hj |- *. intros k Hk.
      apply (Permutation_in _ (insertBy_perm i r)) in Hk.
      destruct Hk as [<-|Hk]; [lia | now apply Hj].
Qed.

Lemma sortBy_sorted l :
  StronglySorted (fun a b => (key a <= key b)%Z) (JS.sortBy key l).
Proof.
  induction l as [|i r IH]; simpl.
  - constructor.
  - now apply insertBy_sorted.
Qed.

(** Equal keys keep their order: a list that is already ascending is left
    as it is. *)
Lemma sortBy_sorted_id l :
  StronglySorted (fun a b => (key a <= key b)%Z) l -> JS.sortBy key l = l.
Proof.
  induction 1 as [|i r Hr IH Hi]; simpl.
  - reflexivity.
  - rewrite IH. destruct r as [|j r']; simpl.
    + reflexivity.
    + inversion Hi as [|? ? Hij _]; subst.
      apply Z.leb_le in Hij. now rewrite Hij.
Qed.

End Sorting.

(** ** The lots selected by [recordSellTrade] *)

Section Selection.

Variable addr : string.

Lemma holding_seq (pre ts : list Trade) :
  map BUY (lotsAt (pre ++ ts)
             (List.filter (holdingAt addr (pre ++ ts)) (seq (length pre) (length ts))))
  = List.filter (isHoldingBuy addr) ts.
Proof.
  revert pre. induction ts as [|x r IH]; intros pre; simpl.
  - reflexivity.
  - specialize (IH (pre ++ [x])).
    rewrite <- app_assoc in IH. simpl in IH.
    rewrite length_app in IH. simpl in IH.
    replace (length pre + 1)%nat with (S (length pre)) in IH by lia.
    unfold holdingAt at 1. rewrite list_lookup_middle by reflexivity.
    destruct (isHoldingBuy addr x) eqn:E; simpl.
    + rewrite list_lookup_middle by reflexivity.
      destruct x as [b|s]; [|discriminate]. simpl. now rewrite IH.
    + exact IH.
Qed.

Lemma holding_positions (ts : list Trade) :
  map BUY (lotsAt ts (List.filter (holdingAt addr ts) (seq 0 (length ts))))
  = List.filter (isHoldingBuy addr) ts.
Proof. exact (holding_seq [] ts). Qed.

Lemma buyTrades_perm (ts : list Trade) :
  Permutation (buyTrades addr ts)
              (List.filter (holdingAt addr ts) (seq 0 (length ts))).
Proof. apply sortBy_perm. Qed.

Lemma buyTrades_NoDup (ts : list Trade) : List.NoDup (buyTrades addr ts).
Proof.
  eapply Permutation_NoDup.
  - symmetry. apply buyTrades_perm.
  - apply List.NoDup_filter, seq_NoDup.
Qed.

Lemma buyTrades_lookup (ts : list Trade) (i : nat) :
  In i (buyTrades addr ts) ->
  exists b, ts !! i = Some (BUY b) /\ isHoldingBuy addr (BUY b) = true.
Proof.
  intros Hi. apply (Permutation_in _ (buyTrades_perm ts)) in Hi.
  apply filter_In in Hi. destruct Hi as [_ Hi].
  unfold holdingAt in Hi. destruct (ts !! i) as [[b|s]|] eqn:E; try discriminate.
  now exists b.
Qed.

Lemma lotsAt_perm (ts : list Trade) (l1 l2 : list nat) :
  Permutation l1 l2 -> Permutation (lotsAt ts l1) (lotsAt ts l2).
Proof. intros H. unfold lotsAt. now apply Permutation_flat_map. Qed.

Lemma buyTrades_lots (ts : list Trade) :
  Permutation (map BUY (lotsAt ts (buyTrades addr ts)))
              (List.filter (isHoldingBuy addr) ts).
Proof.
  rewrite <- holding_positions.
  apply Permutation_map, lotsAt_perm, buyTrades_perm.
Qed.

Lemma buyTrades_sorted (ts : list Trade) :
  StronglySorted (fun i j => (timestampAt ts i <= timestampAt ts j)%Z)
                 (buyTrades addr ts).
Proof. apply sortBy_sorted. Qed.

Lemma buyTrades_nil (ts : list Trade) :
  buyTrades addr ts = [] <->
  (forall t, In t ts -> isHoldingBuy addr t = false).
Proof.
  split.
  - intros H t Ht.
    destruct (isHoldingBuy addr t) eqn:E; [|reflexivity].
    assert (Hin : In t (List.filter (isHoldingBuy addr) ts)) by (apply filter_In; auto).
    apply (Permutation_in _ (Permutation_sym (buyTrades_lots ts))) in Hin.
    rewrite H in Hin. destruct Hin.
  - intros H.
    assert (Hf : List.filter (isHoldingBuy addr) ts = []).
    { clear -H. induction ts as [|x r IH]; simpl; [reflexivity|].
      rewrite (H x) by now left. apply IH. intros; apply H; now right. }
    pose proof (buyTrades_lots ts) as P. rewrite Hf in P.
    apply Permutation_sym, Permutation_nil in P.
    destruct (buyTrades addr ts) as [|i r] eqn:E; [reflexivity|].
    destruct (buyTrades_lookup ts i) as (b & Hb & _); [rewrite E; now left|].
    unfold lotsAt in P. simpl in P. rewrite Hb in P. discriminate.
Qed.

End Selection.


(** ** The loop of [recordSellTrade] *)

Section LoopFacts.

Lemma consumeLot_other i b st j :
  i <> j -> ledger (consumeLot i b st) !! j = ledger st !! j.
Proof. intros H. unfold consumeLot. simpl. now apply list_lookup_insert_ne. Qed.

Lemma sellLoop_break idxs st :
  JS.le (remainingTokensToSell st) 0 = true -> sellLoop idxs st = st.
Proof. intros H. destruct idxs; simpl; [reflexivity | now rewrite H]. Qed.

Lemma fifo_break lots r : JS.le r 0 = true -> fifo lots r = [].
Proof. intros H. destruct lots; simpl; [reflexivity | now rewrite H]. Qed.

(** Invariant rule: a property kept by every iteration holds after the loop.
    A lot is still as it was in the ledger [ts0] the loop started from when
    its iteration begins. *)
Lemma sellLoop_invariant (ts0 : list Trade) (P : Loop -> Prop) :
  forall idxs st,
    List.NoDup idxs ->
    (forall i, In i idxs -> ledger st !! i = ts0 !! i) ->
    (forall s i b,
        P s -> In i idxs -> ts0 !! i = Some (BUY b) -> ledger s !! i = Some (BUY b) ->
        0 < remainingTokensToSell s -> P (consumeLot i b s)) ->
    P st -> P (sellLoop idxs st).
Proof.
  induction idxs as [|i rest IH]; intros st Hnd Hsame Hstep HP; simpl.
  - exact HP.
  - destruct (JS.le (remainingTokensToSell st) 0) eqn:E; [exact HP|].
    apply le_false in E.
    inversion Hnd as [|? ? Hni Hnd']; subst.
    destruct (ledger st !! i) as [[b|s]|] eqn:L.
    + apply IH.
      * exact Hnd'.
      * intros j Hj. rewrite consumeLot_other.
        -- apply Hsame. now right.
        -- intros ->. contradiction.
      * intros s j b' Hs Hj. apply Hstep; [exact Hs | now right].
      * apply (Hstep st i b); auto.
        -- now left.
        -- rewrite <- Hsame by now left. exact L.
    + apply IH; auto.
      * intros j Hj. apply Hsame. now right.
      * intros s0 j b' Hs Hj. apply Hstep; [exact Hs | now right].
    + apply IH; auto.
      * intros j Hj. apply Hsame. now right.
      * intros s0 j b' Hs Hj. apply Hstep; [exact Hs | now right].
Qed.

Lemma lotsAt_insert_notin (ts : list Trade) (i : nat) (t : Trade) (idxs : list nat) :
  ~ In i idxs -> lotsAt (<[i := t]> ts) idxs = lotsAt ts idxs.
Proof.
  induction idxs as [|j rest IH]; intros H; simpl.
  - reflexivity.
  - rewrite list_lookup_insert_ne by (intros ->; apply H; now left).
    f_equal. apply IH. intros Hin. apply H. now right.
Qed.

(** The loop's outputs are those of [fifo] on the values of the lots. *)
Lemma sellLoop_fifo idxs : forall st,
  List.NoDup idxs ->
  let used := fifo (lotsAt (ledger st) idxs) (remainingTokensToSell st) in
  processedBuyTrades (sellLoop idxs st) = processedBuyTrades st ++ used
  /\ totalCost (sellLoop idxs st) == totalCost st + sumQ Used.costUsed used
  /\ totalGasUsed (sellLoop idxs st) == totalGasUsed st + sumQ Used.gasUsed used
  /\ remainingTokensToSell (sellLoop idxs st)
     == remainingTokensToSell st - sumQ Used.tokensUsed used.
Proof.
  induction idxs as [|i rest IH]; intros st Hnd; simpl.
  - rewrite app_nil_r, !sumQ_nil. repeat split; lra.
  - inversion Hnd as [|? ? Hni Hnd']; subst.
    destruct (JS.le (remainingTokensToSell st) 0) eqn:E.
    + rewrite (fifo_break _ _ E), app_nil_r, !sumQ_nil. repeat split; lra.
    + destruct (ledger st !! i) as [[b|s]|] eqn:L; simpl.
      * rewrite E.
        destruct (IH (consumeLot i b st) Hnd') as (Hp & Hc & Hg & Hr).
        assert (HL : lotsAt (ledger (consumeLot i b st)) rest = lotsAt (ledger st) rest)
          by (apply lotsAt_insert_notin; exact Hni).
        rewrite HL in Hp, Hc, Hg, Hr. simpl in Hp, Hc, Hg, Hr.
        rewrite Hp, Hc, Hg, Hr, <- app_assoc, !sumQ_cons. simpl.
        repeat split; try reflexivity; lra.
      * apply IH. exact Hnd'.
      * apply IH. exact Hnd'.
Qed.

End LoopFacts.


(** ** Reading and writing the history file *)

Lemma getTradingHistory_stored (h : History) : getTradingHistory (stored h) = h.
Proof. now destruct h. Qed.

(** C8.  [getTradingHistory] returns a history for every content of the file:
    whenever its [try] block raises (the file cannot be read, its text does
    not parse, or it parses to [null]) the result is the empty ledger, with no
    trades and totalTrades, totalProfit, totalLoss and winRate all 0. *)
Theorem getTradingHistory_fail_open (f : FileContent) (e : Exception)
    (Hraise : getTradingHistory_try f = inl e) :
  getTradingHistory f = emptyHistory
  /\ trades (getTradingHistory f) = []
  /\ summary (getTradingHistory f) = mkSummary 0 0 0 0
  /\ getTradingHistory Unreadable = emptyHistory
  /\ getTradingHistory Malformed = emptyHistory.
Proof.
  unfold getTradingHistory. rewrite Hraise. repeat split.
Qed.

Lemma getTradingHistory_fail_open_witness :
  getTradingHistory Malformed = emptyHistory
  /\ trades (getTradingHistory Malformed) = []
  /\ summary (getTradingHistory Malformed) = mkSummary 0 0 0 0
  /\ getTradingHistory Unreadable = emptyHistory
  /\ getTradingHistory Malformed = emptyHistory.
Proof. apply (getTradingHistory_fail_open Malformed SyntaxError). reflexivity. Defined.

(** ** Outcomes of [recordSellTrade] *)

Section SellOutcomes.

Variables (f : FileContent) (env : Env) (tokenAddress tokenSymbol : string).
Variables (tokenAmount bnbReceived bnbPrice gasUsed : Q) (txHash : string).

Lemma recordSellTrade_recorded :
  buyTrades (JS.toLowerCase tokenAddress) (trades (getTradingHistory f)) <> [] ->
  writable env = true ->
  recordSellTrade f env tokenAddress tokenSymbol tokenAmount bnbReceived bnbPrice gasUsed txHash
  = (stored (historyAfterSell f env tokenAddress tokenSymbol tokenAmount bnbReceived
                              bnbPrice gasUsed txHash),
     let s := sellRecord f env tokenAddress tokenSymbol tokenAmount bnbReceived
                         bnbPrice gasUsed txHash in
     Some (SellResult.mk (Sell.id s) (Sell.profit s) (Sell.profitPercentage s)
                        (Sell.totalCost s) (Sell.bnbReceived s))).
Proof.
  intros Hlots Hw. unfold recordSellTrade.
  destruct (buyTrades (JS.toLowerCase tokenAddress) (trades (getTradingHistory f)))
    as [|i rest] eqn:E; [contradiction|].
  simpl length. simpl Nat.eqb. cbv iota. rewrite Hw.
  unfold historyAfterSell, sellRecord, sellRun. rewrite E. reflexivity.
Qed.

Lemma recordSellTrade_null :
  buyTrades (JS.toLowerCase tokenAddress) (trades (getTradingHistory f)) = [] \/
  writable env = false ->
  recordSellTrade f env tokenAddress tokenSymbol tokenAmount bnbReceived bnbPrice gasUsed txHash
  = (f, None).
Proof.
  intros H. unfold recordSellTrade.
  destruct (buyTrades (JS.toLowerCase tokenAddress) (trades (getTradingHistory f)))
    as [|i rest] eqn:E.
  - reflexivity.
  - destruct H as [H|H]; [discriminate|].
    simpl length. simpl Nat.eqb. cbv iota. now rewrite H.
Qed.

Lemma recordSellTrade_inv (f' : FileContent) (res : SellResult.t) :
  recordSellTrade f env tokenAddress tokenSymbol tokenAmount bnbReceived bnbPrice gasUsed txHash
  = (f', Some res) ->
  buyTrades (JS.toLowerCase tokenAddress) (trades (getTradingHistory f)) <> []
  /\ writable env = true
  /\ f' = stored (historyAfterSell f env tokenAddress tokenSymbol tokenAmount bnbReceived
                                   bnbPrice gasUsed txHash).
Proof.
  intros H.
  destruct (buyTrades (JS.toLowerCase tokenAddress) (trades (getTradingHistory f)))
    as [|i rest] eqn:E.
  - rewrite recordSellTrade_null in H by (left; exact E). discriminate.
  - destruct (writable env) eqn:Hw.
    + rewrite recordSellTrade_recorded in H by (rewrite ?E; auto; discriminate).
      injection H as <- _. repeat split. discriminate.
    + rewrite recordSellTrade_null in H by (now right). discriminate.
Qed.

End SellOutcomes.

(** C3.  A sell of a token that has no HOLDING BUY record returns [null]
    and leaves the file as it was: no SELL record is appended, and the trades
    and the summary read back are those read before. *)
Theorem recordSellTrade_without_lots
    (f : FileContent) (env : Env) (tokenAddress tokenSymbol : string)
    (tokenAmount bnbReceived bnbPrice gasUsed : Q) (txHash : string)
    (Hnone : forall t, In t (trades (getTradingHistory f)) ->
                       isHoldingBuy (JS.toLowerCase tokenAddress) t = false) :
  let out := recordSellTrade f env tokenAddress tokenSymbol tokenAmount bnbReceived
                             bnbPrice gasUsed txHash in
  snd out = None
  /\ fst out = f
  /\ trades (getTradingHistory (fst out)) = trades (getTradingHistory f)
  /\ summary (getTradingHistory (fst out)) = summary (getTradingHistory f).
Proof.
  intros out. subst out.
  rewrite recordSellTrade_null by (left; now apply buyTrades_nil).
  repeat split.
Qed.

(** ** What a sell takes from the lots *)

Lemma lotsAt_In (ts : list Trade) (idxs : list nat) (b : Buy.t) :
  In b (lotsAt ts idxs) -> exists i, In i idxs /\ ts !! i = Some (BUY b).
Proof.
  unfold lotsAt. intros H. apply in_flat_map in H.
  destruct H as (i & Hi & Hb). exists i. split; [exact Hi|].
  destruct (ts !! i) as [[b'|s]|]; simpl in Hb; try contradiction.
  destruct Hb as [->|[]]. reflexivity.
Qed.


Lemma sellRun_used (f : FileContent) (tokenAddress : string) (tokenAmount gasUsed : Q) :
  let st := sellRun f tokenAddress tokenAmount gasUsed in
  let used := fifo (fifoLots f tokenAddress) tokenAmount in
  processedBuyTrades st = used
  /\ totalCost st == sumQ Used.costUsed used
  /\ totalGasUsed st == gasUsed + sumQ Used.gasUsed used
  /\ remainingTokensToSell st == tokenAmount - sumQ Used.tokensUsed used.
Proof.
  unfold sellRun, fifoLots.
  set (ts := trades (getTradingHistory f)).
  set (idxs := buyTrades (JS.toLowerCase tokenAddress) ts).
  destruct (sellLoop_fifo idxs (mkLoop ts tokenAmount 0 gasUsed [])
              (buyTrades_NoDup _ ts)) as (Hp & Hc & Hg & Hr).
  simpl in Hp, Hc, Hg, Hr. repeat split; auto.
  rewrite Hc. lra.
Qed.



(** ** One iteration *)

Lemma consumeLot_full i b st :
  Buy.tokenAmount b <= remainingTokensToSell st ->
  ledger (consumeLot i b st) = <[i := BUY (soldLot b)]> (ledger st)
  /\ exists u, processedBuyTrades (consumeLot i b st) = processedBuyTrades st ++ [u]
               /\ Used.id u = Buy.id b
               /\ Used.tokensUsed u == Buy.tokenAmount b.
Proof.
  intros H. unfold consumeLot. simpl.
  assert (Hge : JS.ge (JS.min (remainingTokensToSell st) (Buy.tokenAmount b))
                      (Buy.tokenAmount b) = true).
  { apply ge_true.
    destruct (min_cases (remainingTokensToSell st) (Buy.tokenAmount b))
      as [[_ ->]|[_ ->]]; lra. }
  rewrite Hge. split; [reflexivity|].
  eexists. split; [reflexivity|]. split; [reflexivity|]. simpl.
  destruct (min_cases (remainingTokensToSell st) (Buy.tokenAmount b))
    as [[? ->]|[? ->]]; lra.
Qed.

Lemma consumeLot_partial i b st :
  remainingTokensToSell st < Buy.tokenAmount b ->
  consumeLot i b st
  = mkLoop (<[i := BUY (reducedLot b (remainingTokensToSell st))]> (ledger st))
           (remainingTokensToSell st - remainingTokensToSell st)
           (totalCost st + Used.costUsed (usedOf b (remainingTokensToSell st)))
           (totalGasUsed st + Used.gasUsed (usedOf b (remainingTokensToSell st)))
           (processedBuyTrades st ++ [usedOf b (remainingTokensToSell st)]).
Proof.
  intros H. unfold consumeLot.
  rewrite (min_left (remainingTokensToSell st) (Buy.tokenAmount b)) by lra.
  apply ge_false in H. rewrite H. reflexivity.
Qed.

(** ** FIFO order *)

Lemma fifo_prefix (lots : list Buy.t) : forall r,
  map Used.id (fifo lots r) = map Buy.id (firstn (length (fifo lots r)) lots).
Proof.
  induction lots as [|b rest IH]; intros r; simpl.
  - reflexivity.
  - destruct (JS.le r 0); simpl; [reflexivity|]. now rewrite <- IH.
Qed.

Lemma fifo_small (lotA : Buy.t) (rest : list Buy.t) (x : Q) :
  0 < x -> x < Buy.tokenAmount lotA ->
  fifo (lotA :: rest) x = [usedOf lotA x].
Proof.
  intros Hx Hlt. simpl.
  assert (E : JS.le x 0 = false) by now apply le_false.
  rewrite E, (min_left x (Buy.tokenAmount lotA)) by lra.
  rewrite fifo_break; [reflexivity|]. apply le_true. lra.
Qed.

Lemma fifo_large (lotA lotB : Buy.t) (rest : list Buy.t) (x : Q) :
  0 < Buy.tokenAmount lotA -> Buy.tokenAmount lotA < x ->
  fifo (lotA :: lotB :: rest) x
  = usedOf lotA (Buy.tokenAmount lotA)
    :: usedOf lotB (JS.min (x - Buy.tokenAmount lotA) (Buy.tokenAmount lotB))
    :: fifo rest (x - Buy.tokenAmount lotA
                  - JS.min (x - Buy.tokenAmount lotA) (Buy.tokenAmount lotB)).
Proof.
  intros HA Hlt. simpl.
  assert (E : JS.le x 0 = false) by (apply le_false; lra).
  rewrite E, (min_right x (Buy.tokenAmount lotA)) by lra.
  assert (E' : JS.le (x - Buy.tokenAmount lotA) 0 = false) by (apply le_false; lra).
  now rewrite E'.
Qed.

Lemma lotsAt_sorted (ts : list Trade) (idxs : list nat) :
  StronglySorted (fun i j => (timestampAt ts i <= timestampAt ts j)%Z) idxs ->
  StronglySorted (fun l1 l2 => (Buy.timestamp l1 <= Buy.timestamp l2)%Z) (lotsAt ts idxs).
Proof.
  induction 1 as [|i r Hr IH Hi]; simpl.
  - constructor.
  - destruct (ts !! i) as [[b|s]|] eqn:E; simpl; try exact IH.
    constructor; [exact IH|].
    rewrite List.Forall_forall in Hi |- *. intros b' Hb'.
    apply lotsAt_In in Hb'. destruct Hb' as (j & Hj & Hlk).
    specialize (Hi j Hj). unfold timestampAt in Hi.
    now rewrite E, Hlk in Hi.
Qed.

Lemma lotsAt_head (ts : list Trade) (addr : string) (lotA : Buy.t) (rest : list Buy.t) :
  lotsAt ts (buyTrades addr ts) = lotA :: rest ->
  exists i idxs, buyTrades addr ts = i :: idxs /\ ts !! i = Some (BUY lotA).
Proof.
  intros H. destruct (buyTrades addr ts) as [|i idxs] eqn:E; [discriminate|].
  destruct (buyTrades_lookup addr ts i) as (b & Hb & _); [rewrite E; now left|].
  unfold lotsAt in H. simpl in H. rewrite Hb in H. simpl in H.
  injection H as -> _. now exists i, idxs.
Qed.

(** C2.  The lots a sell works through are exactly the HOLDING BUY records
    of the token, by ascending timestamp, and the entries of [buyTradesUsed]
    follow that order from its start.  A sell of less than the earliest lot's
    tokenAmount takes from that lot alone (one entry, and only that lot's
    record changes); a sell of more than the earliest lot takes all of it and
    then, from the next-earliest lot, the smaller of the remainder and that
    lot's tokenAmount. *)
Theorem recordSellTrade_fifo
    (f f' : FileContent) (env : Env) (tokenAddress tokenSymbol : string)
    (tokenAmount bnbReceived bnbPrice gasUsed : Q) (txHash : string) (res : SellResult.t)
    (Hsell : recordSellTrade f env tokenAddress tokenSymbol tokenAmount bnbReceived
                             bnbPrice gasUsed txHash = (f', Some res)) :
  let ts := trades (getTradingHistory f) in
  let lots := fifoLots f tokenAddress in
  Permutation (map BUY lots) (List.filter (isHoldingBuy (JS.toLowerCase tokenAddress)) ts)
  /\ StronglySorted (fun l1 l2 => (Buy.timestamp l1 <= Buy.timestamp l2)%Z) lots
  /\ exists (ts' : list Trade) (s : Sell.t),
       trades (getTradingHistory f') = ts' ++ [SELL s]
       /\ map Used.id (Sell.buyTradesUsed s)
          = map Buy.id (firstn (length (Sell.buyTradesUsed s)) lots)
       /\ (forall lotA rest,
              lots = lotA :: rest ->
              0 < tokenAmount -> tokenAmount < Buy.tokenAmount lotA ->
              Sell.buyTradesUsed s = [usedOf lotA tokenAmount]
              /\ exists i, ts !! i = Some (BUY lotA)
                           /\ ts' = <[i := BUY (reducedLot lotA tokenAmount)]> ts)
       /\ (forall lotA lotB rest,
              lots = lotA :: lotB :: rest ->
              0 < Buy.tokenAmount lotA -> Buy.tokenAmount lotA < tokenAmount ->
              exists more,
                Sell.buyTradesUsed s
                = usedOf lotA (Buy.tokenAmount lotA)
                  :: usedOf lotB (JS.min (tokenAmount - Buy.tokenAmount lotA)
                                         (Buy.tokenAmount lotB))
                  :: more).
Proof.
  intros ts lots.
  pose proof (recordSellTrade_inv _ _ _ _ _ _ _ _ _ _ _ Hsell) as (Hlots & Hw & ->).
  split; [apply buyTrades_lots|].
  split; [apply lotsAt_sorted, buyTrades_sorted|].
  rewrite getTradingHistory_stored.
  exists (ledger (sellRun f tokenAddress tokenAmount gasUsed)),
         (sellRecord f env tokenAddress tokenSymbol tokenAmount bnbReceived
                     bnbPrice gasUsed txHash).
  destruct (sellRun_used f tokenAddress tokenAmount gasUsed) as (Hp & _).
  assert (Hused : Sell.buyTradesUsed
                    (sellRecord f env tokenAddress tokenSymbol tokenAmount bnbReceived
                                bnbPrice gasUsed txHash)
                  = fifo lots tokenAmount) by exact Hp.
  split; [reflexivity|]. rewrite Hused.
  split; [apply fifo_prefix|]. split.
  - intros lotA rest Hl Hpos Hlt. rewrite Hl. split; [now apply fifo_small|].
    destruct (lotsAt_head _ _ _ _ Hl) as (i & idxs & Hidx & Hlk).
    exists i. split; [exact Hlk|].
    unfold sellRun. cbv zeta. fold ts in Hidx |- *. rewrite Hidx.
    cbn [sellLoop remainingTokensToSell ledger].
    assert (E : JS.le tokenAmount 0 = false) by now apply le_false.
    rewrite E. fold ts in Hlk. rewrite Hlk.
    rewrite consumeLot_partial by exact Hlt.
    rewrite sellLoop_break; [reflexivity|].
    simpl. apply le_true. lra.
  - intros lotA lotB rest Hl HA Hlt. rewrite Hl.
    eexists. now apply fifo_large.
Qed.

(** ** The lots of a position *)

Lemma filter_none {A} (p : A -> bool) (l : list A) :
  (forall x, In x l -> p x = false) -> List.filter p l = [].
Proof.
  induction l as [|x r IH]; intros H; simpl.
  - reflexivity.
  - rewrite (H x) by now left. apply IH. intros; apply H; now right.
Qed.

Lemma fifoLots_holding (f : FileContent) (tokenAddress : string) (lot : Buy.t) :
  In lot (fifoLots f tokenAddress) ->
  In (BUY lot) (trades (getTradingHistory f))
  /\ isHoldingBuy (JS.toLowerCase tokenAddress) (BUY lot) = true.
Proof.
  intros H. apply lotsAt_In in H. destruct H as (i & Hi & Hlk).
  destruct (buyTrades_lookup _ _ _ Hi) as (b & Hb & Hh).
  rewrite Hlk in Hb. injection Hb as <-. split; [|exact Hh].
  apply list_elem_of_In. eapply list_elem_of_lookup_2. exact Hlk.
Qed.

Lemma fifoLots_tokens (f : FileContent) (tokenAddress : string) :
  sumQ Buy.tokenAmount (fifoLots f tokenAddress)
  == sumQ lotTokens (List.filter (isHoldingBuy (JS.toLowerCase tokenAddress))
                                 (trades (getTradingHistory f))).
Proof.
  rewrite <- (sumQ_perm lotTokens _ _ (buyTrades_lots _ _)).
  fold (fifoLots f tokenAddress). rewrite sumQ_map. reflexivity.
Qed.

Lemma fifoLots_cost (f : FileContent) (tokenAddress : string) :
  sumQ Buy.bnbAmount (fifoLots f tokenAddress)
  == sumQ lotCost (List.filter (isHoldingBuy (JS.toLowerCase tokenAddress))
                               (trades (getTradingHistory f))).
Proof.
  rewrite <- (sumQ_perm lotCost _ _ (buyTrades_lots _ _)).
  fold (fifoLots f tokenAddress). rewrite sumQ_map. reflexivity.
Qed.

(** ** How a sell changes a lot *)



(** Every lot of the ledger is, after the loop, as it was, or marked SOLD
    with its amounts as they were, or reduced by a part of its tokens. *)
Lemma sellLoop_lots (addr : string) (ts : list Trade) (x gas : Q) :
  let st := sellLoop (buyTrades addr ts) (mkLoop ts x 0 gas []) in
  forall j before,
    ts !! j = Some (BUY before) ->
    exists after,
      ledger st !! j = Some (BUY after)
      /\ (after = before
          \/ (isHoldingBuy addr (BUY before) = true /\ after = soldLot before)
          \/ (isHoldingBuy addr (BUY before) = true
              /\ exists tokens, 0 < tokens /\ tokens < Buy.tokenAmount before
                                /\ after = reducedLot before tokens)).
Proof.
  apply (sellLoop_invariant ts
           (fun s => forall j before,
                ts !! j = Some (BUY before) ->
                exists after,
                  ledger s !! j = Some (BUY after)
                  /\ (after = before
                      \/ (isHoldingBuy addr (BUY before) = true /\ after = soldLot before)
                      \/ (isHoldingBuy addr (BUY before) = true
                          /\ exists tokens, 0 < tokens /\ tokens < Buy.tokenAmount before
                                            /\ after = reducedLot before tokens)))).
  - apply buyTrades_NoDup.
  - reflexivity.
  - intros s i b HP Hi Hts Hs Hrem j before Hj.
    destruct (buyTrades_lookup _ _ _ Hi) as (b0 & Hb0 & Hhold).
    rewrite Hts in Hb0. injection Hb0 as <-.
    destruct (Nat.eq_dec i j) as [<-|Hne].
    + rewrite Hts in Hj. injection Hj as <-.
      assert (Hlen : (i < length (ledger s))%nat)
        by (eapply lookup_lt_Some; exact Hs).
      destruct (Qlt_le_dec (remainingTokensToSell s) (Buy.tokenAmount b)) as [Hlt|Hge].
      * rewrite consumeLot_partial by exact Hlt. simpl.
        rewrite list_lookup_insert_eq by exact Hlen.
        eexists. split; [reflexivity|]. right. right. split; [exact Hhold|].
        exists (remainingTokensToSell s). auto.
      * destruct (consumeLot_full i b s Hge) as [-> _].
        rewrite list_lookup_insert_eq by exact Hlen.
        eexists. split; [reflexivity|]. right. left. auto.
    + rewrite consumeLot_other by exact Hne. now apply HP.
  - intros j before Hj. exists before. simpl. auto.
Qed.

Lemma holding_status (addr : string) (b : Buy.t) :
  isHoldingBuy addr (BUY b) = true -> Buy.status b = HOLDING.
Proof.
  simpl. intros H. apply andb_true_iff in H. destruct H as [_ H].
  now destruct (Buy.status b).
Qed.


(** ** The summary *)

Lemma filter_insert_blind {A} (p : A -> bool) (l : list A) (i : nat) (x y : A) :
  l !! i = Some x -> p x = false -> p y = false ->
  List.filter p (<[i := y]> l) = List.filter p l.
Proof.
  revert i. induction l as [|z l IH]; intros [|i] H Ex Ey; simpl in *; try discriminate.
  - injection H as ->. now rewrite Ex, Ey.
  - now rewrite (IH i H Ex Ey).
Qed.

(** The loop replaces BUY records by BUY records: what does not look inside
    a BUY record is not affected. *)
Lemma sellLoop_blind_sum (F : Trade -> Q) idxs :
  (forall b b', F (BUY b) == F (BUY b')) ->
  forall st, sumQ F (ledger (sellLoop idxs st)) == sumQ F (ledger st).
Proof.
  intros HF. induction idxs as [|i rest IH]; intros st; simpl.
  - reflexivity.
  - destruct (JS.le (remainingTokensToSell st) 0); [reflexivity|].
    destruct (ledger st !! i) as [[b|s]|] eqn:L; rewrite IH; try reflexivity.
    unfold consumeLot. simpl. rewrite (sumQ_insert F _ _ _ _ L).
    match goal with |- _ - _ + F (BUY ?n) == _ => rewrite (HF b n) end. lra.
Qed.

Lemma sellLoop_blind_filter (p : Trade -> bool) idxs :
  (forall b, p (BUY b) = false) ->
  forall st, List.filter p (ledger (sellLoop idxs st)) = List.filter p (ledger st).
Proof.
  intros Hp. induction idxs as [|i rest IH]; intros st; simpl.
  - reflexivity.
  - destruct (JS.le (remainingTokensToSell st) 0); [reflexivity|].
    destruct (ledger st !! i) as [[b|s]|] eqn:L; rewrite IH; try reflexivity.
    unfold consumeLot. simpl. apply (filter_insert_blind p _ _ _ _ L); apply Hp.
Qed.

Lemma filter_snoc {A} (p : A -> bool) (l : list A) (x : A) :
  List.filter p (l ++ [x]) = List.filter p l ++ (if p x then [x] else []).
Proof. rewrite List.filter_app. reflexivity. Qed.

Lemma summaryConsistent_initial : summaryConsistent (getTradingHistory initialFile).
Proof. repeat split; reflexivity. Qed.

Lemma recordBuyTrade_consistent
    (f : FileContent) (env : Env) (a s : string) (bnb tok price gas : Q) (tx : string) :
  summaryConsistent (getTradingHistory f) ->
  summaryConsistent (getTradingHistory (fst (recordBuyTrade f env a s bnb tok price gas tx))).
Proof.
  intros (Hp & Hl & Hw). unfold recordBuyTrade.
  destruct (writable env); [|repeat split; assumption].
  cbn [fst]. rewrite getTradingHistory_stored.
  unfold summaryConsistent, winRateOf, sellCount, winCount. cbn [trades summary
    totalProfit totalLoss winRate].
  rewrite !sumQ_snoc, !filter_snoc. cbn [gainOf lossOf isSell isProfitableSell].
  rewrite !app_nil_r.
  repeat split; [rewrite Hp; lra | rewrite Hl; lra | exact Hw].
Qed.

Lemma win_rate_formula (wins sells : nat) :
  (if Nat.ltb 0 sells
   then inject_Z (Z.of_nat wins) / inject_Z (Z.of_nat sells) * 100
   else 0)
  == (if Nat.eqb sells 0 then 0
      else 100 * inject_Z (Z.of_nat wins) / inject_Z (Z.of_nat sells)).
Proof.
  destruct sells as [|n]; [reflexivity|].
  change (Nat.ltb 0 (S n)) with true. change (Nat.eqb (S n) 0) with false.
  cbv iota. field.
  intros H. unfold Qeq in H. simpl in H. lia.
Qed.

Lemma loss_formula (profit acc : Q) :
  (if JS.gt profit 0 then acc else acc + JS.abs profit)
  == acc + (if JS.lt profit 0 then Qabs profit else 0).
Proof.
  unfold JS.abs.
  destruct (JS.gt profit 0) eqn:G.
  - apply gt_true in G.
    assert (L : JS.lt profit 0 = false) by (apply lt_false; lra).
    rewrite L. lra.
  - apply gt_false in G. destruct (JS.lt profit 0) eqn:L; [reflexivity|].
    apply lt_false in L.
    assert (E : profit == 0) by lra. rewrite E. reflexivity.
Qed.

Lemma recordSellTrade_consistent
    (f : FileContent) (env : Env) (a s : string) (tok bnb price gas : Q) (tx : string) :
  summaryConsistent (getTradingHistory f) ->
  summaryConsistent (getTradingHistory (fst (recordSellTrade f env a s tok bnb price gas tx))).
Proof.
  intros (Hp & Hl & Hw).
  destruct (buyTrades (JS.toLowerCase a) (trades (getTradingHistory f))) as [|i rest] eqn:E.
  { rewrite recordSellTrade_null by (now left). repeat split; assumption. }
  destruct (writable env) eqn:W.
  2:{ rewrite recordSellTrade_null by (now right). repeat split; assumption. }
  rewrite recordSellTrade_recorded by (rewrite ?E; auto; discriminate).
  cbn [fst]. rewrite getTradingHistory_stored.
  unfold historyAfterSell.
  set (sr := sellRecord f env a s tok bnb price gas tx).
  set (st := sellRun f a tok gas).
  assert (Hgain : sumQ gainOf (ledger st) == sumQ gainOf (trades (getTradingHistory f)))
    by (apply (sellLoop_blind_sum gainOf); reflexivity).
  assert (Hloss : sumQ lossOf (ledger st) == sumQ lossOf (trades (getTradingHistory f)))
    by (apply (sellLoop_blind_sum lossOf); reflexivity).
  unfold summaryConsistent, summaryAfterSell.
  cbn [trades summary totalProfit totalLoss winRate].
  rewrite !sumQ_snoc, Hgain, Hloss. cbn [gainOf lossOf].
  split; [|split].
  - destruct (JS.gt (Sell.profit sr) 0); rewrite Hp; lra.
  - rewrite loss_formula, Hl. reflexivity.
  - apply win_rate_formula.
Qed.

Lemma run_consistent (ops : list Op) : forall f,
  summaryConsistent (getTradingHistory f) ->
  summaryConsistent (getTradingHistory (run ops f)).
Proof.
  induction ops as [|o ops IH]; intros f H; simpl.
  - exact H.
  - apply IH. destruct o; simpl.
    + now apply recordBuyTrade_consistent.
    + now apply recordSellTrade_consistent.
Qed.

(** C5 (as the code has it).  After any sequence of buys and sells run from
    the empty ledger in which every buy records a positive token amount (so
    that no cost ratio of the loop is 0/0, which the code computes as NaN),
    the summary read back has totalProfit equal to the sum of the positive
    SELL profits, totalLoss equal to the sum of the absolute values of the
    negative SELL profits, and winRate equal to 100 * (SELL records with
    profit > 0) / (SELL records), which is 0 when there is no SELL record. *)
Theorem summary_consistent (ops : list Op) (Hbuys : Forall positiveBuy ops) :
  let h := getTradingHistory (run ops initialFile) in
  totalProfit (summary h) == sumQ gainOf (trades h)
  /\ totalLoss (summary h) == sumQ lossOf (trades h)
  /\ (sellCount (trades h) = 0%nat -> winRate (summary h) == 0)
  /\ (sellCount (trades h) <> 0%nat ->
      winRate (summary h)
      == 100 * inject_Z (Z.of_nat (winCount (trades h)))
         / inject_Z (Z.of_nat (sellCount (trades h)))).
Proof.
  intros h.
  destruct (run_consistent ops initialFile summaryConsistent_initial) as (Hp & Hl & Hw).
  fold h in Hp, Hl, Hw. unfold winRateOf in Hw.
  split; [exact Hp|]. split; [exact Hl|]. split; intros Hn.
  - rewrite Hn in Hw. exact Hw.
  - apply Nat.eqb_neq in Hn. rewrite Hn in Hw. exact Hw.
Qed.

Lemma summary_consistent_witness :
  let h := getTradingHistory (run (readmeBuys ++ readmeSells) initialFile) in
  totalProfit (summary h) == sumQ gainOf (trades h)
  /\ totalLoss (summary h) == sumQ lossOf (trades h)
  /\ (sellCount (trades h) = 0%nat -> winRate (summary h) == 0)
  /\ (sellCount (trades h) <> 0%nat ->
      winRate (summary h)
      == 100 * inject_Z (Z.of_nat (winCount (trades h)))
         / inject_Z (Z.of_nat (sellCount (trades h)))).
Proof.
  apply (summary_consistent (readmeBuys ++ readmeSells)).
  repeat constructor.
Defined.

(** C5 as stated does not hold of every sequence.  After a buy of 100 tokens
    for 0.1 and their sale for 0.05 (a loss of 0.05), a buy that records 0
    tokens and a sell of 10 tokens: the loop meets the lot of 0 tokens with
    the ratio 0/0, the profit of the sell is NaN, and [totalLoss += NaN]
    leaves totalLoss NaN in memory, which is written as null and reads back
    as nothing, while the losses of the SELL records add up to 0.05. *)
Lemma summary_loses_its_losses :
  PrimFloat.is_nan (B64.totalLoss (B64.summary (fst sellAfterEmptyLot))) = true
  /\ B64.totalLoss (B64.summary (B64.reread (fst sellAfterEmptyLot))) = 0%float
  /\ B64.lossesOf (B64.trades (B64.reread (fst sellAfterEmptyLot))) = (5 / 100)%float
  /\ PrimFloat.ltb 0%float (5 / 100)%float = true.
Proof.
  repeat split; vm_compute; reflexivity.
Qed.

(** ** Conservation of cost *)

Lemma In_insert {A} (l : list A) (i : nat) (x y : A) :
  In x (<[i := y]> l) -> x = y \/ In x l.
Proof.
  revert i. induction l as [|z l IH]; intros [|i] H; simpl in *; try tauto.
  - destruct H as [H|H]; [left; congruence | right; now right].
  - destruct H as [H|H]; [right; now left|].
    destruct (IH i H) as [?|?]; [now left | right; now right].
Qed.

Lemma consumeLot_ledger_cases i b st :
  0 < remainingTokensToSell st ->
  (remainingTokensToSell st < Buy.tokenAmount b
   /\ ledger (consumeLot i b st)
      = <[i := BUY (reducedLot b (remainingTokensToSell st))]> (ledger st)
   /\ totalCost (consumeLot i b st)
      = totalCost st + Used.costUsed (usedOf b (remainingTokensToSell st)))
  \/ (Buy.tokenAmount b <= remainingTokensToSell st
      /\ ledger (consumeLot i b st) = <[i := BUY (soldLot b)]> (ledger st)
      /\ (~ Buy.tokenAmount b == 0 ->
          totalCost (consumeLot i b st) == totalCost st + Buy.bnbAmount b)).
Proof.
  intros Hrem.
  destruct (Qlt_le_dec (remainingTokensToSell st) (Buy.tokenAmount b)) as [Hlt|Hge].
  - left. rewrite consumeLot_partial by exact Hlt. auto.
  - right. split; [exact Hge|]. split; [now apply consumeLot_full|].
    intros Hnz. unfold consumeLot. simpl.
    destruct (min_cases (remainingTokensToSell st) (Buy.tokenAmount b))
      as [[Hle ->]|[_ ->]].
    + assert (E : remainingTokensToSell st == Buy.tokenAmount b) by lra.
      rewrite E. field. exact Hnz.
    + field. exact Hnz.
Qed.

Lemma sellLoop_holdingPositive (addr : string) (ts : list Trade) (x gas : Q) :
  holdingPositive ts ->
  holdingPositive (ledger (sellLoop (buyTrades addr ts) (mkLoop ts x 0 gas []))).
Proof.
  intros Hpos.
  apply (sellLoop_invariant ts (fun s => holdingPositive (ledger s))).
  - apply buyTrades_NoDup.
  - reflexivity.
  - intros s i b HP Hi Hts Hs Hrem b' Hin Hst.
    destruct (consumeLot_ledger_cases i b s Hrem) as [(Hlt & HL & _)|(Hge & HL & _)];
      rewrite HL in Hin; apply In_insert in Hin; destruct Hin as [E|Hin];
      try (now apply HP).
    + injection E as ->. simpl. lra.
    + injection E as ->. discriminate.
  - exact Hpos.
Qed.

Lemma heldCostOf_sold (addr : string) (b : Buy.t) : heldCostOf addr (BUY (soldLot b)) = 0.
Proof.
  unfold heldCostOf. simpl. now rewrite andb_false_r.
Qed.

Lemma heldCostOf_reduced (addr : string) (b : Buy.t) (t : Q) :
  isHoldingBuy addr (BUY b) = true ->
  heldCostOf addr (BUY (reducedLot b t))
  = Buy.bnbAmount b - Buy.bnbAmount b * (t / Buy.tokenAmount b).
Proof.
  intros H. unfold heldCostOf. simpl in *. now rewrite H.
Qed.

Lemma heldCostOf_other (addr : string) (b b' : Buy.t) :
  String.eqb (Buy.tokenAddress b) addr = false ->
  Buy.tokenAddress b' = Buy.tokenAddress b ->
  heldCostOf addr (BUY b) = 0 /\ heldCostOf addr (BUY b') = 0.
Proof.
  intros H E. unfold heldCostOf. simpl. now rewrite E, H.
Qed.

(** A sell of the token moves cost from the lots to [totalCost]. *)
Lemma sellLoop_cost_same (addr : string) (ts : list Trade) (x gas : Q) :
  holdingPositive ts ->
  let st := sellLoop (buyTrades addr ts) (mkLoop ts x 0 gas []) in
  sumQ (heldCostOf addr) (ledger st) + totalCost st == sumQ (heldCostOf addr) ts.
Proof.
  intros Hpos.
  apply (sellLoop_invariant ts
           (fun s => sumQ (heldCostOf addr) (ledger s) + totalCost s
                     == sumQ (heldCostOf addr) ts)).
  - apply buyTrades_NoDup.
  - reflexivity.
  - intros s i b HP Hi Hts Hs Hrem.
    destruct (buyTrades_lookup _ _ _ Hi) as (b0 & Hb0 & Hhold).
    rewrite Hts in Hb0. injection Hb0 as <-.
    assert (Hheld : heldCostOf addr (BUY b) = Buy.bnbAmount b)
      by (unfold heldCostOf; now rewrite Hhold).
    assert (HT : 0 < Buy.tokenAmount b).
    { apply Hpos; [|eapply holding_status; exact Hhold].
      apply list_elem_of_In. eapply list_elem_of_lookup_2. exact Hts. }
    destruct (consumeLot_ledger_cases i b s Hrem) as [(Hlt & -> & ->)|(Hge & -> & Hc)].
    + rewrite (sumQ_insert _ _ _ _ _ Hs), Hheld, (heldCostOf_reduced _ _ _ Hhold).
      simpl. lra.
    + rewrite (sumQ_insert _ _ _ _ _ Hs), Hheld, heldCostOf_sold, Hc by lra. lra.
  - simpl. lra.
Qed.

(** A sell of another token leaves the cost held for the token as it is. *)
Lemma sellLoop_cost_other (addr other : string) (ts : list Trade) (x gas : Q) :
  String.eqb other addr = false ->
  let st := sellLoop (buyTrades other ts) (mkLoop ts x 0 gas []) in
  sumQ (heldCostOf addr) (ledger st) == sumQ (heldCostOf addr) ts.
Proof.
  intros Hne.
  apply (sellLoop_invariant ts
           (fun s => sumQ (heldCostOf addr) (ledger s) == sumQ (heldCostOf addr) ts)).
  - apply buyTrades_NoDup.
  - reflexivity.
  - intros s i b HP Hi Hts Hs Hrem.
    destruct (buyTrades_lookup _ _ _ Hi) as (b0 & Hb0 & Hhold).
    rewrite Hts in Hb0. injection Hb0 as <-.
    assert (Haddr : String.eqb (Buy.tokenAddress b) addr = false).
    { simpl in Hhold. apply andb_true_iff in Hhold. destruct Hhold as [Ha _].
      apply String.eqb_eq in Ha. now rewrite Ha. }
    destruct (consumeLot_ledger_cases i b s Hrem) as [(_ & -> & _)|(_ & -> & _)];
      rewrite (sumQ_insert _ _ _ _ _ Hs).
    + destruct (heldCostOf_other addr b (reducedLot b (remainingTokensToSell s)) Haddr eq_refl)
        as [-> ->]. lra.
    + destruct (heldCostOf_other addr b (soldLot b) Haddr eq_refl) as [-> ->]. lra.
  - simpl. reflexivity.
Qed.

Section Balance.

Variable addr : string.

Lemma recordBuyTrade_balance
    (f : FileContent) (env : Env) (a s : string) (bnb tok price gas : Q) (tx : string) :
  0 < tok ->
  holdingPositive (trades (getTradingHistory f)) ->
  let f1 := fst (recordBuyTrade f env a s bnb tok price gas tx) in
  holdingPositive (trades (getTradingHistory f1))
  /\ costBalance addr (trades (getTradingHistory f1))
     == costBalance addr (trades (getTradingHistory f))
        + buyCostOn addr (OpBuy env a s bnb tok price gas tx).
Proof.
  intros Htok Hpos. unfold recordBuyTrade. simpl buyCostOn.
  destruct (writable env); cbn [fst andb].
  2:{ split; [exact Hpos | lra]. }
  rewrite getTradingHistory_stored. cbn [trades]. split.
  - intros b Hin Hst. apply in_app_or in Hin. destruct Hin as [Hin|[E|[]]].
    + now apply Hpos.
    + injection E as <-. exact Htok.
  - unfold costBalance. rewrite !sumQ_snoc.
    unfold heldCostOf at 2. unfold usedCostOf at 2. cbn [isHoldingBuy Buy.tokenAddress
      Buy.status Status_eqb lotCost Buy.bnbAmount].
    rewrite andb_true_r.
    destruct (String.eqb (JS.toLowerCase a) addr); lra.
Qed.

Lemma recordSellTrade_balance
    (f : FileContent) (env : Env) (a s : string) (tok bnb price gas : Q) (tx : string) :
  holdingPositive (trades (getTradingHistory f)) ->
  let f1 := fst (recordSellTrade f env a s tok bnb price gas tx) in
  holdingPositive (trades (getTradingHistory f1))
  /\ costBalance addr (trades (getTradingHistory f1))
     == costBalance addr (trades (getTradingHistory f)).
Proof.
  intros Hpos.
  destruct (buyTrades (JS.toLowerCase a) (trades (getTradingHistory f))) as [|i rest] eqn:E.
  { rewrite recordSellTrade_null by (now left). split; [exact Hpos | reflexivity]. }
  destruct (writable env) eqn:W.
  2:{ rewrite recordSellTrade_null by (now right). split; [exact Hpos | reflexivity]. }
  rewrite recordSellTrade_recorded by (rewrite ?E; auto; discriminate).
  cbn [fst]. rewrite getTradingHistory_stored.
  unfold historyAfterSell. cbn [trades].
  set (sr := sellRecord f env a s tok bnb price gas tx).
  set (st := sellRun f a tok gas).
  split.
  - intros b Hin Hst. apply in_app_or in Hin. destruct Hin as [Hin|[Hin|[]]]; [|discriminate].
    revert b Hin Hst. apply sellLoop_holdingPositive. exact Hpos.
  - unfold costBalance. rewrite !sumQ_snoc.
    assert (Hused : sumQ (usedCostOf addr) (ledger st)
                    == sumQ (usedCostOf addr) (trades (getTradingHistory f)))
      by (apply (sellLoop_blind_sum (usedCostOf addr)); reflexivity).
    rewrite Hused.
    destruct (sellRun_used f a tok gas) as (Hp & Hc & _ & _). fold st in Hp, Hc.
    change (heldCostOf addr (SELL sr)) with 0.
    unfold usedCostOf at 2.
    change (Sell.tokenAddress sr) with (JS.toLowerCase a).
    change (Sell.buyTradesUsed sr) with (processedBuyTrades st).
    destruct (String.eqb (JS.toLowerCase a) addr) eqn:Ea.
    + apply String.eqb_eq in Ea.
      pose proof (sellLoop_cost_same (JS.toLowerCase a) (trades (getTradingHistory f))
                    tok gas Hpos) as Hsame.
      cbv zeta in Hsame. fold (sellRun f a tok gas) in Hsame. fold st in Hsame.
      rewrite Ea in Hsame. rewrite Hp, <- Hc. lra.
    + pose proof (sellLoop_cost_other addr (JS.toLowerCase a)
                    (trades (getTradingHistory f)) tok gas Ea) as Hother.
      cbv zeta in Hother. fold (sellRun f a tok gas) in Hother. fold st in Hother.
      rewrite Hother. lra.
Qed.

(** The cost recorded for a token by its buys is, at every moment, what its
    HOLDING lots still carry plus what its sells have taken. *)
Lemma run_balance (ops : list Op) : forall f,
  Forall positiveBuy ops ->
  holdingPositive (trades (getTradingHistory f)) ->
  holdingPositive (trades (getTradingHistory (run ops f)))
  /\ costBalance addr (trades (getTradingHistory (run ops f)))
     == costBalance addr (trades (getTradingHistory f)) + sumQ (buyCostOn addr) ops.
Proof.
  induction ops as [|o ops IH]; intros f Hok Hpos; simpl.
  - rewrite sumQ_nil. split; [exact Hpos | lra].
  - inversion Hok as [|? ? Ho Hops]; subst.
    rewrite sumQ_cons.
    destruct o as [env a s bnb tok price gas tx | env a s tok bnb price gas tx]; simpl step.
    + destruct (recordBuyTrade_balance f env a s bnb tok price gas tx Ho Hpos) as [Hp1 Hb1].
      destruct (IH _ Hops Hp1) as [Hp2 Hb2]. split; [exact Hp2|].
      rewrite Hb2, Hb1. lra.
    + destruct (recordSellTrade_balance f env a s tok bnb price gas tx Hpos) as [Hp1 Hb1].
      destruct (IH _ Hops Hp1) as [Hp2 Hb2]. split; [exact Hp2|].
      rewrite Hb2, Hb1. simpl buyCostOn. lra.
Qed.

(** Runs whose buys record positive token amounts keep every HOLDING lot
    positive: no cost ratio of such a run has a zero divisor. *)
Lemma run_holdingPositive (ops : list Op) :
  Forall positiveBuy ops ->
  holdingPositive (trades (getTradingHistory (run ops initialFile))).
Proof.
  intros Hok. apply (run_balance ops initialFile Hok). intros b [].
Qed.

Lemma run_sellsOf (ops : list Op) : forall f,
  Forall (sellsOn addr) ops ->
  sellsOf addr (trades (getTradingHistory f)) ->
  sellsOf addr (trades (getTradingHistory (run ops f))).
Proof.
  induction ops as [|o ops IH]; intros f Hok Hinv; simpl.
  - exact Hinv.
  - inversion Hok as [|? ? Ho Hops]; subst. apply IH; [exact Hops|].
    destruct o as [env a s bnb tok price gas tx | env a s tok bnb price gas tx]; simpl step.
    + unfold recordBuyTrade. destruct (writable env); cbn [fst]; [|exact Hinv].
      rewrite getTradingHistory_stored. cbn [trades].
      intros s0 Hin. apply in_app_or in Hin. destruct Hin as [Hin|[Hin|[]]]; [|discriminate].
      now apply Hinv.
    + destruct (buyTrades (JS.toLowerCase a) (trades (getTradingHistory f)))
        as [|i rest] eqn:E.
      { rewrite recordSellTrade_null by (now left). exact Hinv. }
      destruct (writable env) eqn:W.
      2:{ rewrite recordSellTrade_null by (now right). exact Hinv. }
      rewrite recordSellTrade_recorded by (rewrite ?E; auto; discriminate).
      cbn [fst]. rewrite getTradingHistory_stored.
      unfold historyAfterSell. cbn [trades].
      intros s0 Hin. apply in_app_or in Hin. destruct Hin as [Hin|[Hin|[]]].
      * apply Hinv.
        assert (Hf : In (SELL s0) (List.filter isSell (ledger (sellRun f a tok gas))))
          by (apply filter_In; auto).
        unfold sellRun in Hf. cbv zeta in Hf.
        rewrite sellLoop_blind_filter in Hf by reflexivity.
        apply filter_In in Hf. exact (proj1 Hf).
      * injection Hin as <-. exact Ho.
Qed.

End Balance.

Lemma no_position (f : FileContent) (tokenAddress : string) :
  getTokenPositionInfo f tokenAddress = None <->
  (forall t, In t (trades (getTradingHistory f)) ->
             isHoldingBuy (JS.toLowerCase tokenAddress) t = false).
Proof.
  unfold getTokenPositionInfo.
  set (held := List.filter _ _).
  split.
  - intros H t Ht.
    destruct (isHoldingBuy (JS.toLowerCase tokenAddress) t) eqn:E; [|reflexivity].
    assert (Hin : In t held) by (apply filter_In; auto).
    destruct held; [destruct Hin | discriminate].
  - intros H. unfold held. now rewrite filter_none.
Qed.

(** ** Route selection *)

Lemma pickBest_spec (others : list Candidate) : forall first,
  In (pickBest first others) (first :: others)
  /\ forall c, In c (first :: others) ->
               c_expectedAmount c <= c_expectedAmount (pickBest first others).
Proof.
  unfold pickBest.
  induction others as [|c r IH]; intros first; simpl.
  - split; [now left|]. intros c [<-|[]]. lra.
  - set (next := if JS.gt (c_expectedAmount c) (c_expectedAmount first) then c else first).
    destruct (IH next) as [Hin Hmax].
    assert (Hnext : (next = first \/ next = c)
                    /\ c_expectedAmount first <= c_expectedAmount next
                    /\ c_expectedAmount c <= c_expectedAmount next).
    { unfold next. destruct (JS.gt (c_expectedAmount c) (c_expectedAmount first)) eqn:G.
      - apply gt_true in G. split; [now right|]. lra.
      - apply gt_false in G. split; [now left|]. lra. }
    destruct Hnext as (Hwhich & Hf & Hc).
    pose proof (Hmax next (or_introl eq_refl)) as Hn.
    split.
    + destruct Hin as [<-|Hin].
      * destruct Hwhich as [->| ->]; [now left | right; now left].
      * right. now right.
    + intros c' [<-|[<-|Hc']]; try lra. apply Hmax. now right.
Qed.

Lemma pushIfOk_In (ver : Version) (s : Settled) (c : Candidate) :
  In c (pushIfOk ver s) <->
  exists q, s = Fulfilled (QuoteOk q) /\ c = mkCandidate ver (expectedAmount q) q.
Proof.
  destruct s as [[q|e]|r]; simpl; split.
  - intros [<-|[]]. now exists q.
  - intros (q' & E & ->). injection E as ->. now left.
  - contradiction.
  - intros (q' & E & _). discriminate.
  - contradiction.
  - intros (q' & E & _). discriminate.
Qed.

(** C6.  [getBestRoute] asks for four quotes (V2, and V3 at fees 2500, 500
    and 10000), whatever the direction.  [allQuotes] holds exactly the
    candidates whose call was fulfilled with a successful quote, one entry
    each, so a failed candidate neither appears nor affects the others.  The
    result is a failure exactly when no candidate succeeded; otherwise
    [bestRoute] is the quote of a candidate of [allQuotes] whose expected
    amount is at least that of every other one.  On the quotes V2 100, V3@500
    95, V3@2500 110, V3@10000 failed, it returns the V3 quote at fee 2500 with
    amount 110, and [allQuotes] has the three successful candidates. *)
Theorem getBestRoute_selects_largest
    (getV2Quote : string -> Q -> bool -> Settled)
    (getV3Quote : string -> Q -> bool -> Z -> Settled)
    (tokenAddress : string) (bnbAmount : Q) (isBuy : bool) :
  let candidates :=
    pushIfOk v2 (getV2Quote tokenAddress bnbAmount isBuy)
    ++ pushIfOk v3 (getV3Quote tokenAddress bnbAmount isBuy 2500%Z)
    ++ pushIfOk v3 (getV3Quote tokenAddress bnbAmount isBuy 500%Z)
    ++ pushIfOk v3 (getV3Quote tokenAddress bnbAmount isBuy 10000%Z) in
  let result := getBestRoute getV2Quote getV3Quote tokenAddress bnbAmount isBuy in
  ((exists error, result = RouteError error) <-> candidates = [])
  /\ (forall bestRoute allQuotes comparison,
        result = RouteFound bestRoute allQuotes comparison ->
        allQuotes = candidates
        /\ exists best,
             In best allQuotes
             /\ bestRoute = quote best
             /\ bestPrice comparison = c_expectedAmount best
             /\ expectedAmount bestRoute = c_expectedAmount best
             /\ forall c, In c allQuotes -> c_expectedAmount c <= c_expectedAmount best)
  /\ (forall c, In c candidates <->
        exists ver s q,
          ((ver = v2 /\ s = getV2Quote tokenAddress bnbAmount isBuy)
           \/ (ver = v3 /\ s = getV3Quote tokenAddress bnbAmount isBuy 2500%Z)
           \/ (ver = v3 /\ s = getV3Quote tokenAddress bnbAmount isBuy 500%Z)
           \/ (ver = v3 /\ s = getV3Quote tokenAddress bnbAmount isBuy 10000%Z))
          /\ s = Fulfilled (QuoteOk q)
          /\ c = mkCandidate ver (expectedAmount q) q)
  /\ (exists allQuotes comparison,
        getBestRoute exampleV2 exampleV3 tokenAddress bnbAmount isBuy
        = RouteFound (mkQuote v3 (Some 2500%Z) 110 1000 110000) allQuotes comparison
        /\ map (fun c => (c_version c, fee (quote c), c_expectedAmount c)) allQuotes
           = [(v2, None, 100); (v3, Some 2500%Z, 110); (v3, Some 500%Z, 95)]
        /\ bestPrice comparison = 110).
Proof.
  intros candidates result.
  assert (Hres : result
                 = match candidates with
                   | [] => RouteError "无法获取任何有效报价"
                   | first :: others =>
                       RouteFound (quote (pickBest first others)) candidates
                         (mkComparison (length candidates)
                            (c_expectedAmount (pickBest first others))
                            (if Nat.ltb 1 (length candidates)
                             then (c_expectedAmount (pickBest first others)
                                   - minAmount first others)
                                  / minAmount first others * 100
                             else 0))
                   end).
  { unfold result, getBestRoute, candidates. cbn [flat_map]. rewrite app_nil_r.
    reflexivity. }
  assert (Hmem : forall c, In c candidates <->
            exists ver s q,
              ((ver = v2 /\ s = getV2Quote tokenAddress bnbAmount isBuy)
               \/ (ver = v3 /\ s = getV3Quote tokenAddress bnbAmount isBuy 2500%Z)
               \/ (ver = v3 /\ s = getV3Quote tokenAddress bnbAmount isBuy 500%Z)
               \/ (ver = v3 /\ s = getV3Quote tokenAddress bnbAmount isBuy 10000%Z))
              /\ s = Fulfilled (QuoteOk q)
              /\ c = mkCandidate ver (expectedAmount q) q).
  { intros c. unfold candidates. rewrite !in_app_iff, !pushIfOk_In. split.
    - intros [H|[H|[H|H]]]; destruct H as (q & Hs & Hc);
        eexists _, _, q; (split; [|split; [exact Hs | exact Hc]]); tauto.
    - intros (ver & s & q & Hw & Hs & Hc).
      destruct Hw as [[-> ->]|[[-> ->]|[[-> ->]|[-> ->]]]];
        [left | right; left | right; right; left | right; right; right];
        now exists q. }
  rewrite Hres. clear Hres. clearbody candidates result.
  split; [|split; [|split]].
  - destruct candidates as [|first others]; split.
    + reflexivity.
    + intros _. eexists. reflexivity.
    + intros (e & He). discriminate.
    + discriminate.
  - intros bestRoute allQuotes comparison H.
    destruct candidates as [|first others]; [discriminate|].
    injection H as <- <- <-. split; [reflexivity|].
    destruct (pickBest_spec others first) as [Hin Hmax].
    exists (pickBest first others).
    split; [exact Hin|]. split; [reflexivity|]. split; [reflexivity|].
    split; [|exact Hmax].
    apply Hmem in Hin. destruct Hin as (ver & s & q & _ & _ & ->). reflexivity.
  - exact Hmem.
  - eexists _, _. split; [vm_compute; reflexivity|].
    split; vm_compute; reflexivity.
Qed.

(** ** The minimum-output bound *)

Lemma inject_Z_difference (a b : Z) : inject_Z (a - b) == inject_Z a - inject_Z b.
Proof. unfold Qeq, Qminus, Qplus, Qopp, inject_Z. simpl. lia. Qed.

Lemma BigInt_integer (n : Z) : JS.BigInt (inject_Z n) = Some n.
Proof.
  unfold JS.BigInt. rewrite Qred_identity.
  - reflexivity.
  - simpl. apply Z.gcd_1_r.
Qed.

Lemma BigInt_Qeq (x y : Q) : x == y -> JS.BigInt x = JS.BigInt y.
Proof. intros H. unfold JS.BigInt. now rewrite (Qred_complete x y H). Qed.

Lemma BigInt_some (x : Q) (n : Z) : JS.BigInt x = Some n -> x == inject_Z n.
Proof.
  unfold JS.BigInt. intros H.
  destruct (Pos.eqb (Qden (Qred x)) 1) eqn:E; [|discriminate].
  injection H as <-. apply Pos.eqb_eq in E.
  rewrite <- (Qred_correct x) at 1.
  destruct (Qred x) as [num den]. simpl in *. subst den. reflexivity.
Qed.

(** With a whole-number slippage the bound is the truncated quotient. *)
Lemma amountOutMin_integer (expected percent : Z) :
  amountOutMin expected (mkSettings (inject_Z percent))
  = Some (Z.quot (expected * (100 - percent)) 100).
Proof.
  unfold amountOutMin. simpl slippage.
  rewrite (BigInt_Qeq (100 - inject_Z percent) (inject_Z (100 - percent))).
  - now rewrite BigInt_integer.
  - unfold Qeq, Qminus, Qplus, Qopp, inject_Z. simpl. lia.
Qed.

(** The bound is computed only for whole-number slippages. *)
Lemma amountOutMin_defined (expected : Z) (settings : Settings) :
  (exists bound, amountOutMin expected settings = Some bound) <->
  (exists percent : Z, slippage settings == inject_Z percent).
Proof.
  unfold amountOutMin. split.
  - intros (bound & H).
    destruct (JS.BigInt (100 - slippage settings)) as [keep|] eqn:E; [|discriminate].
    apply BigInt_some in E. exists (100 - keep)%Z.
    rewrite inject_Z_difference. change (inject_Z 100) with (100 # 1). lra.
  - intros (percent & H).
    rewrite (BigInt_Qeq (100 - slippage settings) (inject_Z (100 - percent))).
    + rewrite BigInt_integer. eexists. reflexivity.
    + rewrite H, inject_Z_difference. change (inject_Z 100) with (100 # 1). lra.
Qed.

(** C9 fails on the code for slippages that are not whole numbers.  The
    setting 0.5 is accepted by [handleSlippageSet] (the bot allows 0.1 to 50),
    and with it [BigInt(100 - 0.5)] raises: no bound is computed for an
    expected output of 1000 (the claim gives 995), whereas the setting 5 gives
    950. *)
Theorem fractional_slippage_has_no_bound :
  handleSlippageSet (1 # 2) (mkSettings 5) = mkSettings (1 # 2)
  /\ amountOutMin 1000 (handleSlippageSet (1 # 2) (mkSettings 5)) = None
  /\ (1000 * (100 - (1 # 2)) / 100 == 995)
  /\ amountOutMin 1000 (mkSettings 5) = Some 950%Z.
Proof. repeat split. Qed.

(** ** The statements at the scenarios *)

Lemma recordSellTrade_fifo_witness :
  exists (ts' : list Trade) (s : Sell.t),
    trades (getTradingHistory (fst sellOf50)) = ts' ++ [SELL s]
    /\ map Used.id (Sell.buyTradesUsed s)
       = map Buy.id (firstn (length (Sell.buyTradesUsed s)) (fifoLots afterBuyB cake)).
Proof.
  destruct (recordSellTrade_fifo afterBuyB (fst sellOf50) (mkEnv 3000 3000 true)
              cake "CAKE"%string 50 (14 # 100) (7 # 2) 25000 "0xsell1"%string
              (resultOf sellOf50) eq_refl)
    as (_ & _ & ts' & s & H1 & H2 & _).
  exists ts', s. split; assumption.
Defined.

Lemma recordSellTrade_without_lots_witness :
  snd (recordSellTrade (fst sellOfAll) (mkEnv 3000 3000 true)
         cake "CAKE"%string 10 (2 # 100) 3 25000 "0xsell2"%string) = None
  /\ fst (recordSellTrade (fst sellOfAll) (mkEnv 3000 3000 true)
            cake "CAKE"%string 10 (2 # 100) 3 25000 "0xsell2"%string) = fst sellOfAll.
Proof.
  destruct (recordSellTrade_without_lots (fst sellOfAll) (mkEnv 3000 3000 true)
              cake "CAKE"%string 10 (2 # 100) 3 25000 "0xsell2"%string)
    as (H1 & H2 & _).
  - intros t H. vm_compute in H. destruct H as [<-|[<-|[]]]; reflexivity.
  - split; assumption.
Defined.

(** ** Tokens of the open position *)

Lemma consumeLot_remaining i b st :
  0 < remainingTokensToSell st ->
  (remainingTokensToSell st < Buy.tokenAmount b
   /\ remainingTokensToSell (consumeLot i b st) == 0)
  \/ (Buy.tokenAmount b <= remainingTokensToSell st
      /\ remainingTokensToSell (consumeLot i b st)
         == remainingTokensToSell st - Buy.tokenAmount b).
Proof.
  intros Hrem. unfold consumeLot. simpl.
  destruct (min_cases (remainingTokensToSell st) (Buy.tokenAmount b))
    as [[Hle ->]|[Hlt ->]].
  - destruct (Qlt_le_dec (remainingTokensToSell st) (Buy.tokenAmount b)) as [H|H].
    + left. split; [exact H | lra].
    + right. split; [exact H | lra].
  - right. split; lra.
Qed.

Lemma heldTokensOf_sold (addr : string) (b : Buy.t) :
  heldTokensOf addr (BUY (soldLot b)) = 0.
Proof. unfold heldTokensOf. simpl. now rewrite andb_false_r. Qed.

Lemma heldTokensOf_reduced (addr : string) (b : Buy.t) (t : Q) :
  isHoldingBuy addr (BUY b) = true ->
  heldTokensOf addr (BUY (reducedLot b t)) = Buy.tokenAmount b - t.
Proof. intros H. unfold heldTokensOf. simpl in *. now rewrite H. Qed.

(** What leaves the open position is what the loop has allocated. *)
Lemma sellLoop_tokens (addr : string) (ts : list Trade) (x gas : Q) :
  let st := sellLoop (buyTrades addr ts) (mkLoop ts x 0 gas []) in
  sumQ (heldTokensOf addr) (ledger st) - remainingTokensToSell st
  == sumQ (heldTokensOf addr) ts - x.
Proof.
  apply (sellLoop_invariant ts
           (fun s => sumQ (heldTokensOf addr) (ledger s) - remainingTokensToSell s
                     == sumQ (heldTokensOf addr) ts - x)).
  - apply buyTrades_NoDup.
  - reflexivity.
  - intros s i b HP Hi Hts Hs Hrem.
    destruct (buyTrades_lookup _ _ _ Hi) as (b0 & Hb0 & Hhold).
    rewrite Hts in Hb0. injection Hb0 as <-.
    assert (Hheld : heldTokensOf addr (BUY b) = Buy.tokenAmount b)
      by (unfold heldTokensOf; now rewrite Hhold).
    destruct (consumeLot_ledger_cases i b s Hrem) as [(Hlt & HL & _)|(Hge & HL & _)];
      destruct (consumeLot_remaining i b s Hrem) as [(Hlt' & HR)|(Hge' & HR)];
      try lra; rewrite HL, HR, (sumQ_insert _ _ _ _ _ Hs), Hheld; clear HL HR Hheld.
    + rewrite (heldTokensOf_reduced _ _ _ Hhold). lra.
    + rewrite heldTokensOf_sold. lra.
  - simpl. reflexivity.
Qed.

(** The tokens a sell allocates: the request, capped by what the lots hold. *)
Lemma fifo_total (lots : list Buy.t) : forall x,
  (forall b, In b lots -> 0 < Buy.tokenAmount b) ->
  0 < x ->
  sumQ Used.tokensUsed (fifo lots x) == JS.min x (sumQ Buy.tokenAmount lots).
Proof.
  induction lots as [|b rest IH]; intros x Hpos Hx; simpl.
  - rewrite !sumQ_nil, min_right by exact Hx. reflexivity.
  - assert (Hb : 0 < Buy.tokenAmount b) by (apply Hpos; now left).
    assert (Hrest : forall b', In b' rest -> 0 < Buy.tokenAmount b')
      by (intros; apply Hpos; now right).
    assert (Hsum : 0 <= sumQ Buy.tokenAmount rest)
      by (apply sumQ_nonneg; intros b' Hb'; apply Qlt_le_weak, Hrest, Hb').
    assert (E : JS.le x 0 = false) by (apply le_false; lra).
    rewrite E, !sumQ_cons. cbn [Used.tokensUsed usedOf].
    destruct (min_cases x (Buy.tokenAmount b)) as [[Hle ->]|[Hlt ->]].
    + rewrite fifo_break by (apply le_true; lra).
      rewrite sumQ_nil, min_left by lra. lra.
    + rewrite IH by (auto; lra).
      destruct (min_cases (x - Buy.tokenAmount b) (sumQ Buy.tokenAmount rest))
        as [[H1 ->]|[H1 ->]];
        destruct (min_cases x (Buy.tokenAmount b + sumQ Buy.tokenAmount rest))
          as [[H2 ->]|[H2 ->]]; lra.
Qed.

Lemma heldTokens_lots (f : FileContent) (tokenAddress : string) :
  heldTokens (JS.toLowerCase tokenAddress) f
  == sumQ Buy.tokenAmount (fifoLots f tokenAddress).
Proof.
  unfold heldTokens. rewrite fifoLots_tokens, sumQ_filter. reflexivity.
Qed.

Lemma holdingPositive_lots (f : FileContent) (tokenAddress : string) :
  holdingPositive (trades (getTradingHistory f)) ->
  forall lot, In lot (fifoLots f tokenAddress) -> 0 < Buy.tokenAmount lot.
Proof.
  intros Hpos lot Hlot. apply fifoLots_holding in Hlot. destruct Hlot as [Hin Hh].
  apply Hpos; [exact Hin | eapply holding_status; exact Hh].
Qed.

Lemma heldTokens_nonneg (addr : string) (f : FileContent) :
  holdingPositive (trades (getTradingHistory f)) -> 0 <= heldTokens addr f.
Proof.
  intros Hpos. apply sumQ_nonneg. intros [b|s] Ht; unfold heldTokensOf.
  - destruct (isHoldingBuy addr (BUY b)) eqn:E; [|lra].
    apply Qlt_le_weak, Hpos; [exact Ht | eapply holding_status; exact E].
  - simpl. lra.
Qed.


(** One recorded sell of a positive quantity takes from the open position
    the request, capped by the position. *)
Lemma recordSellTrade_position
    (f : FileContent) (env : Env) (a s : string) (tok bnb price gas : Q) (tx : string) :
  holdingPositive (trades (getTradingHistory f)) ->
  writable env = true -> 0 < tok ->
  heldTokens (JS.toLowerCase a) (fst (recordSellTrade f env a s tok bnb price gas tx))
  == heldTokens (JS.toLowerCase a) f - JS.min tok (heldTokens (JS.toLowerCase a) f).
Proof.
  intros Hpos W Htok.
  destruct (buyTrades (JS.toLowerCase a) (trades (getTradingHistory f))) as [|i rest] eqn:E.
  { rewrite recordSellTrade_null by (now left).
    assert (Hz : heldTokens (JS.toLowerCase a) f == 0).
    { rewrite heldTokens_lots. unfold fifoLots. cbv zeta. rewrite E. reflexivity. }
    cbn [fst]. rewrite Hz, min_right by exact Htok. lra. }
  rewrite recordSellTrade_recorded by (rewrite ?E; auto; discriminate).
  cbn [fst]. unfold heldTokens at 1. rewrite getTradingHistory_stored.
  unfold historyAfterSell. cbn [trades]. rewrite sumQ_snoc.
  change (heldTokensOf (JS.toLowerCase a) (SELL _)) with 0.
  pose proof (sellLoop_tokens (JS.toLowerCase a) (trades (getTradingHistory f)) tok gas)
    as Ht.
  cbv zeta in Ht. fold (sellRun f a tok gas) in Ht.
  destruct (sellRun_used f a tok gas) as (_ & _ & _ & Hr).
  rewrite (fifo_total _ _ (holdingPositive_lots f a Hpos) Htok) in Hr.
  rewrite <- heldTokens_lots in Hr. fold (heldTokens (JS.toLowerCase a) f) in Ht.
  lra.
Qed.

(** ** Statistics and the audit trail of the ledger *)

Lemma sellLoop_length idxs : forall st,
  length (ledger (sellLoop idxs st)) = length (ledger st).
Proof.
  induction idxs as [|i rest IH]; intros st; simpl; [reflexivity|].
  destruct (JS.le (remainingTokensToSell st) 0); [reflexivity|].
  destruct (ledger st !! i) as [[b|s]|]; rewrite IH; try reflexivity.
  unfold consumeLot. simpl. apply length_insert.
Qed.

Lemma step_length (f : FileContent) (o : Op) :
  let n := length (trades (getTradingHistory f)) in
  let n' := length (trades (getTradingHistory (step f o))) in
  (n' = n \/ n' = S n)
  /\ (totalTrades (summary (getTradingHistory f)) = Z.of_nat n ->
      totalTrades (summary (getTradingHistory (step f o))) = Z.of_nat n').
Proof.
  destruct o as [env a s bnb tok price gas tx|env a s tok bnb price gas tx]; cbn [step].
  - unfold recordBuyTrade. destruct (writable env); cbn [fst].
    + rewrite getTradingHistory_stored. cbn [trades summary totalTrades].
      rewrite length_app. simpl length. split; [right; lia | intros ->; lia].
    + split; [now left | auto].
  - destruct (buyTrades (JS.toLowerCase a) (trades (getTradingHistory f))) as [|i rest] eqn:E.
    { rewrite recordSellTrade_null by (now left). split; [now left | auto]. }
    destruct (writable env) eqn:W.
    2:{ rewrite recordSellTrade_null by (now right). split; [now left | auto]. }
    rewrite recordSellTrade_recorded by (rewrite ?E; auto; discriminate).
    cbn [fst]. rewrite getTradingHistory_stored. unfold historyAfterSell.
    cbn [trades summary]. unfold summaryAfterSell. cbn [totalTrades].
    rewrite length_app. unfold sellRun. rewrite sellLoop_length. simpl length.
    split; [right; lia | intros ->; lia].
Qed.

Lemma run_length (ops : list Op) : forall f,
  totalTrades (summary (getTradingHistory f))
  = Z.of_nat (length (trades (getTradingHistory f))) ->
  totalTrades (summary (getTradingHistory (run ops f)))
  = Z.of_nat (length (trades (getTradingHistory (run ops f)))).
Proof.
  induction ops as [|o ops IH]; intros f H; simpl; [exact H|].
  apply IH. now apply (step_length f o).
Qed.

Lemma kinds_partition (ts : list Trade) :
  (length (List.filter isBuy ts) + length (List.filter isSell ts))%nat = length ts.
Proof.
  induction ts as [|[b|s] ts IH]; simpl; lia.
Qed.

Lemma net_profit (ts : list Trade) :
  sumQ gainOf ts - sumQ lossOf ts == sumQ profitOf ts.
Proof.
  induction ts as [|t ts IH]; [reflexivity|].
  rewrite !sumQ_cons.
  assert (E : gainOf t - lossOf t == profitOf t).
  { destruct t as [b|s]; simpl; [lra|].
    destruct (JS.gt (Sell.profit s) 0) eqn:G; destruct (JS.lt (Sell.profit s) 0) eqn:L.
    - apply gt_true in G. unfold JS.lt in L. apply negb_true_iff, le_false in L. lra.
    - lra.
    - unfold JS.lt in L. apply negb_true_iff, le_false in L.
      rewrite Qabs_neg by lra. lra.
    - apply gt_false in G. apply lt_false in L. lra. }
  lra.
Qed.

(** X1.  After any sequence of buys and sells run from the empty ledger in
    which every buy records a positive token amount (so that no cost ratio
    of the loop is 0/0), the statistics of [getTradingStats] agree with the
    records: totalTrades is the number of BUY records plus the number of SELL
    records, netProfit is the sum of the profits of the SELL records, and
    holdingTokens is at most the number of BUY records. *)
Theorem getTradingStats_agree_with_records (ops : list Op)
    (Hbuys : Forall positiveBuy ops) :
  let f := run ops initialFile in
  let stats := getTradingStats f in
  Stats.totalTrades stats = Z.of_nat (Stats.buyTrades stats + Stats.sellTrades stats)
  /\ Stats.netProfit stats == sumQ profitOf (trades (getTradingHistory f))
  /\ (Stats.holdingTokens stats <= Stats.buyTrades stats)%nat.
Proof.
  intros f stats. unfold stats, getTradingStats.
  cbn [Stats.totalTrades Stats.buyTrades Stats.sellTrades Stats.netProfit
       Stats.holdingTokens].
  split; [|split].
  - rewrite kinds_partition. apply run_length. reflexivity.
  - destruct (run_consistent ops initialFile summaryConsistent_initial) as (Hp & Hl & _).
    fold f in Hp, Hl. rewrite Hp, Hl. apply net_profit.
  - apply List.filter_length_le.
Qed.

Lemma getTradingStats_agree_with_records_witness :
  let f := run (readmeBuys ++ readmeSells) initialFile in
  let stats := getTradingStats f in
  Stats.totalTrades stats = Z.of_nat (Stats.buyTrades stats + Stats.sellTrades stats)
  /\ Stats.netProfit stats == sumQ profitOf (trades (getTradingHistory f))
  /\ (Stats.holdingTokens stats <= Stats.buyTrades stats)%nat.
Proof.
  apply (getTradingStats_agree_with_records (readmeBuys ++ readmeSells)).
  repeat constructor.
Defined.

(** ** The position of a token across the operations *)

Lemma position_totals (f : FileContent) (a : string) (p : Position.t) :
  getTokenPositionInfo f a = Some p ->
  Position.totalTokens p == heldTokens (JS.toLowerCase a) f
  /\ Position.totalCost p == heldCost (JS.toLowerCase a) f
  /\ Position.trades p
     = length (List.filter (isHoldingBuy (JS.toLowerCase a)) (trades (getTradingHistory f)))
  /\ buyTrades (JS.toLowerCase a) (trades (getTradingHistory f)) <> [].
Proof.
  unfold getTokenPositionInfo, heldTokens, heldCost.
  destruct (Nat.eqb _ 0) eqn:E; [discriminate|].
  intros H. injection H as <-. cbn [Position.totalTokens Position.totalCost Position.trades].
  split; [apply sumQ_filter|]. split; [apply sumQ_filter|]. split; [reflexivity|].
  intros Hnil. apply Nat.eqb_neq in E. apply E.
  rewrite buyTrades_nil in Hnil. now rewrite filter_none.
Qed.

(** X3.  A recorded sell never changes the cost per token of a lot that is
    still HOLDING afterwards: its bnbAmount and its gasUsed stay in the
    proportion to its tokenAmount that they had before the sell. *)
Theorem recordSellTrade_keeps_unit_cost
    (f f' : FileContent) (env : Env) (a s : string) (tok bnb price gas : Q) (tx : string)
    (res : SellResult.t) (j : nat) (before after : Buy.t) :
  recordSellTrade f env a s tok bnb price gas tx = (f', Some res) ->
  trades (getTradingHistory f) !! j = Some (BUY before) ->
  trades (getTradingHistory f') !! j = Some (BUY after) ->
  Buy.status after = HOLDING ->
  Buy.bnbAmount after * Buy.tokenAmount before
  == Buy.bnbAmount before * Buy.tokenAmount after
  /\ Buy.gasUsed after * Buy.tokenAmount before
     == Buy.gasUsed before * Buy.tokenAmount after.
Proof.
  intros Hsell Hb Ha Hst.
  apply recordSellTrade_inv in Hsell. destruct Hsell as (_ & _ & ->).
  rewrite getTradingHistory_stored in Ha. unfold historyAfterSell in Ha.
  cbn [trades] in Ha. unfold sellRun in Ha.
  destruct (sellLoop_lots (JS.toLowerCase a) (trades (getTradingHistory f)) tok gas
              j before Hb) as (after' & Hl & Hcase).
  rewrite (lookup_app_l_Some _ _ _ _ Hl) in Ha. injection Ha as <-.
  destruct Hcase as [->|[(_ & ->)|(_ & tokens & H0 & Hlt & ->)]].
  - split; reflexivity.
  - discriminate.
  - unfold reducedLot. cbn [Buy.bnbAmount Buy.tokenAmount Buy.gasUsed].
    split; field; intros E; rewrite E in Hlt; lra.
Qed.

Lemma recordSellTrade_keeps_unit_cost_witness :
  let before :=
    Buy.mk 1000 (JS.toLowerCase cake) "CAKE" (1 # 10) 100 (5 # 2) 21000 1000
           "0xbuy1" HOLDING in
  let after := reducedLot before 50 in
  trades (getTradingHistory (fst sellOf50)) !! 0%nat = Some (BUY after)
  /\ Buy.bnbAmount after * 100 == (1 # 10) * Buy.tokenAmount after
  /\ Buy.gasUsed after * 100 == 21000 * Buy.tokenAmount after.
Proof.
  split; [reflexivity|].
  exact (recordSellTrade_keeps_unit_cost afterBuyB (fst sellOf50) (mkEnv 3000 3000 true)
           cake "CAKE" 50 (14 # 100) (7 # 2) 25000 "0xsell1" (resultOf sellOf50) 0
           (Buy.mk 1000 (JS.toLowerCase cake) "CAKE" (1 # 10) 100 (5 # 2) 21000 1000
                   "0xbuy1" HOLDING)
           (reducedLot (Buy.mk 1000 (JS.toLowerCase cake) "CAKE" (1 # 10) 100 (5 # 2)
                               21000 1000 "0xbuy1" HOLDING) 50)
           eq_refl eq_refl eq_refl eq_refl).
Defined.

(** The loop of a sell looks at the lots of its own token only: the HOLDING
    lots of another token are the same records afterwards. *)
Lemma sellLoop_other_lots (addr other : string) (ts : list Trade) (x gas : Q) :
  String.eqb other addr = false ->
  let st := sellLoop (buyTrades other ts) (mkLoop ts x 0 gas []) in
  List.filter (isHoldingBuy addr) (ledger st) = List.filter (isHoldingBuy addr) ts.
Proof.
  intros Hne.
  apply (sellLoop_invariant ts
           (fun s => List.filter (isHoldingBuy addr) (ledger s)
                     = List.filter (isHoldingBuy addr) ts)).
  - apply buyTrades_NoDup.
  - reflexivity.
  - intros s i b HP Hi Hts Hs Hrem.
    destruct (buyTrades_lookup _ _ _ Hi) as (b0 & Hb0 & Hhold).
    rewrite Hts in Hb0. injection Hb0 as <-.
    assert (Haddr : String.eqb (Buy.tokenAddress b) addr = false).
    { simpl in Hhold. apply andb_true_iff in Hhold. destruct Hhold as [Ha _].
      apply String.eqb_eq in Ha. now rewrite Ha. }
    rewrite <- HP.
    destruct (consumeLot_ledger_cases i b s Hrem) as [(_ & -> & _)|(_ & -> & _)];
      apply (filter_insert_blind _ _ _ _ _ Hs); simpl; now rewrite Haddr.
  - reflexivity.
Qed.

(** X4.  An operation on one token leaves the open position of every other
    token as it was: a buy or a sell whose token address differs, in lower
    case, from the address asked for does not change what
    [getTokenPositionInfo] returns for it. *)
Theorem step_other_token (f : FileContent) (o : Op) (tokenAddress : string) :
  JS.toLowerCase (opAddress o) <> JS.toLowerCase tokenAddress ->
  getTokenPositionInfo (step f o) tokenAddress = getTokenPositionInfo f tokenAddress.
Proof.
  intros Hne. apply String.eqb_neq in Hne.
  assert (Hlots : List.filter (isHoldingBuy (JS.toLowerCase tokenAddress))
                    (trades (getTradingHistory (step f o)))
                  = List.filter (isHoldingBuy (JS.toLowerCase tokenAddress))
                      (trades (getTradingHistory f))).
  { destruct o as [env a s bnb tok price gas tx|env a s tok bnb price gas tx];
      cbn [step opAddress] in *.
    - unfold recordBuyTrade. destruct (writable env); cbn [fst]; [|reflexivity].
      rewrite getTradingHistory_stored. cbn [trades]. rewrite filter_snoc.
      cbn [isHoldingBuy Buy.tokenAddress]. rewrite Hne. simpl. apply app_nil_r.
    - destruct (buyTrades (JS.toLowerCase a) (trades (getTradingHistory f)))
        as [|i rest] eqn:E.
      { rewrite recordSellTrade_null by (now left). reflexivity. }
      destruct (writable env) eqn:W.
      2:{ rewrite recordSellTrade_null by (now right). reflexivity. }
      rewrite recordSellTrade_recorded by (rewrite ?E; auto; discriminate).
      cbn [fst]. rewrite getTradingHistory_stored. unfold historyAfterSell.
      cbn [trades]. rewrite filter_snoc. cbn [isHoldingBuy]. rewrite app_nil_r.
      apply sellLoop_other_lots. exact Hne. }
  unfold getTokenPositionInfo. cbv zeta. now rewrite Hlots.
Qed.

Lemma step_other_token_witness :
  getTokenPositionInfo
    (step afterBuyB
       (OpSell (mkEnv 3000 3000 true) cake "CAKE" 50 (14 # 100) (7 # 2) 25000 "0xsell1"))
    "0xBB4CdB9CBd36B01bD1cBaEBF2De08d9173bc095c"
  = getTokenPositionInfo afterBuyB "0xBB4CdB9CBd36B01bD1cBaEBF2De08d9173bc095c".
Proof.
  apply step_other_token. vm_compute. discriminate.
Defined.

Lemma sameEntry_refl (t : Trade) : sameEntry t t.
Proof. destruct t; simpl; auto 10. Qed.

Lemma sameEntry_trans (t1 t2 t3 : Trade) :
  sameEntry t1 t2 -> sameEntry t2 t3 -> sameEntry t1 t3.
Proof.
  destruct t1, t2, t3; simpl; try tauto.
  - intros (? & ? & ? & ? & ? & ?) (? & ? & ? & ? & ? & ?). repeat split; congruence.
  - congruence.
Qed.

Lemma sellLoop_entries (addr : string) (ts : list Trade) (x gas : Q) :
  let st := sellLoop (buyTrades addr ts) (mkLoop ts x 0 gas []) in
  forall j t, ts !! j = Some t -> exists t', ledger st !! j = Some t' /\ sameEntry t t'.
Proof.
  apply (sellLoop_invariant ts
           (fun s => forall j t, ts !! j = Some t ->
                                 exists t', ledger s !! j = Some t' /\ sameEntry t t')).
  - apply buyTrades_NoDup.
  - reflexivity.
  - intros s i b HP Hi Hts Hs Hrem j t Ht.
    destruct (Nat.eq_dec i j) as [<-|Hij].
    + rewrite Hts in Ht. injection Ht as <-.
      assert (Hlen : (i < length (ledger s))%nat) by (eapply lookup_lt_Some; exact Hs).
      destruct (consumeLot_ledger_cases i b s Hrem) as [(_ & -> & _)|(_ & -> & _)];
        rewrite list_lookup_insert_eq by exact Hlen;
        eexists; (split; [reflexivity|]); simpl; auto 10.
    + rewrite consumeLot_other by exact Hij. now apply HP.
  - intros j t Ht. exists t. split; [exact Ht | apply sameEntry_refl].
Qed.

Lemma step_entries (f : FileContent) (o : Op) (j : nat) (t : Trade) :
  trades (getTradingHistory f) !! j = Some t ->
  exists t', trades (getTradingHistory (step f o)) !! j = Some t' /\ sameEntry t t'.
Proof.
  intros Ht.
  destruct o as [env a s bnb tok price gas tx|env a s tok bnb price gas tx]; cbn [step].
  - unfold recordBuyTrade. destruct (writable env); cbn [fst].
    + rewrite getTradingHistory_stored. cbn [trades]. exists t.
      split; [now apply lookup_app_l_Some | apply sameEntry_refl].
    + exists t. split; [exact Ht | apply sameEntry_refl].
  - destruct (buyTrades (JS.toLowerCase a) (trades (getTradingHistory f))) as [|i rest] eqn:E.
    { rewrite recordSellTrade_null by (now left). exists t.
      split; [exact Ht | apply sameEntry_refl]. }
    destruct (writable env) eqn:W.
    2:{ rewrite recordSellTrade_null by (now right). exists t.
        split; [exact Ht | apply sameEntry_refl]. }
    rewrite recordSellTrade_recorded by (rewrite ?E; auto; discriminate).
    cbn [fst]. rewrite getTradingHistory_stored. unfold historyAfterSell. cbn [trades].
    destruct (sellLoop_entries (JS.toLowerCase a) (trades (getTradingHistory f)) tok gas
                j t Ht) as (t' & Hl & Hsame).
    exists t'. split; [|exact Hsame]. apply lookup_app_l_Some. exact Hl.
Qed.

(** X5.  The ledger is an audit trail: whatever buys and sells follow, and
    whether their writes succeed or not, every record stays at its position,
    a SELL record exactly as it was written and a BUY record with the id,
    token, price, timestamp and transaction hash it was written with; and no
    record is removed. *)
Theorem run_keeps_entries (ops : list Op) (f : FileContent) (j : nat) (t : Trade) :
  trades (getTradingHistory f) !! j = Some t ->
  (exists t', trades (getTradingHistory (run ops f)) !! j = Some t' /\ sameEntry t t')
  /\ (length (trades (getTradingHistory f))
      <= length (trades (getTradingHistory (run ops f))))%nat.
Proof.
  revert f t. induction ops as [|o ops IH]; intros f t Ht; simpl.
  - split; [|lia]. exists t. split; [exact Ht | apply sameEntry_refl].
  - destruct (step_entries f o j t Ht) as (t1 & H1 & S1).
    destruct (IH (step f o) t1 H1) as ((t2 & H2 & S2) & Hlen).
    split.
    + exists t2. split; [exact H2 | eapply sameEntry_trans; eassumption].
    + destruct (step_length f o) as [[E|E] _]; cbv zeta in E; lia.
Qed.

Lemma run_keeps_entries_witness :
  (exists t',
      trades (getTradingHistory (run readmeSells afterBuyB)) !! 1%nat = Some t'
      /\ sameEntry
           (BUY (Buy.mk 2000 (JS.toLowerCase cake) "CAKE" (2 # 10) (6667 # 100) 3 21000
                        2000 "0xbuy2" HOLDING)) t')
  /\ (length (trades (getTradingHistory afterBuyB))
      <= length (trades (getTradingHistory (run readmeSells afterBuyB))))%nat.
Proof.
  apply run_keeps_entries. reflexivity.
Defined.

(** X6.  A buy whose write succeeds opens or extends the position of its
    token: the position read back right after it has the tokens and the cost
    of the HOLDING lots there were plus the tokenAmount and the bnbAmount of
    the buy, one lot more than before, and the id returned is the clock
    reading the record was given. *)
Theorem recordBuyTrade_extends_position
    (f : FileContent) (env : Env) (a s : string) (bnb tok price gas : Q) (tx : string) :
  writable env = true ->
  let out := recordBuyTrade f env a s bnb tok price gas tx in
  snd out = Some (now env)
  /\ exists p,
      getTokenPositionInfo (fst out) a = Some p
      /\ Position.totalTokens p == heldTokens (JS.toLowerCase a) f + tok
      /\ Position.totalCost p == heldCost (JS.toLowerCase a) f + bnb
      /\ Position.trades p
         = S (length (List.filter (isHoldingBuy (JS.toLowerCase a))
                        (trades (getTradingHistory f)))).
Proof.
  intros W out. unfold out, recordBuyTrade. rewrite W. cbn [fst snd Buy.id].
  split; [reflexivity|].
  unfold getTokenPositionInfo. rewrite getTradingHistory_stored. cbn [trades].
  rewrite filter_snoc. cbn [isHoldingBuy Buy.tokenAddress Buy.status Status_eqb].
  rewrite String.eqb_refl. cbn [andb].
  rewrite length_app. simpl length. rewrite Nat.add_1_r. cbn [Nat.eqb].
  eexists. split; [reflexivity|].
  cbn [Position.totalTokens Position.totalCost Position.trades].
  rewrite !sumQ_snoc. cbn [lotTokens lotCost Buy.tokenAmount Buy.bnbAmount].
  unfold heldTokens, heldCost.
  split; [|split; [|reflexivity]].
  - rewrite (sumQ_filter (isHoldingBuy (JS.toLowerCase a)) lotTokens). reflexivity.
  - rewrite (sumQ_filter (isHoldingBuy (JS.toLowerCase a)) lotCost). reflexivity.
Qed.

Lemma recordBuyTrade_extends_position_witness :
  snd (recordBuyTrade afterBuyA (mkEnv 2000 2000 true)
         cake "CAKE" (2 # 10) (6667 # 100) 3 21000 "0xbuy2") = Some 2000%Z
  /\ exists p,
      getTokenPositionInfo afterBuyB cake = Some p
      /\ Position.totalTokens p == heldTokens (JS.toLowerCase cake) afterBuyA + (6667 # 100)
      /\ Position.totalCost p == heldCost (JS.toLowerCase cake) afterBuyA + (2 # 10)
      /\ Position.trades p
         = S (length (List.filter (isHoldingBuy (JS.toLowerCase cake))
                        (trades (getTradingHistory afterBuyA)))).
Proof.
  exact (recordBuyTrade_extends_position afterBuyA (mkEnv 2000 2000 true)
           cake "CAKE" (2 # 10) (6667 # 100) 3 21000 "0xbuy2" eq_refl).
Defined.

(** ** The list of traded tokens *)

Lemma lowerAscii_idempotent (c : ascii) : JS.lowerAscii (JS.lowerAscii c) = JS.lowerAscii c.
Proof.
  destruct c as [[] [] [] [] [] [] [] []]; reflexivity.
Qed.

Lemma toLowerCase_idempotent (s : string) :
  JS.toLowerCase (JS.toLowerCase s) = JS.toLowerCase s.
Proof.
  induction s as [|c s IH]; simpl; [reflexivity|].
  now rewrite lowerAscii_idempotent, IH.
Qed.

Lemma includes_In (x : string) (l : list string) : includes x l = true <-> In x l.
Proof.
  induction l as [|y r IH]; simpl.
  - split; [discriminate | tauto].
  - destruct (String.eqb y x) eqn:E.
    + apply String.eqb_eq in E. tauto.
    + apply String.eqb_neq in E. rewrite IH. split; [tauto | intros [H|H]; tauto].
Qed.

Lemma indexOf_None (x : string) (l : list string) : indexOf x l = None <-> ~ In x l.
Proof.
  induction l as [|y r IH]; simpl.
  - tauto.
  - destruct (String.eqb y x) eqn:E.
    + apply String.eqb_eq in E. split; [discriminate | tauto].
    + apply String.eqb_neq in E. destruct (indexOf x r).
      * split; [discriminate|]. intros H.
        assert (Hn : ~ In x r) by tauto. apply IH in Hn. discriminate.
      * split; [|reflexivity]. intros _ [H|H]; [tauto|]. now apply (proj1 IH).
Qed.

Lemma splice_indexOf (x : string) (l : list string) (i : nat) :
  indexOf x l = Some i ->
  (forall y, In y (splice i l) -> In y l)
  /\ (forall y, y <> x -> In y l -> In y (splice i l))
  /\ (List.NoDup l -> List.NoDup (splice i l) /\ ~ In x (splice i l)).
Proof.
  revert i. induction l as [|z r IH]; intros i H; simpl in H; [discriminate|].
  destruct (String.eqb z x) eqn:E.
  - injection H as <-. apply String.eqb_eq in E. subst z. simpl.
    split; [tauto|]. split; [intros y Hy [Hz|Hz]; congruence|].
    intros Hnd. inversion Hnd; subst. tauto.
  - apply String.eqb_neq in E.
    destruct (indexOf x r) as [k|] eqn:K; [|discriminate]. injection H as <-.
    destruct (IH k eq_refl) as (H1 & H2 & H3). simpl.
    split; [intros y [Hy|Hy]; auto|].
    split; [intros y Hy [Hz|Hz]; auto|].
    intros Hnd. inversion Hnd as [|? ? Hz Hr]; subst.
    destruct (H3 Hr) as [Hnd' Hx]. split.
    + constructor; [intros Hin; apply Hz, H1, Hin | exact Hnd'].
    + intros [Hin|Hin]; [congruence | tauto].
Qed.

Lemma NoDup_snoc (x : string) (l : list string) :
  ~ In x l -> List.NoDup l -> List.NoDup (l ++ [x]).
Proof.
  induction l as [|y r IH]; intros Hn Hnd; simpl.
  - repeat constructor. intros [].
  - inversion Hnd as [|? ? Hy Hr]; subst. constructor.
    + intros Hin. apply in_app_or in Hin. destruct Hin as [Hin|[->|[]]]; [tauto|].
      apply Hn. now left.
    + apply IH; [intros H; apply Hn; now right | exact Hr].
Qed.

Lemma tokenStep_invariant (f : TokensFile) (o : TokenOp) :
  List.NoDup (getTradedTokens f) /\
  (forall t, In t (getTradedTokens f) -> JS.toLowerCase t = t) ->
  List.NoDup (getTradedTokens (tokenStep f o)) /\
  (forall t, In t (getTradedTokens (tokenStep f o)) -> JS.toLowerCase t = t).
Proof.
  intros [Hnd Hlow]. destruct o as [w a|w a]; cbn [tokenStep].
  - unfold addTradedToken.
    destruct (includes (JS.toLowerCase a) (getTradedTokens f)) eqn:E; cbn [negb];
      [auto|]. destruct w; [|auto]. cbn [getTradedTokens]. split.
    + apply NoDup_snoc; [|exact Hnd]. intros Hin. apply includes_In in Hin. congruence.
    + intros t Ht. apply in_app_or in Ht. destruct Ht as [Ht|[<-|[]]]; [auto|].
      apply toLowerCase_idempotent.
  - unfold removeTradedToken.
    destruct (indexOf (JS.toLowerCase a) (getTradedTokens f)) as [i|] eqn:E; [|auto].
    destruct w; [|auto]. cbn [getTradedTokens].
    destruct (splice_indexOf _ _ _ E) as (H1 & _ & H3). split.
    + now apply H3.
    + intros t Ht. apply Hlow, H1, Ht.
Qed.

Lemma tokenRun_invariant (ops : list TokenOp) : forall f,
  List.NoDup (getTradedTokens f) /\
  (forall t, In t (getTradedTokens f) -> JS.toLowerCase t = t) ->
  List.NoDup (getTradedTokens (tokenRun ops f)) /\
  (forall t, In t (getTradedTokens (tokenRun ops f)) -> JS.toLowerCase t = t).
Proof.
  induction ops as [|o ops IH]; intros f H; simpl; [exact H|].
  apply IH, tokenStep_invariant, H.
Qed.

Lemma initialTokens_invariant :
  List.NoDup (getTradedTokens initialTokens) /\
  (forall t, In t (getTradedTokens initialTokens) -> JS.toLowerCase t = t).
Proof. split; [constructor | intros t []]. Qed.

(** X7.  Starting from the file the constructor writes, whatever tokens are
    added and removed, and whether the writes succeed or not, the list read
    back holds no address twice and holds every address in lower case. *)
Theorem traded_tokens_distinct_lowercase (ops : list TokenOp) :
  let tokens := getTradedTokens (tokenRun ops initialTokens) in
  List.NoDup tokens /\ (forall t, In t tokens -> JS.toLowerCase t = t).
Proof.
  exact (tokenRun_invariant ops initialTokens initialTokens_invariant).
Qed.

(** X8.  On a list built by the program, adding a token (the write
    succeeding) makes its lower-case address a member, removing it makes it
    absent, and neither changes whether any other address is a member:
    membership does not depend on the case the address is written in. *)
Theorem traded_token_membership (ops : list TokenOp) (tokenAddress : string) :
  let f := tokenRun ops initialTokens in
  In (JS.toLowerCase tokenAddress) (getTradedTokens (addTradedToken f true tokenAddress))
  /\ ~ In (JS.toLowerCase tokenAddress)
          (getTradedTokens (removeTradedToken f true tokenAddress))
  /\ (forall other, other <> JS.toLowerCase tokenAddress ->
        (In other (getTradedTokens (addTradedToken f true tokenAddress))
         <-> In other (getTradedTokens f))
        /\ (In other (getTradedTokens (removeTradedToken f true tokenAddress))
            <-> In other (getTradedTokens f))).
Proof.
  intros f.
  destruct (tokenRun_invariant ops initialTokens initialTokens_invariant) as [Hnd _].
  fold f in Hnd.
  split; [|split].
  - unfold addTradedToken.
    destruct (includes (JS.toLowerCase tokenAddress) (getTradedTokens f)) eqn:E;
      cbn [negb getTradedTokens].
    + now apply includes_In.
    + apply in_or_app. right. now left.
  - unfold removeTradedToken.
    destruct (indexOf (JS.toLowerCase tokenAddress) (getTradedTokens f)) as [i|] eqn:E;
      cbn [getTradedTokens].
    + now apply (splice_indexOf _ _ _ E).
    + now apply indexOf_None.
  - intros other Hne. split.
    + unfold addTradedToken.
      destruct (includes (JS.toLowerCase tokenAddress) (getTradedTokens f));
        cbn [negb getTradedTokens]; [tauto|].
      rewrite in_app_iff. simpl. split; [intros [H|[H|[]]]; congruence | auto].
    + unfold removeTradedToken.
      destruct (indexOf (JS.toLowerCase tokenAddress) (getTradedTokens f)) as [i|] eqn:E;
        cbn [getTradedTokens]; [|tauto].
      destruct (splice_indexOf _ _ _ E) as (H1 & H2 & _). split; auto.
Qed.

Lemma splice_snoc (x : string) (l : list string) :
  ~ In x l -> indexOf x (l ++ [x]) = Some (length l) /\ splice (length l) (l ++ [x]) = l.
Proof.
  induction l as [|y r IH]; intros Hn; simpl.
  - now rewrite String.eqb_refl.
  - destruct (String.eqb y x) eqn:E.
    + apply String.eqb_eq in E. exfalso. apply Hn. now left.
    + destruct IH as [-> ->]; [intros H; apply Hn; now right|]. auto.
Qed.

(** X9.  Adding a token that is not in the list and removing it again, under
    any spelling of the same address, gives back the list there was, in the
    same order; adding a token that is already in the list, under any
    spelling, changes nothing. *)
Theorem traded_token_add_remove (f : TokensFile) (added removed : string) :
  JS.toLowerCase added = JS.toLowerCase removed ->
  (~ In (JS.toLowerCase added) (getTradedTokens f) ->
   getTradedTokens (removeTradedToken (addTradedToken f true added) true removed)
   = getTradedTokens f)
  /\ (In (JS.toLowerCase added) (getTradedTokens f) ->
      addTradedToken f true added = f).
Proof.
  intros Hsame. split; intros Hin.
  - unfold addTradedToken.
    destruct (includes (JS.toLowerCase added) (getTradedTokens f)) eqn:E.
    { apply includes_In in E. contradiction. }
    cbn [negb]. unfold removeTradedToken. cbn [getTradedTokens]. rewrite <- Hsame.
    destruct (splice_snoc _ _ Hin) as [-> ->]. reflexivity.
  - unfold addTradedToken. apply includes_In in Hin. now rewrite Hin.
Qed.

Lemma traded_token_add_remove_witness :
  getTradedTokens
    (removeTradedToken
       (addTradedToken (TokensDocument (Some ["0xaa"%string; "0xbb"%string])) true "0xCC") true "0xcc")
  = ["0xaa"%string; "0xbb"%string]
  /\ addTradedToken (TokensDocument (Some ["0xaa"%string; "0xcc"%string])) true "0xCC"
     = TokensDocument (Some ["0xaa"%string; "0xcc"%string]).
Proof.
  split.
  - apply (traded_token_add_remove (TokensDocument (Some ["0xaa"%string; "0xbb"%string])) "0xCC" "0xcc");
      [reflexivity|].
    simpl. intros [H|[H|[]]]; discriminate.
  - apply (traded_token_add_remove (TokensDocument (Some ["0xaa"%string; "0xcc"%string])) "0xCC" "0xcc");
      [reflexivity|].
    simpl. auto.
Defined.

(** ** The gas price *)

Lemma Math_max_bounds (a b : Q) : a <= Math_max a b /\ b <= Math_max a b.
Proof.
  unfold Math_max. destruct (Qle_bool a b) eqn:E.
  - apply Qle_bool_iff in E. lra.
  - assert (~ a <= b) by (intros H; apply Qle_bool_iff in H; congruence). lra.
Qed.

Lemma clamp_bounds (x lo hi : Q) :
  let r := JS.min (Math_max x lo) hi in
  r <= hi /\ (lo <= hi -> lo <= r).
Proof.
  intros r. destruct (Math_max_bounds x lo) as [_ Hlo].
  unfold r. destruct (min_cases (Math_max x lo) hi) as [[H ->]|[H ->]]; split; lra.
Qed.

(** X10.  A gas price taken from the network or from the gas station never
    exceeds the configured maximum (1 Gwei when none is configured), and is at
    least 0.1 Gwei when the maximum is.  When the network gives no price and
    the station gives none, the result is the configured default (0.1 Gwei
    when none is configured) as it stands: the maximum does not apply
    to it. *)
Theorem getDynamicGasPrice_bounds
    (config : GasConfig) (fee : FeeReply) (station : StationReply) :
  let maxGasPrice := orElse (weiToGwei (MAX_GAS_PRICE config)) 1 in
  let fromNetwork := exists wei, fee = FeeData (Some wei) /\ wei <> 0%Z in
  let fromStation := exists standard, station = StationData (Some standard)
                                      /\ ~ standard == 0 in
  let price := getDynamicGasPrice config fee station in
  (fromNetwork \/ fromStation ->
   price <= maxGasPrice /\ ((1 # 10) <= maxGasPrice -> (1 # 10) <= price))
  /\ (~ fromNetwork -> ~ fromStation ->
      price = orElse (weiToGwei (DEFAULT_GAS_PRICE config)) (1 # 10)).
Proof.
  intros maxGasPrice fromNetwork fromStation price.
  unfold price, getDynamicGasPrice. fold maxGasPrice.
  destruct fee as [|[wei|]].
  2:{ destruct (Z.eqb wei 0) eqn:E.
      - apply Z.eqb_eq in E. subst wei.
        destruct station as [|[standard|]].
        2:{ destruct (Qeq_bool standard 0) eqn:S.
            - apply Qeq_bool_iff in S. split.
              + intros [(w & Hw & Hn)|(s' & Hs & Hn)].
                * injection Hw as <-. contradiction.
                * injection Hs as <-. contradiction.
              + reflexivity.
            - split; [intros _; apply clamp_bounds|].
              intros _ Hst. exfalso. apply Hst. exists standard. split; [reflexivity|].
              intros Hz. apply Qeq_bool_iff in Hz. congruence. }
        all: split; [|reflexivity];
          intros [(w & Hw & Hn)|(s' & Hs & Hn)]; try discriminate;
          injection Hw as <-; contradiction.
      - apply Z.eqb_neq in E. split; [intros _; apply clamp_bounds|].
        intros Hnet. exfalso. apply Hnet. now exists wei. }
  all: destruct station as [|[standard|]].
  all: try (split; [|reflexivity];
            intros [(w & Hw & Hn)|(s' & Hs & Hn)]; discriminate).
  all: destruct (Qeq_bool standard 0) eqn:S.
  all: try (apply Qeq_bool_iff in S; split; [|reflexivity];
            intros [(w & Hw & Hn)|(s' & Hs & Hn)]; try discriminate;
            injection Hs as <-; contradiction).
  all: split; [intros _; apply clamp_bounds|];
    intros _ Hst; exfalso; apply Hst; exists standard; split; [reflexivity|];
    intros Hz; apply Qeq_bool_iff in Hz; congruence.
Qed.

(** ** The validation of a trading path *)

Lemma ratio_threshold (outputAmount : Z) :
  JS.lt (inject_Z outputAmount / inject_Z testAmount) (1 # 10000) = false
  <-> (100000000000 <= outputAmount)%Z.
Proof.
  rewrite lt_false. unfold Qle, Qdiv, Qmult, Qinv, inject_Z, testAmount. simpl. lia.
Qed.

Lemma slippage_threshold (outputAmount largerOutput : Z) :
  (0 < outputAmount)%Z ->
  let ratio := inject_Z outputAmount / inject_Z testAmount in
  let largerRatio := inject_Z largerOutput / inject_Z largerTestAmount in
  JS.gt (JS.abs (ratio - largerRatio) / ratio) (1 # 2) = false
  <-> (5 * outputAmount <= largerOutput <= 15 * outputAmount)%Z.
Proof.
  intros Hpos ratio largerRatio. rewrite gt_false. unfold JS.abs.
  assert (Hr : ratio == inject_Z outputAmount * (1 # 1000000000000000)).
  { unfold ratio, testAmount. change (inject_Z 1000000000000000) with (1000000000000000 # 1).
    field. }
  assert (HR : largerRatio == inject_Z largerOutput * (1 # 10000000000000000)).
  { unfold largerRatio, largerTestAmount.
    change (inject_Z 10000000000000000) with (10000000000000000 # 1). field. }
  assert (Ho : 0 < inject_Z outputAmount).
  { change 0 with (inject_Z 0). rewrite <- Zlt_Qlt. exact Hpos. }
  assert (Hrpos : 0 < ratio) by (rewrite Hr; lra).
  assert (Hdiv : Qabs (ratio - largerRatio) / ratio <= 1 # 2
                 <-> Qabs (ratio - largerRatio) <= ratio * (1 # 2)).
  { set (x := Qabs (ratio - largerRatio)).
    assert (E : x / ratio * ratio == x) by (field; lra).
    split; intros H.
    - rewrite <- E. apply Qmult_le_compat_r with (z := ratio) in H; lra.
    - apply Qle_shift_div_r; lra. }
  rewrite Hdiv, Qabs_Qle_condition, Hr, HR.
  assert (E5 : inject_Z (5 * outputAmount) == 5 * inject_Z outputAmount)
    by (rewrite inject_Z_mult; reflexivity).
  assert (E15 : inject_Z (15 * outputAmount) == 15 * inject_Z outputAmount)
    by (rewrite inject_Z_mult; reflexivity).
  rewrite (Zle_Qle (5 * outputAmount)), (Zle_Qle largerOutput), E5, E15.
  split; intros [H1 H2]; split; lra.
Qed.

(** X11.  On the V2 side a token passes [validateTradingPath] whenever the
    quote for 0.001 BNB and the quote for 0.01 BNB both answer, the first
    gives at least 10^11 units of the token, and the second gives between
    5.001 and 14.999 times the first; and it passes only when both answer,
    the first gives at least 10^11 units and the second between 4.999 and
    15.001 times the first (at 5 and 15 times themselves the rounding of the
    two ratios decides).  So a token whose V2 quote reverts never passes,
    whether it has a V3 pool or not.  On the V3 side it passes exactly when
    [slot0] of the pool of the fee tier answers. *)
Theorem validateTradingPath_valid
    (getAmountsOut : Z -> option Z) (probePool : Z -> PoolProbe) (fee : Z) :
  ((exists outputAmount largerOutput,
       getAmountsOut testAmount = Some outputAmount
       /\ getAmountsOut largerTestAmount = Some largerOutput
       /\ (100000000000 <= outputAmount)%Z
       /\ (5001 * outputAmount <= 1000 * largerOutput <= 14999 * outputAmount)%Z)
   -> validateTradingPath getAmountsOut probePool false fee = PathValid)
  /\ (validateTradingPath getAmountsOut probePool false fee = PathValid
      -> exists outputAmount largerOutput,
           getAmountsOut testAmount = Some outputAmount
           /\ getAmountsOut largerTestAmount = Some largerOutput
           /\ (100000000000 <= outputAmount)%Z
           /\ (4999 * outputAmount <= 1000 * largerOutput <= 15001 * outputAmount)%Z)
  /\ (getAmountsOut testAmount = None
      -> validateTradingPath getAmountsOut probePool false fee <> PathValid)
  /\ (validateTradingPath getAmountsOut probePool true fee = PathValid
      <-> probePool fee = PoolAnswers).
Proof.
  split; [|split; [|split]].
  - intros (o & L & E1 & E2 & Ho & Hb).
    unfold validateTradingPath. rewrite E1.
    assert (Hz : (0 < o)%Z) by lia.
    destruct (Z.leb o 0) eqn:Hle; [apply Z.leb_le in Hle; lia|].
    rewrite (proj2 (ratio_threshold o) Ho), E2. cbv zeta.
    rewrite (proj2 (slippage_threshold o L Hz)) by lia. reflexivity.
  - unfold validateTradingPath.
    destruct (getAmountsOut testAmount) as [o|] eqn:E1;
      [|destruct (existsb _ _); discriminate].
    destruct (Z.leb o 0) eqn:Hz; [discriminate|]. apply Z.leb_gt in Hz.
    destruct (JS.lt (inject_Z o / inject_Z testAmount) (1 # 10000)) eqn:Hlow;
      [discriminate|].
    apply ratio_threshold in Hlow.
    destruct (getAmountsOut largerTestAmount) as [L|] eqn:E2; [|discriminate].
    cbv zeta. destruct (JS.gt _ (1 # 2)) eqn:Hs; [discriminate|].
    apply (slippage_threshold o L Hz) in Hs.
    intros _. exists o, L. repeat split; try assumption; lia.
  - intros E1. unfold validateTradingPath. rewrite E1.
    destruct (existsb _ _); discriminate.
  - unfold validateTradingPath. destruct (probePool fee); split; congruence.
Qed.

(** ** The two selectors of a route *)

(** X12.  [getBestPriceStrategy] fails exactly when neither the V2 quote nor
    the V3 quote at fee 2500 is a successful one.  Otherwise it reports both
    quotes as it kept them, and its best price is one of them, with an
    expected amount at least that of the other; it names V2 only when the V2
    amount is strictly larger, so that equal amounts go to V3, and it does so
    in the same way for a buy and for a sell. *)
Theorem getBestPriceStrategy_selects
    (getV2Quote : string -> Q -> bool -> Settled)
    (getV3Quote : string -> Q -> bool -> Z -> Settled)
    (tokenAddress : string) (bnbAmount : Q) (isBuy : bool) :
  let kept2 := keptQuote (getV2Quote tokenAddress bnbAmount isBuy) in
  let kept3 := keptQuote (getV3Quote tokenAddress bnbAmount isBuy 2500%Z) in
  match getBestPriceStrategy getV2Quote getV3Quote tokenAddress bnbAmount isBuy with
  | StrategyError _ => kept2 = None /\ kept3 = None
  | StrategyFound results_v2 results_v3 bestStrategy bestPrice _ =>
      results_v2 = kept2 /\ results_v3 = kept3
      /\ ((bestStrategy = v2 /\ kept2 = Some bestPrice)
          \/ (bestStrategy = v3 /\ kept3 = Some bestPrice))
      /\ (forall q, kept2 = Some q \/ kept3 = Some q ->
                    expectedAmount q <= expectedAmount bestPrice)
      /\ (bestStrategy = v2 ->
          forall q, kept3 = Some q -> expectedAmount q < expectedAmount bestPrice)
  end.
Proof.
  intros kept2 kept3. unfold getBestPriceStrategy. fold kept2 kept3.
  destruct kept2 as [q2|], kept3 as [q3|].
  - assert (Hsame : (if isBuy
                     then if JS.gt (expectedAmount q2) (expectedAmount q3)
                          then StrategyFound (Some q2) (Some q3) v2 q2
                                 (V2Better ((expectedAmount q2 - expectedAmount q3)
                                            / expectedAmount q3 * 100))
                          else StrategyFound (Some q2) (Some q3) v3 q3
                                 (V3Better ((expectedAmount q3 - expectedAmount q2)
                                            / expectedAmount q2 * 100))
                     else if JS.gt (expectedAmount q2) (expectedAmount q3)
                          then StrategyFound (Some q2) (Some q3) v2 q2
                                 (V2Better ((expectedAmount q2 - expectedAmount q3)
                                            / expectedAmount q3 * 100))
                          else StrategyFound (Some q2) (Some q3) v3 q3
                                 (V3Better ((expectedAmount q3 - expectedAmount q2)
                                            / expectedAmount q2 * 100)))
                    = if JS.gt (expectedAmount q2) (expectedAmount q3)
                      then StrategyFound (Some q2) (Some q3) v2 q2
                             (V2Better ((expectedAmount q2 - expectedAmount q3)
                                        / expectedAmount q3 * 100))
                      else StrategyFound (Some q2) (Some q3) v3 q3
                             (V3Better ((expectedAmount q3 - expectedAmount q2)
                                        / expectedAmount q2 * 100)))
      by (destruct isBuy; reflexivity).
    cbv zeta. rewrite Hsame.
    destruct (JS.gt (expectedAmount q2) (expectedAmount q3)) eqn:G.
    + apply gt_true in G. repeat split; auto.
      * intros q [H|H]; injection H as <-; lra.
      * intros _ q H. injection H as <-. exact G.
    + apply gt_false in G. repeat split; auto.
      * intros q [H|H]; injection H as <-; lra.
      * discriminate.
  - repeat split; auto.
    + intros q [H|H]; [injection H as <-; lra | discriminate].
    + intros _ q H. discriminate.
  - repeat split; auto.
    + intros q [H|H]; [discriminate | injection H as <-; lra].
    + discriminate.
  - split; reflexivity.
Qed.

Lemma keptQuote_candidate (ver : Version) (s : Settled) (q : Quote) :
  keptQuote s = Some q -> pushIfOk ver s = [mkCandidate ver (expectedAmount q) q].
Proof.
  destruct s as [[q'|e]|r]; simpl; intros H; try discriminate. now injection H as <-.
Qed.

Lemma getBestRoute_at_least
    (getV2Quote : string -> Q -> bool -> Settled)
    (getV3Quote : string -> Q -> bool -> Z -> Settled)
    (tokenAddress : string) (bnbAmount : Q) (isBuy : bool) (q : Quote) :
  keptQuote (getV2Quote tokenAddress bnbAmount isBuy) = Some q
  \/ keptQuote (getV3Quote tokenAddress bnbAmount isBuy 2500%Z) = Some q ->
  exists bestRoute allQuotes comparison,
    getBestRoute getV2Quote getV3Quote tokenAddress bnbAmount isBuy
    = RouteFound bestRoute allQuotes comparison
    /\ expectedAmount q <= expectedAmount bestRoute.
Proof.
  intros Hq. unfold getBestRoute. cbv zeta.
  set (quotes := pushIfOk v2 _ ++ flat_map (pushIfOk v3) _).
  assert (Hin : In (mkCandidate v2 (expectedAmount q) q) quotes
                \/ In (mkCandidate v3 (expectedAmount q) q) quotes).
  { unfold quotes. destruct Hq as [H|H].
    - left. apply in_or_app. left. rewrite (keptQuote_candidate v2 _ q H). now left.
    - right. apply in_or_app. right. simpl.
      rewrite (keptQuote_candidate v3 _ q H). now left. }
  assert (Hall : forall c, In c quotes -> c_expectedAmount c = expectedAmount (quote c)).
  { intros c Hc. unfold quotes in Hc. apply in_app_or in Hc.
    destruct Hc as [Hc|Hc].
    - apply pushIfOk_In in Hc. destruct Hc as (q' & _ & ->). reflexivity.
    - apply in_flat_map in Hc. destruct Hc as (s & _ & Hc).
      apply pushIfOk_In in Hc. destruct Hc as (q' & _ & ->). reflexivity. }
  destruct quotes as [|first others] eqn:E.
  { destruct Hin as [[]|[]]. }
  destruct (pickBest_spec others first) as [Hbest Hmax].
  do 3 eexists. split; [reflexivity|].
  rewrite <- (Hall _ Hbest).
  destruct Hin as [Hin|Hin]; apply Hmax in Hin; exact Hin.
Qed.

(** X13.  [getBestRoute] never does worse than [getBestPriceStrategy] on the
    same quotes: whenever the strategy finds a price, [getBestRoute] finds a
    route, and the expected amount of its best route is at least that of the
    strategy's best price. *)
Theorem getBestRoute_at_least_getBestPriceStrategy
    (getV2Quote : string -> Q -> bool -> Settled)
    (getV3Quote : string -> Q -> bool -> Z -> Settled)
    (tokenAddress : string) (bnbAmount : Q) (isBuy : bool) :
  match getBestPriceStrategy getV2Quote getV3Quote tokenAddress bnbAmount isBuy with
  | StrategyError _ => True
  | StrategyFound _ _ _ bestPrice _ =>
      exists bestRoute allQuotes comparison,
        getBestRoute getV2Quote getV3Quote tokenAddress bnbAmount isBuy
        = RouteFound bestRoute allQuotes comparison
        /\ expectedAmount bestPrice <= expectedAmount bestRoute
  end.
Proof.
  pose proof (getBestRoute_at_least getV2Quote getV3Quote tokenAddress bnbAmount isBuy)
    as Hroute.
  unfold getBestPriceStrategy. cbv zeta.
  destruct (keptQuote (getV2Quote tokenAddress bnbAmount isBuy)) as [q2|];
    destruct (keptQuote (getV3Quote tokenAddress bnbAmount isBuy 2500%Z)) as [q3|];
    [| apply Hroute; now left | apply Hroute; now right | exact I].
  destruct isBuy; destruct (JS.gt (expectedAmount q2) (expectedAmount q3));
    apply Hroute; auto.
Qed.

(** ** Splitting a long message *)

Lemma trimStart_length (s : list N) : (length (trimStart s) <= length s)%nat.
Proof.
  induction s as [|c r IH]; simpl; [lia|]. destruct (isWhiteSpace c); simpl; lia.
Qed.

Lemma trimEnd_length (s : list N) : (length (trimEnd s) <= length s)%nat.
Proof.
  unfold trimEnd. rewrite length_rev.
  etransitivity; [apply trimStart_length|]. now rewrite length_rev.
Qed.

Lemma trim_length (s : list N) : (length (trim s) <= length s)%nat.
Proof.
  unfold trim. etransitivity; [apply trimEnd_length | apply trimStart_length].
Qed.

Lemma trimStart_app (s t : list N) :
  trimStart (s ++ t) = match trimStart s with [] => trimStart t | _ :: _ => trimStart s ++ t end.
Proof.
  induction s as [|c r IH]; simpl; [reflexivity|].
  destruct (isWhiteSpace c); [exact IH | reflexivity].
Qed.

Lemma trimEnd_snoc (s : list N) (c : N) : isWhiteSpace c = true -> trimEnd (s ++ [c]) = trimEnd s.
Proof.
  intros H. unfold trimEnd. rewrite rev_app_distr. simpl. now rewrite H.
Qed.

Lemma trim_line (line : list N) : (length (trim (line ++ [newline])) <= length line)%nat.
Proof.
  unfold trim. rewrite trimStart_app.
  destruct (trimStart line) as [|c r] eqn:E.
  - simpl. lia.
  - rewrite <- E, trimEnd_snoc by reflexivity.
    etransitivity; [apply trimEnd_length | apply trimStart_length].
Qed.

Lemma visible_app (s t : list N) : visible (s ++ t) = visible s ++ visible t.
Proof. apply List.filter_app. Qed.

Lemma visible_trimStart (s : list N) : visible (trimStart s) = visible s.
Proof.
  induction s as [|c r IH]; simpl; [reflexivity|].
  destruct (isWhiteSpace c) eqn:E; simpl; [exact IH | now rewrite E].
Qed.

Lemma visible_rev (s : list N) : visible (rev s) = rev (visible s).
Proof.
  induction s as [|c r IH]; simpl; [reflexivity|].
  rewrite visible_app, IH. simpl. destruct (isWhiteSpace c); simpl; [apply app_nil_r | reflexivity].
Qed.

Lemma visible_trim (s : list N) : visible (trim s) = visible s.
Proof.
  unfold trim, trimEnd.
  now rewrite visible_rev, visible_trimStart, visible_rev, rev_involutive, visible_trimStart.
Qed.

Lemma splitLines_join (s : list N) :
  concat (map (fun line => line ++ [newline]) (splitLines s)) = s ++ [newline].
Proof.
  induction s as [|c r IH]; simpl; [reflexivity|].
  destruct (N.eqb c newline) eqn:E.
  - apply N.eqb_eq in E. subst c. simpl. now rewrite IH.
  - destruct (splitLines r) as [|line lines]; simpl in *.
    + destruct r; discriminate.
    + now rewrite IH.
Qed.

Lemma splitStep_bounded (maxLength : nat) (chunks : list (list N)) (cur line : list N) :
  (length line <= maxLength)%nat ->
  List.Forall (fun chunk => (length chunk <= maxLength)%nat) chunks ->
  (length (trim cur) <= maxLength)%nat ->
  let st := splitStep maxLength (chunks, cur) line in
  List.Forall (fun chunk => (length chunk <= maxLength)%nat) (fst st)
  /\ (length (trim (snd st)) <= maxLength)%nat.
Proof.
  intros Hline Hchunks Hcur. unfold splitStep.
  destruct (Nat.ltb maxLength (length (cur ++ line ++ [newline]))) eqn:E.
  - destruct cur as [|c r]; cbn [fst snd].
    + split; [exact Hchunks|]. simpl app. pose proof (trim_line line). lia.
    + split.
      * apply List.Forall_app. split; [exact Hchunks|]. constructor; [exact Hcur | constructor].
      * simpl app. pose proof (trim_line line). lia.
  - apply Nat.ltb_ge in E. cbn [fst snd]. split; [exact Hchunks|].
    pose proof (trim_length (cur ++ line ++ [newline])). lia.
Qed.

Lemma fold_splitStep_bounded (maxLength : nat) (lines : list (list N)) :
  forall chunks cur,
    List.Forall (fun line => (length line <= maxLength)%nat) lines ->
    List.Forall (fun chunk => (length chunk <= maxLength)%nat) chunks ->
    (length (trim cur) <= maxLength)%nat ->
    let st := fold_left (splitStep maxLength) lines (chunks, cur) in
    List.Forall (fun chunk => (length chunk <= maxLength)%nat) (fst st)
    /\ (length (trim (snd st)) <= maxLength)%nat.
Proof.
  induction lines as [|line lines IH]; intros chunks cur Hlines Hchunks Hcur;
    cbn [fold_left].
  - auto.
  - inversion Hlines as [|? ? Hline Hrest]; subst.
    destruct (splitStep_bounded maxLength chunks cur line Hline Hchunks Hcur) as [H1 H2].
    cbv zeta in H1, H2.
    destruct (splitStep maxLength (chunks, cur) line) as [chunks' cur'].
    cbn [fst snd] in H1, H2. apply IH; assumption.
Qed.

(** X14.  When no line of the message is longer than [maxLength], no chunk
    returned by [splitMessage] is longer than [maxLength]. *)
Theorem splitMessage_bounded (message : list N) (maxLength : nat) :
  List.Forall (fun line => (length line <= maxLength)%nat) (splitLines message) ->
  List.Forall (fun chunk => (length chunk <= maxLength)%nat) (splitMessage message maxLength).
Proof.
  intros Hlines. unfold splitMessage. cbv zeta.
  pose proof (fold_splitStep_bounded maxLength (splitLines message) [] [] Hlines
                (List.Forall_nil _) (Nat.le_0_l _)) as H.
  cbv zeta in H.
  destruct (fold_left (splitStep maxLength) (splitLines message) ([], [])) as [chunks cur].
  cbn [fst snd] in H. destruct H as [H1 H2].
  destruct (trim cur) as [|c r] eqn:E; [exact H1|].
  apply List.Forall_app. split; [exact H1|]. constructor; [exact H2 | constructor].
Qed.

Lemma splitMessage_bounded_witness :
  List.Forall (fun chunk => (length chunk <= 4)%nat)
              (splitMessage [97; 98; 10; 99; 100; 101; 10; 102]%N 4).
Proof.
  apply splitMessage_bounded. repeat constructor.
Defined.

Lemma splitStep_visible (maxLength : nat) (chunks : list (list N)) (cur line : list N) :
  let st := splitStep maxLength (chunks, cur) line in
  concat (map visible (fst st)) ++ visible (snd st)
  = concat (map visible chunks) ++ visible cur ++ visible (line ++ [newline]).
Proof.
  unfold splitStep.
  destruct (Nat.ltb maxLength (length (cur ++ line ++ [newline]))).
  - destruct cur as [|c r]; cbn [fst snd].
    + reflexivity.
    + rewrite map_app, concat_app. cbn [map concat]. rewrite visible_trim, app_nil_r.
      simpl app at 3. now rewrite <- app_assoc.
  - cbn [fst snd]. now rewrite visible_app.
Qed.

Lemma fold_splitStep_visible (maxLength : nat) (lines : list (list N)) :
  forall chunks cur,
    let st := fold_left (splitStep maxLength) lines (chunks, cur) in
    concat (map visible (fst st)) ++ visible (snd st)
    = concat (map visible chunks) ++ visible cur
      ++ visible (concat (map (fun line => line ++ [newline]) lines)).
Proof.
  induction lines as [|line lines IH]; intros chunks cur; cbn [fold_left map concat].
  - cbn [fst snd visible List.filter]. now rewrite !app_nil_r.
  - pose proof (splitStep_visible maxLength chunks cur line) as Hstep. cbv zeta in Hstep.
    destruct (splitStep maxLength (chunks, cur) line) as [chunks' cur'].
    cbn [fst snd] in Hstep. rewrite IH.
    rewrite app_assoc, Hstep, !visible_app, <- !app_assoc. reflexivity.
Qed.

(** X15.  [splitMessage] loses nothing but white space: whatever the
    message and the length asked for, the code units of the chunks that are
    not white space are, chunk after chunk, those of the message, each once
    and in the same order. *)
Theorem splitMessage_keeps_text (message : list N) (maxLength : nat) :
  concat (map visible (splitMessage message maxLength)) = visible message.
Proof.
  unfold splitMessage. cbv zeta.
  pose proof (fold_splitStep_visible maxLength (splitLines message) [] []) as H.
  cbv zeta in H.
  destruct (fold_left (splitStep maxLength) (splitLines message) ([], [])) as [chunks cur].
  cbn [fst snd] in H. simpl in H.
  rewrite splitLines_join, visible_app in H. simpl in H. rewrite app_nil_r in H.
  rewrite <- H.
  destruct (trim cur) as [|c r] eqn:E.
  - rewrite <- (visible_trim cur), E. simpl. now rewrite app_nil_r.
  - rewrite map_app, concat_app. cbn [map concat]. rewrite <- E, visible_trim.
    now rewrite app_nil_r.
Qed.

(** ** The minimum-output bound for a whole-number slippage *)

Lemma handleSlippageSet_accepts (value : Q) (settings : Settings) :
  (1 # 10) <= value -> value <= 50 -> handleSlippageSet value settings = mkSettings value.
Proof.
  intros Hlo Hhi. unfold handleSlippageSet.
  assert (E1 : JS.lt value (1 # 10) = false) by now apply lt_false.
  assert (E2 : JS.gt value 50 = false) by now apply gt_false.
  now rewrite E1, E2.
Qed.

Lemma amountOutMin_floor (expected percent : Z) (settings : Settings) :
  (0 <= expected)%Z -> (1 <= percent <= 50)%Z ->
  amountOutMin expected (handleSlippageSet (inject_Z percent) settings)
  = Some (expected * (100 - percent) / 100)%Z.
Proof.
  intros Hexp [Hlo Hhi].
  rewrite handleSlippageSet_accepts.
  2:{ apply Qle_trans with (inject_Z 1); [unfold Qle; simpl; lia|]. now rewrite <- Zle_Qle. }
  2:{ change 50 with (inject_Z 50). now rewrite <- Zle_Qle. }
  rewrite amountOutMin_integer. now rewrite Z.quot_div_nonneg by nia.
Qed.

(** X16.  For a slippage set to a whole number of percent between 1 and 50,
    which [handleSlippageSet] accepts, the minimum output of a buy is
    defined: it is expected * (100 - percent) / 100 rounded down, so it lies
    between 0 and the expected amount, and it is never less than half of the
    expected amount, rounded down. *)
Theorem amountOutMin_whole_percent (expected percent : Z) (settings : Settings) :
  (0 <= expected)%Z -> (1 <= percent <= 50)%Z ->
  exists bound,
    amountOutMin expected (handleSlippageSet (inject_Z percent) settings) = Some bound
    /\ (100 * bound <= expected * (100 - percent) < 100 * (bound + 1))%Z
    /\ (0 <= bound <= expected)%Z
    /\ (expected <= 2 * bound + 1)%Z.
Proof.
  intros Hexp Hp.
  rewrite (amountOutMin_floor expected percent settings Hexp Hp).
  eexists. split; [reflexivity|].
  pose proof (Z.div_mod (expected * (100 - percent)) 100 ltac:(lia)) as Hdm.
  pose proof (Z.mod_pos_bound (expected * (100 - percent)) 100 ltac:(lia)) as Hmod.
  set (bound := (expected * (100 - percent) / 100)%Z) in *.
  repeat split; nia.
Qed.

Lemma amountOutMin_whole_percent_witness :
  exists bound,
    amountOutMin 1999 (handleSlippageSet (inject_Z 5) (mkSettings 10)) = Some bound
    /\ (100 * bound <= 1999 * (100 - 5) < 100 * (bound + 1))%Z
    /\ (0 <= bound <= 1999)%Z
    /\ (1999 <= 2 * bound + 1)%Z.
Proof.
  apply (amountOutMin_whole_percent 1999 5 (mkSettings 10)); lia.
Defined.

(** ** A sell of no tokens *)

(** X19.  A sell recorded for a quantity of zero or less, of a token that has
    HOLDING lots, takes nothing from any lot: the records there were stay
    exactly as they were, and a SELL record is appended whose cost basis is
    0 and whose list of lots used is empty, so that all it received is booked
    as profit; the open position of the token is what it was. *)
Theorem recordSellTrade_nothing_sold
    (f : FileContent) (env : Env) (a s : string) (tok bnb price gas : Q) (tx : string)
    (p : Position.t) :
  getTokenPositionInfo f a = Some p ->
  writable env = true ->
  tok <= 0 ->
  let out := recordSellTrade f env a s tok bnb price gas tx in
  exists sellTrade res,
    snd out = Some res
    /\ trades (getTradingHistory (fst out)) = trades (getTradingHistory f) ++ [SELL sellTrade]
    /\ Sell.totalCost sellTrade = 0
    /\ Sell.buyTradesUsed sellTrade = []
    /\ Sell.gasUsed sellTrade = gas
    /\ Sell.profit sellTrade == bnb
    /\ SellResult.profit res == bnb
    /\ getTokenPositionInfo (fst out) a = Some p.
Proof.
  intros Hp W Htok out.
  destruct (position_totals f a p Hp) as (_ & _ & _ & Hlots).
  unfold out. rewrite recordSellTrade_recorded by assumption. cbn [fst snd].
  rewrite getTradingHistory_stored. unfold historyAfterSell. cbn [trades].
  assert (Hrun : sellRun f a tok gas = mkLoop (trades (getTradingHistory f)) tok 0 gas []).
  { unfold sellRun. apply sellLoop_break. cbn [remainingTokensToSell]. now apply le_true. }
  unfold sellRecord. rewrite Hrun. cbn [ledger].
  do 2 eexists. split; [reflexivity|]. split; [reflexivity|].
  unfold sellTradeOf.
  cbn [Sell.totalCost Sell.buyTradesUsed Sell.gasUsed Sell.profit SellResult.profit
       totalCost processedBuyTrades totalGasUsed].
  repeat split; try lra.
  rewrite <- Hp. unfold getTokenPositionInfo. rewrite getTradingHistory_stored.
  cbn [trades]. rewrite filter_snoc. cbn [isHoldingBuy]. now rewrite app_nil_r.
Qed.

Lemma recordSellTrade_nothing_sold_witness :
  exists sellTrade res,
    snd (recordSellTrade afterBuyA (mkEnv 2000 2000 true) cake "CAKE" 0 (15 # 100) 3 25000
           "0xsell0") = Some res
    /\ trades (getTradingHistory
                 (fst (recordSellTrade afterBuyA (mkEnv 2000 2000 true) cake "CAKE" 0
                         (15 # 100) 3 25000 "0xsell0")))
       = trades (getTradingHistory afterBuyA) ++ [SELL sellTrade]
    /\ Sell.totalCost sellTrade = 0
    /\ Sell.buyTradesUsed sellTrade = []
    /\ Sell.gasUsed sellTrade = 25000
    /\ Sell.profit sellTrade == 15 # 100
    /\ SellResult.profit res == 15 # 100
    /\ getTokenPositionInfo
         (fst (recordSellTrade afterBuyA (mkEnv 2000 2000 true) cake "CAKE" 0
                 (15 # 100) 3 25000 "0xsell0")) cake
       = Some (Position.mk (0 + 100) (0 + (1 # 10)) ((0 + (1 # 10)) / (0 + 100)) 1).
Proof.
  apply (recordSellTrade_nothing_sold afterBuyA (mkEnv 2000 2000 true) cake "CAKE" 0
           (15 # 100) 3 25000 "0xsell0");
    [reflexivity | reflexivity | apply Qle_refl].
Defined.

(** ** Retrying a call *)

Lemma retryLoop_spec {A E : Type} (fn : nat -> Attempt A E) (maxRetries : nat) (delay : Z) :
  forall remaining i waited,
    (i + remaining = maxRetries)%nat -> (0 < remaining)%nat ->
    let r := retryLoop fn maxRetries delay remaining i waited in
    (i < calls r <= maxRetries)%nat
    /\ slept r = (waited + delay * (2 ^ Z.of_nat (calls r - 1) - 2 ^ Z.of_nat i))%Z
    /\ (forall k, (i <= k < calls r - 1)%nat -> exists error, fn k = Rejects error)
    /\ match outcome r with
       | Returned value => fn (calls r - 1)%nat = Resolves value
       | Thrown error => calls r = maxRetries /\ fn (maxRetries - 1)%nat = Rejects error
       | ReturnedUndefined => False
       end.
Proof.
  induction remaining as [|remaining IH]; intros i waited Hsum Hpos; [lia|].
  cbn [retryLoop]. destruct (fn i) as [value|error] eqn:Hfn.
  - cbn [calls slept outcome]. replace (S i - 1)%nat with i by lia.
    repeat split; try lia; exact Hfn.
  - destruct (Nat.eqb i (maxRetries - 1)) eqn:Hlast.
    + apply Nat.eqb_eq in Hlast. cbn [calls slept outcome].
      replace (S i - 1)%nat with i by lia.
      repeat split; try lia. now rewrite <- Hlast.
    + apply Nat.eqb_neq in Hlast.
      destruct (IH (S i) (waited + delay * 2 ^ Z.of_nat i)%Z ltac:(lia) ltac:(lia))
        as (Hc & Hs & Hrej & Hout).
      cbv zeta in Hc, Hs, Hrej, Hout.
      set (r := retryLoop fn maxRetries delay remaining (S i)
                  (waited + delay * 2 ^ Z.of_nat i)%Z) in *.
      split; [lia|]. split.
      * rewrite Hs. rewrite Nat2Z.inj_succ, Z.pow_succ_r by lia. lia.
      * split; [|exact Hout]. intros k Hk.
        destruct (Nat.eq_dec k i) as [->|Hne]; [now exists error|].
        apply Hrej. lia.
Qed.

(** X20.  [retry] with [maxRetries] at least 1 calls [fn] until it resolves,
    at most [maxRetries] times: it returns the value of the first call that
    resolves, and throws the error of the last call when none of the
    [maxRetries] calls does; before its last call every call was rejected,
    and the time slept in total is delay * (2^(calls - 1) - 1).  With
    [maxRetries] 0 it calls nothing and returns [undefined]. *)
Theorem retry_spec {A E : Type} (fn : nat -> Attempt A E) (maxRetries : nat) (delay : Z) :
  let r := retry fn maxRetries delay in
  (maxRetries = 0%nat ->
   outcome r = ReturnedUndefined /\ calls r = 0%nat /\ slept r = 0%Z)
  /\ ((0 < maxRetries)%nat ->
      (1 <= calls r <= maxRetries)%nat
      /\ slept r = (delay * (2 ^ Z.of_nat (calls r - 1) - 1))%Z
      /\ (forall k, (k < calls r - 1)%nat -> exists error, fn k = Rejects error)
      /\ match outcome r with
         | Returned value => fn (calls r - 1)%nat = Resolves value
         | Thrown error => calls r = maxRetries /\ fn (maxRetries - 1)%nat = Rejects error
         | ReturnedUndefined => False
         end).
Proof.
  intros r. split.
  - intros ->. repeat split.
  - intros Hpos.
    destruct (retryLoop_spec fn maxRetries delay maxRetries 0 0 eq_refl Hpos)
      as (Hc & Hs & Hrej & Hout).
    cbv zeta in Hc, Hs, Hrej, Hout. fold (retry fn maxRetries delay) in Hc, Hs, Hrej, Hout.
    fold r in Hc, Hs, Hrej, Hout.
    split; [lia|]. split; [rewrite Hs; simpl; lia|].
    split; [intros k Hk; apply Hrej; lia | exact Hout].
Qed.

(** ** The daily trade log *)

Section TradeLogFacts.

Variable Value : Type.

Lemma getMember_setMember (key k : string) (v : Value) (o : Obj Value) :
  getMember Value k (setMember Value key v o)
  = if String.eqb key k then Some v else getMember Value k o.
Proof.
  induction o as [|[k' w] r IH]; simpl.
  - destruct (String.eqb key k); reflexivity.
  - destruct (String.eqb k' key) eqn:E1; simpl.
    + apply String.eqb_eq in E1. subst k'. destruct (String.eqb key k); reflexivity.
    + destruct (String.eqb k' k) eqn:E2.
      * apply String.eqb_eq in E2. subst k'. now rewrite String.eqb_sym, E1.
      * exact IH.
Qed.

Lemma getMember_absent (k : string) (o : Obj Value) :
  ~ In k (map fst o) -> getMember Value k o = None.
Proof.
  induction o as [|[k' w] r IH]; simpl; intros H; [reflexivity|].
  destruct (String.eqb k' k) eqn:E.
  - apply String.eqb_eq in E. tauto.
  - apply IH. tauto.
Qed.

Lemma getMember_spread (k : string) (extra : Obj Value) : forall base,
  List.NoDup (map fst extra) ->
  getMember Value k (spread Value base extra)
  = match getMember Value k extra with
    | Some v => Some v
    | None => getMember Value k base
    end.
Proof.
  unfold spread. induction extra as [|[k1 v1] r IH]; intros base Hnd; simpl.
  - reflexivity.
  - inversion Hnd as [|? ? Hk1 Hr]; subst. rewrite (IH _ Hr), getMember_setMember.
    destruct (String.eqb k1 k) eqn:E.
    + apply String.eqb_eq in E. subst k1. now rewrite (getMember_absent k r Hk1).
    + reflexivity.
Qed.

End TradeLogFacts.

(** X21.  A record saved is a record read back: when [saveTradeRecord]
    returns true, [loadTradeRecords] for the day gives the records there
    were followed by the new one, the files of the other days are as they
    were, and the new record has every field of the trade; its timestamp is
    the trade's own when the trade has one, and the time of the clock only
    when it has none.  When [saveTradeRecord] returns false no file has
    changed. *)
Theorem saveTradeRecord_round_trip
    (Value : Type) (logs : Logs Value) (env : LogEnv Value) (trade : Obj Value) :
  List.NoDup (map fst trade) ->
  let logs' := fst (saveTradeRecord Value logs env trade) in
  let saved := snd (saveTradeRecord Value logs env trade) in
  (saved = false -> logs' = logs)
  /\ (saved = true ->
      exists before record,
        loadTradeRecords Value logs env None = LoadedArray Value before
        /\ loadTradeRecords Value logs' env None = LoadedArray Value (before ++ [record])
        /\ (forall key v, getMember Value key trade = Some v ->
                          getMember Value key record = Some v)
        /\ (getMember Value "timestamp" trade = None ->
            getMember Value "timestamp" record = Some (nowISO Value env))
        /\ (forall date, date <> today Value env -> logs' date = logs date)).
Proof.
  intros Hnd logs' saved. unfold logs', saved, saveTradeRecord.
  destruct (dirOk Value env); cbn [negb fst snd]; [|split; [auto | discriminate]].
  destruct (logs (today Value env)) as [[| |records]|] eqn:Hfile; cbn [fst snd];
    try (split; [auto | discriminate]).
  - destruct (logWritable Value env); cbn [fst snd]; [|split; [auto | discriminate]].
    split; [discriminate|]. intros _. do 2 eexists.
    unfold loadTradeRecords, writeLog. rewrite Hfile, String.eqb_refl.
    split; [reflexivity|]. split; [reflexivity|].
    split; [|split].
    + intros key v Hv. rewrite getMember_spread by exact Hnd. now rewrite Hv.
    + intros Hno. rewrite getMember_spread by exact Hnd. rewrite Hno. simpl. reflexivity.
    + intros date Hne. apply String.eqb_neq in Hne. now rewrite Hne.
  - destruct (logWritable Value env); cbn [fst snd]; [|split; [auto | discriminate]].
    split; [discriminate|]. intros _. do 2 eexists.
    unfold loadTradeRecords, writeLog. rewrite Hfile, String.eqb_refl.
    split; [reflexivity|]. split; [reflexivity|].
    split; [|split].
    + intros key v Hv. rewrite getMember_spread by exact Hnd. now rewrite Hv.
    + intros Hno. rewrite getMember_spread by exact Hnd. rewrite Hno. simpl. reflexivity.
    + intros date Hne. apply String.eqb_neq in Hne. now rewrite Hne.
Qed.

Lemma saveTradeRecord_round_trip_witness :
  let env := mkLogEnv string "2025-01-01" "2025-01-01T08:00:00.000Z"%string true true in
  let trade := [("type", "buy"); ("timestamp", "2024-12-31T23:59:59.000Z")]%string in
  let logs : Logs string := fun _ => None in
  let logs' := fst (saveTradeRecord string logs env trade) in
  let saved := snd (saveTradeRecord string logs env trade) in
  (saved = false -> logs' = logs)
  /\ (saved = true ->
      exists before record,
        loadTradeRecords string logs env None = LoadedArray string before
        /\ loadTradeRecords string logs' env None = LoadedArray string (before ++ [record])
        /\ (forall key v, getMember string key trade = Some v ->
                          getMember string key record = Some v)
        /\ (getMember string "timestamp" trade = None ->
            getMember string "timestamp" record = Some (nowISO string env))
        /\ (forall date, date <> today string env -> logs' date = logs date)).
Proof.
  intros env trade logs.
  apply (saveTradeRecord_round_trip string logs env trade).
  constructor; [simpl; intros [H|[]]; discriminate|].
  constructor; [simpl; tauto | constructor].
Defined.

(** ** The list of holdings *)

Section HoldingsFacts.

Variable bnbBalance : option Q.
Variable getBNBPrice : option Q.
Variable getTokenBalance : string -> option Q.
Variable tokenSymbol : string -> option string.
Variable getTokenPrice : string -> option (option Q).

Lemma holdingsStep_kept (seen : list string) (st : list Holding.t * Q * nat)
    (tokenAddress : string) :
  holdingsKept getTokenBalance seen st ->
  holdingsKept getTokenBalance (seen ++ [tokenAddress])
    (holdingsStep getTokenBalance tokenSymbol getTokenPrice st tokenAddress).
Proof.
  destruct st as [[holdings total] found].
  intros (Hf & Hlen & Hsum & bnb & rest & -> & Hnat & Hrest).
  assert (Hweak : holdingsKept getTokenBalance (seen ++ [tokenAddress])
                    (bnb :: rest, total, found)).
  { unfold holdingsKept. rewrite length_app. simpl length in *.
    split; [exact Hf|]. split; [lia|]. split; [exact Hsum|].
    exists bnb, rest. split; [reflexivity|]. split; [exact Hnat|].
    intros h Hh. destruct (Hrest h Hh) as (H1 & H2 & a & H3 & H4 & H5).
    split; [exact H1|]. split; [exact H2|]. exists a.
    split; [exact H3|]. split; [apply in_or_app; now left | exact H5]. }
  unfold holdingsStep.
  destruct (getTokenBalance tokenAddress) as [balanceNum|] eqn:Hbal; [|exact Hweak].
  destruct (JS.gt balanceNum 0) eqn:Hgt; [|exact Hweak].
  apply gt_true in Hgt.
  destruct (tokenSymbol tokenAddress) as [symbol|]; [|exact Hweak].
  destruct (getTokenPrice tokenAddress) as [[price|]|]; [| |exact Hweak].
  all: unfold holdingsKept; rewrite !length_app; simpl length in *.
  all: split; [lia|]; split; [lia|]; split;
    [rewrite sumQ_snoc; cbn [Holding.valueUSD]; rewrite Hsum; lra|].
  all: eexists bnb, (rest ++ [_]); split; [reflexivity|]; split; [exact Hnat|].
  all: intros h Hh; apply in_app_or in Hh; destruct Hh as [Hh|[<-|[]]].
  all: try (destruct (Hrest h Hh) as (H1 & H2 & a & H3 & H4 & H5);
            split; [exact H1|]; split; [exact H2|]; exists a;
            split; [exact H3|]; split; [apply in_or_app; now left | exact H5]).
  all: cbn [Holding.isNative Holding.balance Holding.address];
    split; [reflexivity|]; split; [exact Hgt|]; exists tokenAddress;
    split; [reflexivity|]; split; [apply in_or_app; right; now left | exact Hbal].
Qed.

Lemma fold_holdingsStep_kept (tokens : list string) :
  forall seen st,
    holdingsKept getTokenBalance seen st ->
    holdingsKept getTokenBalance (seen ++ tokens)
      (fold_left (holdingsStep getTokenBalance tokenSymbol getTokenPrice) tokens st).
Proof.
  induction tokens as [|t tokens IH]; intros seen st H; cbn [fold_left].
  - now rewrite app_nil_r.
  - replace (seen ++ t :: tokens) with ((seen ++ [t]) ++ tokens)
      by (now rewrite <- app_assoc).
    apply IH, holdingsStep_kept, H.
Qed.

(** X22.  [getTokenHoldings] fails only when the BNB balance or the BNB
    price cannot be read.  Otherwise its list starts with the BNB entry;
    every other entry is a traded token whose balance is positive;
    [foundTokens] is the length of the list, between 1 and one more than
    [scannedTokens], which is the number of traded tokens; and
    [totalValueUSD] is the sum of the values listed.  A token whose lookup
    throws is left out, and the others are still listed. *)
Theorem getTokenHoldings_consistent (f : TokensFile) :
  match getTokenHoldings bnbBalance getBNBPrice getTokenBalance tokenSymbol
                         getTokenPrice f with
  | HoldingsError => bnbBalance = None \/ getBNBPrice = None
  | HoldingsFound tokens totalValueUSD scannedTokens foundTokens =>
      foundTokens = length tokens
      /\ scannedTokens = length (getTradedTokens f)
      /\ (1 <= foundTokens <= S scannedTokens)%nat
      /\ totalValueUSD == sumQ Holding.valueUSD tokens
      /\ exists bnb rest,
           tokens = bnb :: rest
           /\ Holding.isNative bnb = true
           /\ forall h, In h rest ->
                        Holding.isNative h = false
                        /\ 0 < Holding.balance h
                        /\ exists tokenAddress,
                             Holding.address h = Some tokenAddress
                             /\ In tokenAddress (getTradedTokens f)
                             /\ getTokenBalance tokenAddress = Some (Holding.balance h)
  end.
Proof.
  unfold getTokenHoldings.
  destruct bnbBalance as [bnbAmount|]; [|now left].
  destruct getBNBPrice as [bnbPriceUSD|]; [|now right].
  cbv zeta.
  pose proof (fold_holdingsStep_kept (getTradedTokens f) []
                ([Holding.mk "BNB" bnbAmount bnbPriceUSD (bnbAmount * bnbPriceUSD) true None],
                 0 + bnbAmount * bnbPriceUSD, 1%nat)) as H.
  destruct (fold_left (holdingsStep getTokenBalance tokenSymbol getTokenPrice)
              (getTradedTokens f) _) as [[holdings total] found].
  simpl app in H. destruct H as (Hf & Hlen & Hsum & Hshape).
  - unfold holdingsKept. simpl length. split; [reflexivity|]. split; [lia|].
    split; [rewrite sumQ_cons, sumQ_nil; cbn [Holding.valueUSD]; lra|].
    eexists _, []. split; [reflexivity|]. split; [reflexivity|]. intros h [].
  - split; [exact Hf|]. split; [reflexivity|].
    destruct Hshape as (bnb & rest & -> & Hnat & Hrest).
    simpl length in *. split; [lia|]. split; [exact Hsum|].
    exists bnb, rest. auto.
Qed.

End HoldingsFacts.

(** ** Oldest lots first *)

Lemma sellLoop_outside idxs : forall st j,
  ~ In j idxs -> ledger (sellLoop idxs st) !! j = ledger st !! j.
Proof.
  induction idxs as [|i rest IH]; intros st j Hj; simpl; [reflexivity|].
  destruct (JS.le (remainingTokensToSell st) 0); [reflexivity|].
  assert (Hne : i <> j) by (intros ->; apply Hj; now left).
  assert (Hrest : ~ In j rest) by (intros H; apply Hj; now right).
  destruct (ledger st !! i) as [[b|s]|]; rewrite (IH _ _ Hrest); try reflexivity.
  now apply consumeLot_other.
Qed.

Lemma sellLoop_oldest_first idxs : forall st,
  List.NoDup idxs ->
  (forall i, In i idxs -> exists b, ledger st !! i = Some (BUY b)) ->
  forall l1 p l2 q,
    idxs = l1 ++ p :: l2 -> In q l2 ->
    ledger (sellLoop idxs st) !! q <> ledger st !! q ->
    exists b, ledger st !! p = Some (BUY b)
              /\ ledger (sellLoop idxs st) !! p = Some (BUY (soldLot b)).
Proof.
  induction idxs as [|i rest IH]; intros st Hnd Hbuy l1 p l2 q Hsplit Hq Hchanged.
  { destruct l1; discriminate. }
  inversion Hnd as [|? ? Hi Hnd']; subst.
  simpl in Hchanged |- *.
  destruct (JS.le (remainingTokensToSell st) 0) eqn:Hrem; [contradiction|].
  apply le_false in Hrem.
  destruct (Hbuy i (or_introl eq_refl)) as [b Hb]. rewrite Hb in Hchanged |- *.
  assert (Hothers : forall k, In k rest ->
                      ledger (consumeLot i b st) !! k = ledger st !! k).
  { intros k Hk. apply consumeLot_other. intros ->. contradiction. }
  destruct l1 as [|i' l1]; simpl in Hsplit; injection Hsplit as <- ->.
  - rewrite <- (Hothers q Hq) in Hchanged.
    exists b. split; [exact Hb|].
    rewrite sellLoop_outside by exact Hi.
    destruct (consumeLot_remaining i b st Hrem) as [[_ Hzero]|[Hfull _]].
    + exfalso. apply Hchanged. rewrite sellLoop_break; [reflexivity|].
      apply le_true. lra.
    + destruct (consumeLot_full i b st Hfull) as [-> _].
      apply list_lookup_insert_eq. eapply lookup_lt_Some. exact Hb.
  - assert (Hp : In p (l1 ++ p :: l2)) by (apply in_or_app; right; now left).
    assert (Hq' : In q (l1 ++ p :: l2)) by (apply in_or_app; right; now right).
    rewrite <- (Hothers q Hq') in Hchanged.
    destruct (IH (consumeLot i b st) Hnd') with (l1 := l1) (p := p) (l2 := l2) (q := q)
      as (b' & Hb' & Hsold); auto.
    + intros k Hk. rewrite (Hothers k Hk). apply Hbuy. now right.
    + exists b'. split; [|exact Hsold]. now rewrite <- (Hothers p Hp).
Qed.

Lemma sorted_before {A} (R : A -> A -> Prop) (l1 l2 : list A) (x : A) :
  StronglySorted R (l1 ++ x :: l2) -> forall y, In y l1 -> R y x.
Proof.
  induction l1 as [|z l1 IH]; intros Hs y Hy; [destruct Hy|].
  simpl in Hs. apply StronglySorted_inv in Hs. destruct Hs as [Hs Hall].
  destruct Hy as [->|Hy]; [|now apply IH].
  rewrite List.Forall_forall in Hall. apply Hall. apply in_or_app. right. now left.
Qed.

Lemma buyTrades_In (addr : string) (ts : list Trade) (i : nat) (b : Buy.t) :
  ts !! i = Some (BUY b) -> isHoldingBuy addr (BUY b) = true -> In i (buyTrades addr ts).
Proof.
  intros Hi Hh. apply (Permutation_in _ (Permutation_sym (buyTrades_perm addr ts))).
  apply filter_In. split.
  - apply in_seq. apply lookup_lt_Some in Hi. lia.
  - unfold holdingAt. now rewrite Hi.
Qed.

(** X23.  A sell works through the lots of its token from the oldest on: it
    touches a lot only when every lot of the token with an earlier timestamp
    has been sold entirely.  If, after a recorded sell, a lot that was
    HOLDING is no longer the record it was, then every lot of the same token
    that was HOLDING with a strictly smaller timestamp is now the same
    record marked SOLD. *)
Theorem recordSellTrade_oldest_first
    (f f' : FileContent) (env : Env) (a s : string) (tok bnb price gas : Q) (tx : string)
    (res : SellResult.t) (i j : nat) (older younger : Buy.t) :
  recordSellTrade f env a s tok bnb price gas tx = (f', Some res) ->
  trades (getTradingHistory f) !! i = Some (BUY older) ->
  trades (getTradingHistory f) !! j = Some (BUY younger) ->
  isHoldingBuy (JS.toLowerCase a) (BUY older) = true ->
  isHoldingBuy (JS.toLowerCase a) (BUY younger) = true ->
  (Buy.timestamp older < Buy.timestamp younger)%Z ->
  trades (getTradingHistory f') !! j <> Some (BUY younger) ->
  trades (getTradingHistory f') !! i = Some (BUY (soldLot older)).
Proof.
  intros Hsell Hi Hj Hhi Hhj Hts Hchanged.
  apply recordSellTrade_inv in Hsell. destruct Hsell as (_ & _ & ->).
  rewrite getTradingHistory_stored in Hchanged |- *. unfold historyAfterSell in *.
  cbn [trades] in *. unfold sellRun in *.
  set (ts := trades (getTradingHistory f)) in *.
  set (addr := JS.toLowerCase a) in *.
  set (st := sellLoop (buyTrades addr ts) (mkLoop ts tok 0 gas [])) in *.
  assert (Hlen : length (ledger st) = length ts) by apply sellLoop_length.
  assert (Hini : In i (buyTrades addr ts)) by (eapply buyTrades_In; eassumption).
  assert (Hinj : In j (buyTrades addr ts)) by (eapply buyTrades_In; eassumption).
  destruct (in_split _ _ Hini) as (l1 & l2 & Hsplit).
  assert (Hj2 : In j l2).
  { rewrite Hsplit in Hinj. apply in_app_or in Hinj.
    destruct Hinj as [Hin|[Heq|Hin]]; [| |exact Hin].
    - pose proof (buyTrades_sorted addr ts) as Hsorted. rewrite Hsplit in Hsorted.
      pose proof (sorted_before _ _ _ _ Hsorted j Hin) as Hle.
      unfold timestampAt in Hle. rewrite Hi, Hj in Hle. lia.
    - subst j. rewrite Hi in Hj. injection Hj as <-. lia. }
  assert (Hjl : (j < length ts)%nat) by (eapply lookup_lt_Some; exact Hj).
  assert (Hil : (i < length ts)%nat) by (eapply lookup_lt_Some; exact Hi).
  rewrite lookup_app_l in Hchanged |- * by lia.
  destruct (sellLoop_oldest_first (buyTrades addr ts) (mkLoop ts tok 0 gas [])
              (buyTrades_NoDup addr ts)) with (l1 := l1) (p := i) (l2 := l2) (q := j)
    as (b & Hb & Hsold); auto.
  - intros k Hk. destruct (buyTrades_lookup addr ts k Hk) as (b & Hb & _). now exists b.
  - cbn [ledger]. fold st. now rewrite Hj.
  - cbn [ledger] in Hb. fold st in Hsold. rewrite Hi in Hb. injection Hb as <-. exact Hsold.
Qed.

Lemma recordSellTrade_oldest_first_witness :
  let lotA := Buy.mk 1000 (JS.toLowerCase cake) "CAKE" (1 # 10) 100 (5 # 2) 21000 1000
                     "0xbuy1" HOLDING in
  trades (getTradingHistory
            (fst (recordSellTrade afterBuyB (mkEnv 3000 3000 true) cake "CAKE" 120
                    (30 # 100) 3 25000 "0xsell1"))) !! 0%nat
  = Some (BUY (soldLot lotA)).
Proof.
  intros lotA.
  apply (recordSellTrade_oldest_first afterBuyB _ (mkEnv 3000 3000 true) cake "CAKE" 120
           (30 # 100) 3 25000 "0xsell1"
           (resultOf (recordSellTrade afterBuyB (mkEnv 3000 3000 true) cake "CAKE" 120
                        (30 # 100) 3 25000 "0xsell1"))
           0 1 lotA
           (Buy.mk 2000 (JS.toLowerCase cake) "CAKE" (2 # 10) (6667 # 100) 3 21000 2000
                   "0xbuy2" HOLDING)).
  - reflexivity.
  - reflexivity.
  - reflexivity.
  - reflexivity.
  - reflexivity.
  - reflexivity.
  - vm_compute. discriminate.
Defined.

(** ** Net profit as cash flow *)

Lemma sellLoop_book (addr : string) (ts : list Trade) (x gas : Q) :
  holdingPositive ts ->
  let st := sellLoop (buyTrades addr ts) (mkLoop ts x 0 gas []) in
  sumQ bookValue (ledger st) + totalCost st == sumQ bookValue ts.
Proof.
  intros Hpos.
  apply (sellLoop_invariant ts
           (fun s => sumQ bookValue (ledger s) + totalCost s == sumQ bookValue ts)).
  - apply buyTrades_NoDup.
  - reflexivity.
  - intros s i b HP Hi Hts Hs Hrem.
    destruct (buyTrades_lookup _ _ _ Hi) as (b0 & Hb0 & Hhold).
    rewrite Hts in Hb0. injection Hb0 as <-.
    pose proof (holding_status _ _ Hhold) as Hst.
    assert (Hbook : bookValue (BUY b) = Buy.bnbAmount b)
      by (unfold bookValue; simpl; now rewrite Hst).
    assert (HT : 0 < Buy.tokenAmount b).
    { apply Hpos; [|exact Hst].
      apply list_elem_of_In. eapply list_elem_of_lookup_2. exact Hts. }
    destruct (consumeLot_ledger_cases i b s Hrem) as [(Hlt & -> & ->)|(Hge & -> & Hc)].
    + rewrite (sumQ_insert _ _ _ _ _ Hs), Hbook.
      unfold bookValue at 2. simpl. rewrite Hst. simpl. lra.
    + rewrite (sumQ_insert _ _ _ _ _ Hs), Hbook, Hc by lra.
      unfold bookValue at 2. simpl. lra.
  - simpl. lra.
Qed.

Lemma step_cash (f : FileContent) (o : Op) :
  positiveBuy o ->
  holdingPositive (trades (getTradingHistory f)) ->
  let ts := trades (getTradingHistory f) in
  let ts' := trades (getTradingHistory (step f o)) in
  holdingPositive ts'
  /\ sumQ receivedOf ts' + sumQ bookValue ts' - sumQ profitOf ts'
     == sumQ receivedOf ts + sumQ bookValue ts - sumQ profitOf ts + spentOn o.
Proof.
  intros Ho Hpos.
  destruct o as [env a s bnb tok price gas tx|env a s tok bnb price gas tx];
    cbn [step spentOn]; cbv zeta.
  - split; [apply (recordBuyTrade_balance a f env a s bnb tok price gas tx Ho Hpos)|].
    unfold recordBuyTrade. destruct (writable env); cbn [fst]; [|lra].
    rewrite getTradingHistory_stored. cbn [trades]. rewrite !sumQ_snoc.
    unfold bookValue at 2. simpl. lra.
  - split; [apply (recordSellTrade_balance a f env a s tok bnb price gas tx Hpos)|].
    destruct (buyTrades (JS.toLowerCase a) (trades (getTradingHistory f))) as [|i rest] eqn:E.
    { rewrite recordSellTrade_null by (now left). cbn [fst]. lra. }
    destruct (writable env) eqn:W.
    2:{ rewrite recordSellTrade_null by (now right). cbn [fst]. lra. }
    rewrite recordSellTrade_recorded by (rewrite ?E; auto; discriminate).
    cbn [fst]. rewrite getTradingHistory_stored. unfold historyAfterSell. cbn [trades].
    set (st := sellRun f a tok gas).
    assert (Hrecv : sumQ receivedOf (ledger st)
                    == sumQ receivedOf (trades (getTradingHistory f)))
      by (apply (sellLoop_blind_sum receivedOf); reflexivity).
    assert (Hprof : sumQ profitOf (ledger st)
                    == sumQ profitOf (trades (getTradingHistory f)))
      by (apply (sellLoop_blind_sum profitOf); reflexivity).
    pose proof (sellLoop_book (JS.toLowerCase a) (trades (getTradingHistory f)) tok gas Hpos)
      as Hbook.
    cbv zeta in Hbook. fold (sellRun f a tok gas) in Hbook. fold st in Hbook.
    rewrite !sumQ_snoc, Hrecv, Hprof.
    unfold sellRecord, sellTradeOf. fold st.
    cbn [receivedOf profitOf bookValue isHolding Sell.bnbReceived Sell.profit].
    lra.
Qed.

Lemma run_cash (ops : list Op) : forall f,
  Forall positiveBuy ops ->
  holdingPositive (trades (getTradingHistory f)) ->
  let ts := trades (getTradingHistory f) in
  let ts' := trades (getTradingHistory (run ops f)) in
  sumQ receivedOf ts' + sumQ bookValue ts' - sumQ profitOf ts'
  == sumQ receivedOf ts + sumQ bookValue ts - sumQ profitOf ts + sumQ spentOn ops.
Proof.
  induction ops as [|o ops IH]; intros f Hok Hpos; cbn [run fold_left]; cbv zeta.
  - rewrite sumQ_nil. lra.
  - inversion Hok as [|? ? Ho Hops]; subst.
    destruct (step_cash f o Ho Hpos) as [Hpos' Hstep]. cbv zeta in Hstep.
    pose proof (IH (step f o) Hops Hpos') as Hrun. cbv zeta in Hrun.
    unfold run in Hrun. rewrite Hrun, Hstep, sumQ_cons. lra.
Qed.

(** X24.  At every moment the net profit of the statistics is cash flow plus
    book value: after any sequence of buys and sells of any tokens run from
    the empty ledger, the buys being for positive token amounts, netProfit of
    [getTradingStats] equals the BNB received by the SELL records, plus the
    bnbAmount still carried by the HOLDING lots, minus the BNB paid by the
    buys that were recorded. *)
Theorem net_profit_is_cash_flow (ops : list Op) :
  Forall positiveBuy ops ->
  let f := run ops initialFile in
  let ts := trades (getTradingHistory f) in
  Stats.netProfit (getTradingStats f)
  == sumQ receivedOf ts + sumQ bookValue ts - sumQ spentOn ops.
Proof.
  intros Hok f ts.
  assert (Hinit : holdingPositive (trades (getTradingHistory initialFile)))
    by (intros b []).
  pose proof (run_cash ops initialFile Hok Hinit) as Hcash. cbv zeta in Hcash.
  fold f in Hcash. fold ts in Hcash.
  destruct (run_consistent ops initialFile summaryConsistent_initial) as (Hp & Hl & _).
  fold f in Hp, Hl. fold ts in Hp, Hl.
  unfold getTradingStats. cbn [Stats.netProfit]. fold f. rewrite Hp, Hl, net_profit.
  fold ts.
  change (trades (getTradingHistory initialFile)) with (@nil Trade) in Hcash.
  rewrite !sumQ_nil in Hcash. lra.
Qed.

Lemma net_profit_is_cash_flow_witness :
  let f := run (readmeBuys ++ readmeSells) initialFile in
  let ts := trades (getTradingHistory f) in
  Stats.netProfit (getTradingStats f)
  == sumQ receivedOf ts + sumQ bookValue ts - sumQ spentOn (readmeBuys ++ readmeSells).
Proof.
  apply (net_profit_is_cash_flow (readmeBuys ++ readmeSells)). repeat constructor.
Defined.

(** ** Ranges of the statistics *)

Lemma filter_length_le_impl {A} (p q : A -> bool) (l : list A) :
  (forall x, p x = true -> q x = true) ->
  (length (List.filter p l) <= length (List.filter q l))%nat.
Proof.
  intros Himp. induction l as [|x l IH]; simpl; [lia|].
  destruct (p x) eqn:P.
  - rewrite (Himp x P). simpl. lia.
  - destruct (q x); simpl; lia.
Qed.

Lemma winRateOf_range (ts : list Trade) : 0 <= winRateOf ts /\ winRateOf ts <= 100.
Proof.
  unfold winRateOf, winCount, sellCount.
  assert (Hle : (length (List.filter isProfitableSell ts)
                 <= length (List.filter isSell ts))%nat).
  { apply filter_length_le_impl. intros [b|s]; simpl; [discriminate | reflexivity]. }
  set (w := length (List.filter isProfitableSell ts)) in *.
  set (n := length (List.filter isSell ts)) in *.
  destruct (Nat.eqb n 0) eqn:E; [split; lra|].
  apply Nat.eqb_neq in E.
  assert (Hn : 0 < inject_Z (Z.of_nat n)).
  { change 0 with (inject_Z 0). rewrite <- Zlt_Qlt. lia. }
  assert (Hw : 0 <= inject_Z (Z.of_nat w)).
  { change 0 with (inject_Z 0). rewrite <- Zle_Qle. lia. }
  assert (Hwn : inject_Z (Z.of_nat w) <= inject_Z (Z.of_nat n)).
  { rewrite <- Zle_Qle. lia. }
  split.
  - apply Qle_shift_div_l; [exact Hn|]. lra.
  - apply Qle_shift_div_r; [exact Hn|]. lra.
Qed.

(** X25.  After any sequence of buys and sells run from the empty ledger in
    which every buy records a positive token amount (so that no cost ratio
    of the loop is 0/0), the statistics stay in range: totalProfit and
    totalLoss are not negative, winRate lies between 0 and 100, sellTrades is
    at most totalTrades, and with no SELL record the three of them are 0. *)
Theorem getTradingStats_ranges (ops : list Op) (Hbuys : Forall positiveBuy ops) :
  let stats := getTradingStats (run ops initialFile) in
  0 <= Stats.totalProfit stats
  /\ 0 <= Stats.totalLoss stats
  /\ 0 <= Stats.winRate stats /\ Stats.winRate stats <= 100
  /\ (Z.of_nat (Stats.sellTrades stats) <= Stats.totalTrades stats)%Z
  /\ (Stats.sellTrades stats = 0%nat ->
      Stats.totalProfit stats == 0 /\ Stats.totalLoss stats == 0
      /\ Stats.winRate stats == 0).
Proof.
  intros stats. unfold stats, getTradingStats.
  cbn [Stats.totalProfit Stats.totalLoss Stats.winRate Stats.sellTrades Stats.totalTrades].
  destruct (run_consistent ops initialFile summaryConsistent_initial) as (Hp & Hl & Hw).
  set (ts := trades (getTradingHistory (run ops initialFile))) in *.
  assert (Hgain : forall t, 0 <= gainOf t).
  { intros [b|s]; simpl; [lra|].
    destruct (JS.gt (Sell.profit s) 0) eqn:G; [apply gt_true in G|]; lra. }
  assert (Hloss : forall t, 0 <= lossOf t).
  { intros [b|s]; simpl; [lra|].
    destruct (JS.lt (Sell.profit s) 0); [apply Qabs_nonneg | lra]. }
  destruct (winRateOf_range ts) as [Hw0 Hw100].
  split; [rewrite Hp; apply sumQ_nonneg; auto|].
  split; [rewrite Hl; apply sumQ_nonneg; auto|].
  split; [rewrite Hw; exact Hw0|]. split; [rewrite Hw; exact Hw100|].
  split.
  - rewrite (run_length ops initialFile eq_refl). fold ts.
    pose proof (kinds_partition ts). lia.
  - intros Hnone.
    assert (Hall : forall t, In t ts -> isSell t = false).
    { intros t Ht. destruct (isSell t) eqn:E; [|reflexivity].
      assert (Hin : In t (List.filter isSell ts)) by (apply filter_In; auto).
      destruct (List.filter isSell ts); [destruct Hin | discriminate]. }
    split; [|split].
    + rewrite Hp. apply sumQ_zero. intros [b|s] Ht; [reflexivity|].
      specialize (Hall _ Ht). discriminate.
    + rewrite Hl. apply sumQ_zero. intros [b|s] Ht; [reflexivity|].
      specialize (Hall _ Ht). discriminate.
    + rewrite Hw. unfold winRateOf, sellCount. fold ts. rewrite Hnone. reflexivity.
Qed.

Lemma getTradingStats_ranges_witness :
  let stats := getTradingStats (run (readmeBuys ++ readmeSells) initialFile) in
  0 <= Stats.totalProfit stats
  /\ 0 <= Stats.totalLoss stats
  /\ 0 <= Stats.winRate stats /\ Stats.winRate stats <= 100
  /\ (Z.of_nat (Stats.sellTrades stats) <= Stats.totalTrades stats)%Z
  /\ (Stats.sellTrades stats = 0%nat ->
      Stats.totalProfit stats == 0 /\ Stats.totalLoss stats == 0
      /\ Stats.winRate stats == 0).
Proof.
  apply (getTradingStats_ranges (readmeBuys ++ readmeSells)).
  repeat constructor.
Defined.

(** ** How a sell changes the lots it takes from *)






(** ** A sell of more than is held *)





(** ** Cost conservation *)

(** C7 (as the code has it).  Buys of one token, each recorded with a
    positive token amount, followed by sells of that token, run from the
    empty ledger.  When the sells exhaust the position, that is when no
    HOLDING lot of the token is left (which [getTokenPositionInfo] reports as
    null), the costUsed entries of all the SELL records add up to the
    bnbAmounts of the buys. *)
Theorem cost_conservation (tokenAddress : string) (buys sells : list Op)
    (Hbuys : Forall (isBuyOf tokenAddress) buys)
    (Hsells : Forall (isSellOf tokenAddress) sells)
    (Hexhausted :
       getTokenPositionInfo (run (buys ++ sells) initialFile) tokenAddress = None) :
  sumQ usedCost (trades (getTradingHistory (run (buys ++ sells) initialFile)))
  == sumQ opBnb buys.
Proof.
  set (a := JS.toLowerCase tokenAddress).
  set (final := run (buys ++ sells) initialFile) in *.
  assert (Hok : Forall positiveBuy (buys ++ sells)).
  { apply List.Forall_app. split.
    - eapply List.Forall_impl; [|exact Hbuys]. intros [] H; simpl in *; tauto.
    - eapply List.Forall_impl; [|exact Hsells]. intros [] H; simpl in *; tauto. }
  assert (Hon : Forall (sellsOn a) (buys ++ sells)).
  { apply List.Forall_app. split.
    - eapply List.Forall_impl; [|exact Hbuys]. intros [] H; simpl in *; tauto.
    - eapply List.Forall_impl; [|exact Hsells]. intros [] H; simpl in *; tauto. }
  assert (Hinit : holdingPositive (trades (getTradingHistory initialFile)))
    by (intros b []).
  destruct (run_balance a (buys ++ sells) initialFile Hok Hinit) as [_ Hbal].
  fold final in Hbal.
  assert (Hsold : sellsOf a (trades (getTradingHistory final)))
    by (apply run_sellsOf; [exact Hon | intros s []]).
  assert (Hheld : sumQ (heldCostOf a) (trades (getTradingHistory final)) == 0).
  { apply sumQ_zero. intros t Ht. unfold heldCostOf, a.
    rewrite (proj1 (no_position final tokenAddress) Hexhausted t Ht). reflexivity. }
  assert (Hused : sumQ (usedCostOf a) (trades (getTradingHistory final))
                  == sumQ usedCost (trades (getTradingHistory final))).
  { apply sumQ_ext. intros [b|s] Ht; [reflexivity|]. simpl.
    rewrite (Hsold s Ht), String.eqb_refl. reflexivity. }
  assert (Hsum : sumQ (buyCostOn a) (buys ++ sells) == sumQ opBnb buys).
  { rewrite sumQ_app.
    rewrite (sumQ_ext (buyCostOn a) opBnb buys).
    - rewrite (sumQ_zero (buyCostOn a) sells); [lra|].
      intros o Ho. rewrite List.Forall_forall in Hsells.
      specialize (Hsells o Ho). destruct o; [contradiction | reflexivity].
    - intros o Ho. rewrite List.Forall_forall in Hbuys.
      specialize (Hbuys o Ho). destruct o; [|contradiction]. simpl in *.
      destruct Hbuys as (Ea & W & _). fold a in Ea.
      rewrite W, Ea, String.eqb_refl. reflexivity. }
  unfold costBalance in Hbal. rewrite Hheld, Hused, Hsum in Hbal.
  unfold initialFile in Hbal. rewrite getTradingHistory_stored in Hbal.
  simpl trades in Hbal. rewrite !sumQ_nil in Hbal. lra.
Qed.

Lemma cost_conservation_witness :
  sumQ usedCost (trades (getTradingHistory (run (wholeBuys ++ wholeSells) initialFile)))
  == sumQ opBnb wholeBuys.
Proof.
  apply (cost_conservation cake wholeBuys wholeSells).
  - repeat constructor.
  - repeat constructor.
  - vm_compute. reflexivity.
Defined.

(** C7 as stated does not hold of every sequence.  A lot of 0 tokens is met
    by the sell with the ratio 0/0: in binary64 its costUsed is NaN (written
    to the file as null), so with no HOLDING lot left and the sell asking for
    exactly the tokens bought, the costUsed entries are NaN in memory and add
    up to 0.1 as read back, against 0.15 paid; over the rationals they add up
    to 1/10 against 3/20.  And in binary64 sells that ask for exactly the
    tokens bought need not exhaust the position: after buys of 1e17 tokens
    for 0.5 and 1 token for 0.25, and sells of 1 and of 1e17 tokens, the
    second lot is still HOLDING and the costUsed entries add up to 0.5. *)
Lemma cost_is_not_always_conserved :
  (B64.getTokenPositionInfo (fst sellOverZeroLot) "0xt" = None
   /\ PrimFloat.is_nan (B64.costUsedOf (B64.trades (fst sellOverZeroLot))) = true
   /\ B64.costUsedOf (B64.trades (B64.reread (fst sellOverZeroLot))) = (1 / 10)%float
   /\ PrimFloat.ltb (1 / 10)%float (5 / 100 + 1 / 10)%float = true)
  /\ (getTokenPositionInfo (run zeroLotOps initialFile) cake = None
      /\ sumQ usedCost (trades (getTradingHistory (run zeroLotOps initialFile))) == 1 # 10
      /\ sumQ opBnb zeroLotOps == 3 # 20)
  /\ (B64.getTokenPositionInfo (B64.run "0xt" absorbedRun) "0xt"
      = Some (1%float, (1 / 4)%float, 1%nat)
      /\ B64.costUsedOf (B64.trades (B64.run "0xt" absorbedRun)) = (1 / 2)%float
      /\ PrimFloat.ltb (1 / 2)%float (1 / 2 + 1 / 4)%float = true).
Proof.
  repeat split; vm_compute; reflexivity.
Qed.

(** ** The position after a sell within it *)

(** X2.  A recorded sell of a positive quantity that is not more than the
    open position holds takes that many tokens out of the position, and the
    cost it takes out is the totalCost it reports.  When a position is read
    back afterwards, its totalTokens is lower by the quantity sold and its
    totalCost lower by the cost basis of the sell; when none is read back
    (every lot has been taken whole), the quantity sold was all the position
    held and the cost basis of the sell is all its cost. *)
Theorem recordSellTrade_reduces_position
    (f : FileContent) (env : Env) (a s : string) (tok bnb price gas : Q) (tx : string)
    (p : Position.t) :
  holdingPositive (trades (getTradingHistory f)) ->
  writable env = true ->
  getTokenPositionInfo f a = Some p ->
  0 < tok -> tok <= Position.totalTokens p ->
  exists res,
    snd (recordSellTrade f env a s tok bnb price gas tx) = Some res
    /\ match getTokenPositionInfo (fst (recordSellTrade f env a s tok bnb price gas tx)) a with
       | Some p' =>
           Position.totalTokens p' == Position.totalTokens p - tok
           /\ Position.totalCost p' == Position.totalCost p - SellResult.totalCost res
       | None =>
           Position.totalTokens p == tok
           /\ Position.totalCost p == SellResult.totalCost res
       end.
Proof.
  intros Hpos W Hp Htok Hle.
  destruct (position_totals f a p Hp) as (Ht & Hc & _ & Hlots).
  pose proof (recordSellTrade_position f env a s tok bnb price gas tx Hpos W Htok) as Hafter.
  rewrite min_left in Hafter by lra.
  pose proof (sellLoop_cost_same (JS.toLowerCase a) (trades (getTradingHistory f))
                tok gas Hpos) as Hsame.
  cbv zeta in Hsame. fold (sellRun f a tok gas) in Hsame.
  assert (Hcost : heldCost (JS.toLowerCase a)
                    (fst (recordSellTrade f env a s tok bnb price gas tx))
                  == heldCost (JS.toLowerCase a) f - totalCost (sellRun f a tok gas)).
  { rewrite recordSellTrade_recorded by assumption. cbn [fst].
    unfold heldCost. rewrite getTradingHistory_stored. unfold historyAfterSell.
    cbn [trades]. rewrite sumQ_snoc.
    change (heldCostOf (JS.toLowerCase a) (SELL _)) with 0. lra. }
  assert (Hres : exists res,
             snd (recordSellTrade f env a s tok bnb price gas tx) = Some res
             /\ SellResult.totalCost res = totalCost (sellRun f a tok gas)).
  { rewrite recordSellTrade_recorded by assumption. eexists. split; reflexivity. }
  destruct Hres as (res & Hres & Hrc).
  exists res. split; [exact Hres|]. rewrite Hrc.
  destruct (getTokenPositionInfo (fst (recordSellTrade f env a s tok bnb price gas tx)) a)
    as [p'|] eqn:Hp'.
  - destruct (position_totals _ a p' Hp') as (Ht' & Hc' & _ & _).
    split; lra.
  - rewrite no_position in Hp'.
    assert (Hz : heldTokens (JS.toLowerCase a)
                   (fst (recordSellTrade f env a s tok bnb price gas tx)) == 0).
    { apply sumQ_zero. intros t Hin. unfold heldTokensOf. now rewrite (Hp' t Hin). }
    assert (Hzc : heldCost (JS.toLowerCase a)
                    (fst (recordSellTrade f env a s tok bnb price gas tx)) == 0).
    { apply sumQ_zero. intros t Hin. unfold heldCostOf. now rewrite (Hp' t Hin). }
    split; lra.
Qed.

Lemma recordSellTrade_reduces_position_witness :
  exists res,
    snd sellOf50 = Some res
    /\ match getTokenPositionInfo (fst sellOf50) cake with
       | Some p' =>
           Position.totalTokens p' == (0 + 100 + (6667 # 100)) - 50
           /\ Position.totalCost p' == (0 + (1 # 10) + (2 # 10)) - SellResult.totalCost res
       | None =>
           0 + 100 + (6667 # 100) == 50
           /\ 0 + (1 # 10) + (2 # 10) == SellResult.totalCost res
       end.
Proof.
  assert (Hpos : holdingPositive (trades (getTradingHistory afterBuyB))).
  { apply (run_holdingPositive cake readmeBuys). repeat constructor. }
  assert (Hle : 50 <= 0 + 100 + (6667 # 100)) by (vm_compute; discriminate).
  exact (recordSellTrade_reduces_position afterBuyB (mkEnv 3000 3000 true)
           cake "CAKE" 50 (14 # 100) (7 # 2) 25000 "0xsell1"
           (Position.mk (0 + 100 + (6667 # 100)) (0 + (1 # 10) + (2 # 10))
              ((0 + (1 # 10) + (2 # 10)) / (0 + 100 + (6667 # 100))) 2)
           Hpos eq_refl eq_refl eq_refl Hle).
Defined.
